(** * Reports_orchestrator: a shallow embedding of the synchronisation and
    enrichment jobs, and their specification.

    Python values, dicts and the exceptions the jobs raise are modelled in
    [Py]; the MongoDB query operators the jobs use in [Mongo]; each job in
    the module named after its source file. *)

From Stdlib Require Import String Ascii ZArith List Bool.
From stdpp Require Import base gmap strings list sorting.

Open Scope Z_scope.
Set Warnings "-register-all".


(* ------------------------------------------------------------------ *)
(** ** Python values *)

Module Py.

(** A Python float, through the observations the code makes of it:
    NaN, the infinities, or a finite float with its truncation
    [int(f)] and its text [str(f)]. *)
Inductive pyfloat :=
| FNaN
| FInf
| FNegInf
| FFin (trunc : Z) (repr : string).

(** The values that appear in the documents read from MongoDB and from the
    API: dates are days since 1970-01-01, datetimes are BSON dates
    (milliseconds since the epoch, UTC, returned naive by pymongo). *)
Inductive pyval :=
| PNone
| PBool (b : bool)
| PInt (z : Z)
| PFloat (f : pyfloat)
| PStr (s : string)
| PDate (days : Z)
| PDatetime (ms : Z)
| PList (l : list pyval)
| PDict (kvs : list (string * pyval)).

Definition dict := list (string * pyval).

Inductive exc :=
| AttributeError
| TypeError
| ValueError
| OverflowError
| SystemExit (code : Z)
| CalledProcessError (code : Z)
| DispatchTrackAPIError
| RequestException.

(** A computation that returns normally or raises. *)
Inductive res (A : Type) :=
| Ok (a : A)
| Err (e : exc).
Arguments Ok {A} a.
Arguments Err {A} e.

Definition bind {A B} (m : res A) (k : A -> res B) : res B :=
  match m with Ok a => k a | Err e => Err e end.

Notation "'let!' x ':=' m 'in' k" := (bind m (fun x => k))
  (at level 200, x name, m at level 100, k at level 200).

(** *** Strings *)

Definition a_code (a : ascii) : nat := nat_of_ascii a.

(** [str.isspace] on ASCII: \t \n \v \f \r, the separators \x1c-\x1f and
    the space. *)
Definition is_space (a : ascii) : bool :=
  let n := a_code a in
  ((9 <=? n) && (n <=? 13))%nat || ((28 <=? n) && (n <=? 32))%nat.

Fixpoint lstrip (s : string) : string :=
  match s with
  | EmptyString => EmptyString
  | String a r => if is_space a then lstrip r else s
  end.

Fixpoint srev_acc (s acc : string) : string :=
  match s with
  | EmptyString => acc
  | String a r => srev_acc r (String a acc)
  end.

Definition srev (s : string) : string := srev_acc s EmptyString.

Definition rstrip (s : string) : string := srev (lstrip (srev s)).

(** [str.strip()] *)
Definition strip (s : string) : string := rstrip (lstrip s).

Definition is_digit (a : ascii) : bool :=
  let n := a_code a in ((48 <=? n) && (n <=? 57))%nat.

Fixpoint all_digits (s : string) : bool :=
  match s with
  | EmptyString => true
  | String a r => is_digit a && all_digits r
  end.

(** [str.isdigit()]: non-empty and every character a digit. *)
Definition isdigit (s : string) : bool :=
  match s with EmptyString => false | _ => all_digits s end.

Definition map_ascii (f : ascii -> ascii) : string -> string :=
  fix go s := match s with
              | EmptyString => EmptyString
              | String a r => String (f a) (go r)
              end.

Definition lower_ascii (a : ascii) : ascii :=
  let n := a_code a in
  if ((65 <=? n) && (n <=? 90))%nat then ascii_of_nat (n + 32) else a.

Definition upper_ascii (a : ascii) : ascii :=
  let n := a_code a in
  if ((97 <=? n) && (n <=? 122))%nat then ascii_of_nat (n - 32) else a.

(** [str.lower()] and [str.upper()] *)
Definition lower (s : string) : string := map_ascii lower_ascii s.
Definition upper (s : string) : string := map_ascii upper_ascii s.

(** [int(s)] for a string of decimal digits. *)
Fixpoint digits_value_acc (s : string) (acc : Z) : Z :=
  match s with
  | EmptyString => acc
  | String a r => digits_value_acc r (10 * acc + Z.of_nat (a_code a - 48))
  end.

Definition digits_value (s : string) : Z := digits_value_acc s 0.

(** Decimal text of a natural number. *)
Fixpoint string_of_N_fuel (fuel : nat) (n : N) (acc : string) : string :=
  match fuel with
  | O => acc
  | S f =>
      let acc' := String (ascii_of_N (48 + N.modulo n 10)) acc in
      if (N.div n 10 =? 0)%N then acc' else string_of_N_fuel f (N.div n 10) acc'
  end.

Definition string_of_N (n : N) : string := string_of_N_fuel (S (N.size_nat n)) n EmptyString.

(** [str(z)] for an int. *)
Definition string_of_Z (z : Z) : string :=
  if z <? 0 then String "-" (string_of_N (Z.to_N (- z))) else string_of_N (Z.to_N z).

(** Zero-padded decimal text, as by the [%0<w>d] format. *)
Fixpoint pad_zeros (fuel w : nat) (s : string) : string :=
  match fuel with
  | O => s
  | S f => if (String.length s <? w)%nat then pad_zeros f w (String "0" s) else s
  end.

Definition pad (w : nat) (z : Z) : string := pad_zeros w w (string_of_Z z).

(** *** Dates *)

(** Proleptic Gregorian calendar date of a day count since 1970-01-01. *)
Definition civil_from_days (days : Z) : Z * Z * Z :=
  let z := days + 719468 in
  let era := z / 146097 in
  let doe := z - era * 146097 in
  let yoe := (doe - doe / 1460 + doe / 36524 - doe / 146096) / 365 in
  let y := yoe + era * 400 in
  let doy := doe - (365 * yoe + yoe / 4 - yoe / 100) in
  let mp := (5 * doy + 2) / 153 in
  let d := doy - (153 * mp + 2) / 5 + 1 in
  let m := if mp <? 10 then mp + 3 else mp - 9 in
  ((if m <=? 2 then y + 1 else y), m, d).

(** [date.isoformat()] *)
Definition date_isoformat (days : Z) : string :=
  let '(y, m, d) := civil_from_days days in
  (pad 4 y ++ "-" ++ pad 2 m ++ "-" ++ pad 2 d)%string.

(** [str(dt)] of a naive datetime at millisecond precision. *)
Definition datetime_str (ms : Z) : string :=
  let days := ms / 86400000 in
  let r := ms mod 86400000 in
  let secs := r / 1000 in
  let micro := (r mod 1000) * 1000 in
  (date_isoformat days ++ " " ++ pad 2 (secs / 3600) ++ ":" ++ pad 2 ((secs / 60) mod 60)
     ++ ":" ++ pad 2 (secs mod 60)
     ++ (if Z.eqb micro 0 then "" else "." ++ pad 6 micro))%string.

(** *** [str()] and [repr()] *)

Definition float_str (f : pyfloat) : string :=
  match f with
  | FNaN => "nan"
  | FInf => "inf"
  | FNegInf => "-inf"
  | FFin _ r => r
  end.

Definition sq : string := String "'" EmptyString.

Fixpoint join (sep : string) (l : list string) : string :=
  match l with
  | [] => ""
  | [x] => x
  | x :: r => x ++ sep ++ join sep r
  end%string.

(** [repr(v)]; string escapes beyond the quotes are not modelled. *)
Fixpoint repr (v : pyval) : string :=
  match v with
  | PNone => "None"
  | PBool true => "True"
  | PBool false => "False"
  | PInt z => string_of_Z z
  | PFloat f => float_str f
  | PStr s => sq ++ s ++ sq
  | PDate d => "datetime.date(" ++ date_isoformat d ++ ")"
  | PDatetime ms => "datetime.datetime(" ++ datetime_str ms ++ ")"
  | PList l => "[" ++ join ", " (map repr l) ++ "]"
  | PDict kvs =>
      "{" ++ join ", " (map (fun kv => sq ++ fst kv ++ sq ++ ": " ++ repr (snd kv)) kvs) ++ "}"
  end%string.

(** [str(v)] *)
Definition str (v : pyval) : string :=
  match v with
  | PStr s => s
  | PDate d => date_isoformat d
  | PDatetime ms => datetime_str ms
  | _ => repr v
  end.

(** Truthiness, as tested by [if v], [not v] and [or]. *)
Definition truthy (v : pyval) : bool :=
  match v with
  | PNone => false
  | PBool b => b
  | PInt z => negb (z =? 0)
  | PFloat (FFin _ r) => negb (String.eqb r "0.0" || String.eqb r "-0.0")
  | PFloat _ => true
  | PStr s => negb (String.eqb s "")
  | PDate _ | PDatetime _ => true
  | PList l => negb (Nat.eqb (List.length l) 0)
  | PDict kvs => negb (Nat.eqb (List.length kvs) 0)
  end.

(** *** Dicts *)

Fixpoint dict_lookup (d : dict) (k : string) : option pyval :=
  match d with
  | [] => None
  | (k', v) :: r => if String.eqb k k' then Some v else dict_lookup r k
  end.

(** [d.get(k)] on a dict. *)
Definition dict_get (d : dict) (k : string) : pyval :=
  match dict_lookup d k with Some v => v | None => PNone end.

(** [d[k] = v]: replaces the entry in place, or appends it. *)
Fixpoint dict_set (d : dict) (k : string) (v : pyval) : dict :=
  match d with
  | [] => [(k, v)]
  | (k', v') :: r => if String.eqb k k' then (k', v) :: r else (k', v') :: dict_set r k v
  end.

(** [v.get(k)] on a value of unknown type: only dicts have [get]. *)
Definition get (v : pyval) (k : string) : res pyval :=
  match v with
  | PDict kvs => Ok (dict_get kvs k)
  | _ => Err AttributeError
  end.

(** [v.get(k, default)] on a value of unknown type. *)
Definition get_or (v : pyval) (k : string) (default : pyval) : res pyval :=
  match v with
  | PDict kvs => Ok (match dict_lookup kvs k with Some x => x | None => default end)
  | _ => Err AttributeError
  end.

(** [isinstance(v, dict)] *)
Definition is_dict (v : pyval) : bool := match v with PDict _ => true | _ => false end.

(** [v == s] for a text literal [s]. *)
Definition eq_str (v : pyval) (s : string) : bool :=
  match v with PStr t => String.eqb t s | _ => false end.

(** [float] values that are NaN or infinite ([_is_bad_number]). *)
Definition is_bad_number (v : pyval) : bool :=
  match v with
  | PFloat FNaN | PFloat FInf | PFloat FNegInf => true
  | _ => false
  end.

End Py.

(* ------------------------------------------------------------------ *)
(** ** MongoDB query operators *)

Module Mongo.
Import Py.

(** A collection, in natural order. *)
Definition collection := list dict.

(** BSON equality. Numbers compare by value across int and float (an
    integral float is written [N.0] by Python); NaN equals NaN. *)
Fixpoint bson_eq (a b : pyval) : bool :=
  let fix list_eq (l1 l2 : list pyval) : bool :=
    match l1, l2 with
    | [], [] => true
    | x :: r1, y :: r2 => bson_eq x y && list_eq r1 r2
    | _, _ => false
    end in
  let fix dict_eq (d1 d2 : list (string * pyval)) : bool :=
    match d1, d2 with
    | [], [] => true
    | (k1, x) :: r1, (k2, y) :: r2 => String.eqb k1 k2 && bson_eq x y && dict_eq r1 r2
    | _, _ => false
    end in
  match a, b with
  | PNone, PNone => true
  | PBool x, PBool y => Bool.eqb x y
  | PInt x, PInt y => Z.eqb x y
  | PInt z, PFloat (FFin t r) | PFloat (FFin t r), PInt z =>
      Z.eqb t z && String.eqb r (string_of_Z t ++ ".0")
  | PFloat FNaN, PFloat FNaN | PFloat FInf, PFloat FInf
  | PFloat FNegInf, PFloat FNegInf => true
  | PFloat (FFin _ r1), PFloat (FFin _ r2) => String.eqb r1 r2
  | PStr x, PStr y => String.eqb x y
  | PDatetime x, PDatetime y => Z.eqb x y
  | PList l1, PList l2 => list_eq l1 l2
  | PDict d1, PDict d2 => dict_eq d1 d2
  | _, _ => false
  end.

(** [{k: q}]: the field equals [q], or is an array with an element equal
    to [q]; a missing field matches [None] only. *)
Definition field_eq (d : dict) (k : string) (q : pyval) : bool :=
  match dict_lookup d k with
  | None => match q with PNone => true | _ => false end
  | Some v =>
      bson_eq v q || match v with PList l => existsb (fun e => bson_eq e q) l | _ => false end
  end.

(** [{k: {"$ne": q}}] *)
Definition field_ne (d : dict) (k : string) (q : pyval) : bool := negb (field_eq d k q).

(** [{k: {"$exists": True}}] *)
Definition field_exists (d : dict) (k : string) : bool :=
  match dict_lookup d k with Some _ => true | None => false end.

(** [{k: {"$in": qs}}] *)
Definition field_in (d : dict) (k : string) (qs : list pyval) : bool :=
  existsb (field_eq d k) qs.

(** Order within one BSON type bracket (strings compare bytewise). *)
Definition bson_le (v q : pyval) : bool :=
  match v, q with
  | PDatetime a, PDatetime b => Z.leb a b
  | PInt a, PInt b => Z.leb a b
  | PStr a, PStr b => String.leb a b
  | _, _ => false
  end.

(** [{k: {"$lte": q}}] and [{k: {"$gte": q}}] *)
Definition field_cmp (le : pyval -> bool) (d : dict) (k : string) : bool :=
  match dict_lookup d k with
  | None => false
  | Some v => le v || match v with PList l => existsb le l | _ => false end
  end.

Definition field_lte (d : dict) (k : string) (q : pyval) : bool :=
  field_cmp (fun v => bson_le v q) d k.

Definition field_gte (d : dict) (k : string) (q : pyval) : bool :=
  field_cmp (fun v => bson_le q v) d k.

(** [find(filter)] and [find_one(filter)], in natural order. *)
Definition find (c : collection) (p : dict -> bool) : list dict := List.filter p c.

Fixpoint find_one (c : collection) (p : dict -> bool) : option dict :=
  match c with
  | [] => None
  | d :: r => if p d then Some d else find_one r p
  end.

(** An inclusion projection: the listed fields the document has. *)
Definition project (keys : list string) (d : dict) : dict :=
  List.filter (fun kv => existsb (String.eqb (fst kv)) keys) d.

(** [{"$set": sets}] applied to one document. *)
Definition set_fields (d : dict) (sets : list (string * pyval)) : dict :=
  fold_left (fun acc kv => dict_set acc (fst kv) (snd kv)) sets d.

(** [update_one(filter, {"$set": sets})]: the first matching document. *)
Fixpoint update_one (c : collection) (p : dict -> bool)
    (sets : list (string * pyval)) : collection :=
  match c with
  | [] => []
  | d :: r => if p d then set_fields d sets :: r else d :: update_one r p sets
  end.

(** The document with a given [_id]. *)
Definition by_id (i : pyval) (d : dict) : bool := field_eq d "_id" i.

(** [update_one(filter, {"$set": sets}, upsert=True)]: the first matching
    document, or, when none matches, a new document added at the end,
    made of [base] (its new [_id] and the equality fields of the filter)
    with [sets] applied. *)
Definition upsert_one (c : collection) (p : dict -> bool) (base : dict)
    (sets : list (string * pyval)) : collection :=
  if existsb p c then update_one c p sets else c ++ [set_fields base sets].


(** *** Series of writes keyed by one field *)

(** The value an [update_one] filter addresses a document by: an int (the
    [_id]s) or a text (the [identifier]s). *)
Inductive key := KInt (n : Z) | KStr (s : string).

#[global] Instance key_eq_dec : EqDecision key.
Proof. solve_decision. Defined.

Definition key_val (a : key) : pyval :=
  match a with KInt n => PInt n | KStr s => PStr s end.

Definition key_of (k : string) (d : dict) : option key :=
  match dict_lookup d k with
  | Some (PInt n) => Some (KInt n)
  | Some (PStr s) => Some (KStr s)
  | _ => None
  end.

(** A collection whose documents carry distinct keys in the field [k], as
    MongoDB keeps the [_id]s. *)
Definition ids_ok (k : string) (c : collection) : Prop :=
  Forall (fun d => is_Some (key_of k d)) c /\ NoDup (map (key_of k) c).

(** The writes a pass issues, in order: each document with the fields
    [$set] on it by [update_one({k: d[k]}, ...)]. *)
Fixpoint apply_writes (k : string) (c : collection)
    (w : list (dict * list (string * pyval))) : collection :=
  match w with
  | [] => c
  | (d, s) :: r => apply_writes k (update_one c (fun x => field_eq x k (dict_get d k)) s) r
  end.

(** The fields written on the document with key [i], if any. *)
Fixpoint write_for (k : string) (w : list (dict * list (string * pyval))) (i : option key)
    : option (list (string * pyval)) :=
  match w with
  | [] => None
  | (d, s) :: r => if decide (key_of k d = i) then Some s else write_for k r i
  end.

Definition writes_ok (k : string) (w : list (dict * list (string * pyval))) : Prop :=
  Forall (fun ds => is_Some (key_of k (fst ds)) /\ ~ In k (map fst (snd ds))) w
  /\ NoDup (map (fun ds => key_of k (fst ds)) w).

(** The writes of a pass over the selected dispatches, when the dispatch
    [d] receives [h d] (or nothing). *)
Definition wmap (h : dict -> option (list (string * pyval))) (docs : list dict)
    : list (dict * list (string * pyval)) :=
  flat_map (fun d => match h d with Some s => [(d, s)] | None => [] end) docs.


(** A loop over the documents of a cursor whose body, from the document
    and the loop's counters, raises, or continues with or without one
    [update_one({k: doc[k]}, {"$set": sets})]. It returns the collection
    as the loop leaves it, the counters, and the exception that ended it. *)
Fixpoint for_each_update {S : Type} (k : string)
    (body : dict -> S -> res (option (list (string * pyval)) * S))
    (docs : list dict) (c : collection) (n : S) : collection * S * option exc :=
  match docs with
  | [] => (c, n, None)
  | doc :: rest =>
      match body doc n with
      | Err e => (c, n, Some e)
      | Ok (None, n') => for_each_update k body rest c n'
      | Ok (Some sets, n') =>
          for_each_update k body rest
            (update_one c (fun x => field_eq x k (dict_get doc k)) sets) n'
      end
  end.

(** What the body decides for one document, the counters aside, and the
    fields it writes (none when it raises). *)
Definition decision {S : Type} (body : dict -> S -> res (option (list (string * pyval)) * S))
    (n : S) (d : dict) : res (option (list (string * pyval))) :=
  match body d n with Ok (o, _) => Ok o | Err e => Err e end.

Definition written {S : Type} (body : dict -> S -> res (option (list (string * pyval)) * S))
    (n : S) (d : dict) : option (list (string * pyval)) :=
  match decision body n d with Ok o => o | Err _ => None end.

End Mongo.

(* ------------------------------------------------------------------ *)
(** ** [backfill_substatus.py]: the Sub-status Match with clearing *)

Module BackfillSubstatus.
Import Py Mongo.

(** [_normalize_code] *)
Definition _normalize_code (code : pyval) : option string :=
  match code with
  | PNone => None
  | _ =>
      if is_bad_number code then None
      else
        let s := strip (str code) in
        if String.eqb s "" || String.eqb (lower s) "nan" then None else Some s
  end.

(** [_code_variants]: the members of the returned set. *)
Definition _code_variants (code : pyval) : option (list pyval) :=
  match _normalize_code code with
  | None => None
  | Some norm => Some (PStr norm :: (if isdigit norm then [PInt (digits_value norm)] else []))
  end.

Definition sub_fields : list string :=
  ["Código Sub"; "Estado Beetrack"; "Estado Guía"; "Cierre"].

(** [_lookup_substatus] *)
Definition _lookup_substatus (sub_col : collection) (code : pyval) : option dict :=
  match _code_variants code with
  | None | Some [] => None
  | Some vs =>
      option_map (project sub_fields) (find_one sub_col (fun m => field_in m "Código Sub" vs))
  end.

Definition null_fields : list (string * pyval) :=
  [("estado_beetrack", PNone); ("estado_guia", PNone); ("cierre", PNone)].

Definition mapped_fields (m : dict) : list (string * pyval) :=
  [("estado_beetrack", dict_get m "Estado Beetrack");
   ("estado_guia", dict_get m "Estado Guía");
   ("cierre", dict_get m "Cierre")].

Record counts := { total : nat; null_or_invalid_code : nat; mapped : nat; unmatched : nat }.

Definition counts0 : counts := Build_counts 0 0 0 0.

(** The body of the loop over one dispatch: the fields to [$set] and the
    updated counters. *)
Definition step (sub_col : collection) (disp : dict) (n : counts)
    : list (string * pyval) * counts :=
  let n := Build_counts (S (total n)) (null_or_invalid_code n) (mapped n) (unmatched n) in
  let code := dict_get disp "substatus_code" in
  match _normalize_code code with
  | None =>
      (null_fields,
       Build_counts (total n) (S (null_or_invalid_code n)) (mapped n) (unmatched n))
  | Some _ =>
      match _lookup_substatus sub_col code with
      | Some m =>
          if truthy (PDict m) then
            (mapped_fields m,
             Build_counts (total n) (null_or_invalid_code n) (S (mapped n)) (unmatched n))
          else
            (null_fields,
             Build_counts (total n) (null_or_invalid_code n) (mapped n) (S (unmatched n)))
      | None =>
          (null_fields,
           Build_counts (total n) (null_or_invalid_code n) (mapped n) (S (unmatched n)))
      end
  end.

Fixpoint process (sub_col : collection) (docs : list dict) (disp_col : collection)
    (n : counts) : collection * counts :=
  match docs with
  | [] => (disp_col, n)
  | disp :: rest =>
      let '(upd, n') := step sub_col disp n in
      process sub_col rest (update_one disp_col (by_id (dict_get disp "_id")) upd) n'
  end.

(** The recent-dispatch query of [run]. *)
Definition selected (threshold_iso : string) (d : dict) : bool :=
  field_gte d "sync_timestamp" (PStr threshold_iso).

Definition BATCH_SIZE : nat := 1000.

(** The BSON order of the [_id]s of the model: numbers before texts, ints
    by value, texts bytewise. *)
Definition key_le (a b : key) : bool :=
  match a, b with
  | KInt x, KInt y => x <=? y
  | KInt _, KStr _ => true
  | KStr _, KInt _ => false
  | KStr x, KStr y => String.leb x y
  end.

(** [{"_id": {"$gt": last}}]: a comparison query matches only values of
    the type bracket of [last]. *)
Definition key_gt (last k : key) : bool :=
  match last, k with
  | KInt x, KInt y => x <? y
  | KStr x, KStr y => negb (String.leb y x)
  | _, _ => false
  end.

(** The query of one batch. *)
Definition query (threshold_iso : string) (last_id : option key) (d : dict) : bool :=
  selected threshold_iso d
  && match last_id with
     | None => true
     | Some l => match key_of "_id" d with Some k => key_gt l k | None => false end
     end.

(** [.sort("_id", 1)], by insertion. *)
Definition id_le (a b : dict) : bool :=
  match key_of "_id" a, key_of "_id" b with
  | Some x, Some y => key_le x y
  | None, _ => true
  | Some _, None => false
  end.

Fixpoint insert_by_id (d : dict) (l : list dict) : list dict :=
  match l with
  | [] => [d]
  | e :: r => if id_le d e then d :: e :: r else e :: insert_by_id d r
  end.

Definition sort_by_id (l : list dict) : list dict := fold_right insert_by_id [] l.

(** [list(disp_col.find(query).sort("_id", 1).limit(BATCH_SIZE))] *)
Definition batch (disp_col : collection) (threshold_iso : string) (last_id : option key)
    : list dict :=
  firstn BATCH_SIZE (sort_by_id (find disp_col (query threshold_iso last_id))).

(** The [while True] loop of [run]: after a batch, [last_id] is the [_id]
    of its last document. [None] stands for a run outside the model: a
    batch whose last [_id] is neither an int nor a text, or more batches
    than [fuel]. *)
Fixpoint loop (fuel : nat) (sub_col disp_col : collection) (threshold_iso : string)
    (last_id : option key) (n : counts) : option (collection * counts) :=
  match fuel with
  | O => None
  | S fuel =>
      match batch disp_col threshold_iso last_id with
      | [] => Some (disp_col, n)
      | docs =>
          let '(disp_col', n') := process sub_col docs disp_col n in
          match key_of "_id" (List.last docs []) with
          | Some k => loop fuel sub_col disp_col' threshold_iso (Some k) n'
          | None => None
          end
      end
  end.

(** [run]: each batch visits at least one new dispatch, so the loop ends
    within one batch more than there are dispatches. *)
Definition run (sub_col disp_col : collection) (threshold_iso : string)
    : option (collection * counts) :=
  loop (S (length disp_col)) sub_col disp_col threshold_iso None counts0.

(** For the statements about [run]. The dispatches the loop has gone
    through when [last_id] is [l]: the selected ones whose [_id] is at
    most [l] in the order of the sort. *)
Definition visited (threshold_iso : string) (last_id : option key) (d : dict) : bool :=
  selected threshold_iso d
  && match last_id, key_of "_id" d with Some l, Some k => key_le k l | _, _ => false end.

(** A dispatch with an int [_id], and the number of selected ones. *)
Definition int_id (d : dict) : bool :=
  match key_of "_id" d with Some (KInt _) => true | _ => false end.

Definition selected_ints (disp_col : collection) (threshold_iso : string) : nat :=
  length (List.filter (fun d => selected threshold_iso d && int_id d) disp_col).

(** The dispatches a run reaches: the selected ones with an int [_id],
    and the others too when fewer than [BATCH_SIZE] selected ones have an
    int [_id] (the first batch then ends on a text [_id]). *)
Definition reached (disp_col : collection) (threshold_iso : string) (d : dict) : bool :=
  selected threshold_iso d
  && (int_id d || (selected_ints disp_col threshold_iso <? BATCH_SIZE)%nat).

(** [_extract_codcomu_value] of this file (the same text as in
    [backfill_ct.py]; [run] does not call it). *)
Definition _extract_codcomu_value (disp_doc : dict) : res (option string) :=
  let fix scan (tags : list pyval) : res (option string) :=
    match tags with
    | [] => Ok None
    | tag :: rest =>
        let! n1 := get tag "name" in
        let! name := (if truthy n1 then Ok n1 else get tag "Name") in
        if negb (truthy name) then scan rest
        else if String.eqb (upper (strip (str name))) "CODCOMU" then
          let! v1 := get tag "value" in
          let! value := (if truthy v1 then Ok v1 else get tag "Value") in
          match value with
          | PNone => Ok None
          | _ => Ok (Some (strip (str value)))
          end
        else scan rest
    end in
  match dict_get disp_doc "tags" with
  | PList tags => scan tags
  | _ => Ok None
  end.

(** The fields [run] sets on a dispatch (the counters aside). *)
Definition fields_of (sub_col : collection) (d : dict) : list (string * pyval) :=
  fst (step sub_col d counts0).

End BackfillSubstatus.

(* ------------------------------------------------------------------ *)
(** ** [orchestrator/jobs/get_substatus.py]: the fill-only Sub-status job *)

Module GetSubstatus.
Import Py Mongo.

(** [_code_variants]: raw value, trimmed text, and the int of an all-digit
    text. [variants.add(code)] raises [TypeError] for a list or a dict
    code, which cannot be hashed. *)
Definition code_variants_of (code : pyval) : list pyval :=
  let s := strip (str code) in
  [code; PStr s] ++ (if isdigit s then [PInt (digits_value s)] else []).

Definition _code_variants (code : pyval) : res (option (list pyval)) :=
  match code with
  | PNone => Ok None
  | PList _ | PDict _ => Err TypeError
  | _ => Ok (Some (code_variants_of code))
  end.

(** [_lookup_substatus] *)
Definition _lookup_substatus (sub_col : collection) (code : pyval) : res (option dict) :=
  let! variants := _code_variants code in
  match variants with
  | None | Some [] => Ok None
  | Some vs => Ok (find_one sub_col (fun m => field_in m "Código Sub" vs))
  end.

(** The query of [run]. *)
Definition selected (d : dict) : bool :=
  field_ne d "substatus_code" PNone
  && (negb (field_exists d "estado_beetrack") || negb (field_exists d "estado_guia")
      || negb (field_exists d "cierre")).

(** The counters [total], [updated] and [unmatched] of [run]. *)
Definition counts : Type := nat * nat * nat.

(** The body of the loop over one dispatch: the fields to [$set], if any,
    and the updated counters; an exception of [_lookup_substatus] ends the
    loop. *)
Definition body (sub_col : collection) (disp : dict) (n : counts)
    : res (option (list (string * pyval)) * counts) :=
  let '(total, updated, unmatched) := n in
  let total := S total in
  let code := dict_get disp "substatus_code" in
  let! mapping := _lookup_substatus sub_col code in
  match mapping with
  | Some m =>
      if truthy (PDict m) then
        Ok (Some (BackfillSubstatus.mapped_fields m), (total, S updated, unmatched))
      else Ok (None, (total, updated, S unmatched))
  | None => Ok (None, (total, updated, S unmatched))
  end.

(** [run]: the collection as the loop leaves it, the counters, and the
    exception that ended the loop, if any. *)
Definition run (sub_col disp_col : collection) : collection * counts * option exc :=
  for_each_update "_id" (body sub_col) (find disp_col selected) disp_col (0, 0, 0)%nat.

End GetSubstatus.

(* ------------------------------------------------------------------ *)
(** ** [backfill_ct.py]: the Carrier (CT) Match on recent dispatches *)

Module BackfillCT.
Import Py Mongo.

(** The loop of [_extract_codcomu_value] over the tag list: [tag.get] is
    called on every element, whatever its type. *)
Fixpoint codcomu_scan (tags : list pyval) : res (option string) :=
  match tags with
  | [] => Ok None
  | tag :: rest =>
      let! n1 := get tag "name" in
      let! name := (if truthy n1 then Ok n1 else get tag "Name") in
      if negb (truthy name) then codcomu_scan rest
      else if String.eqb (upper (strip (str name))) "CODCOMU" then
        let! v1 := get tag "value" in
        let! value := (if truthy v1 then Ok v1 else get tag "Value") in
        match value with
        | PNone => Ok None
        | _ => Ok (Some (strip (str value)))
        end
      else codcomu_scan rest
  end.

(** [_extract_codcomu_value] *)
Definition _extract_codcomu_value (disp_doc : dict) : res (option string) :=
  match dict_get disp_doc "tags" with
  | PList tags => codcomu_scan tags
  | _ => Ok None
  end.

Record counts := { total : nat; updated : nat; no_codcomu : nat; not_found : nat }.

Definition counts0 : counts := Build_counts 0 0 0 0.

(** The body of the loop of [run] over one dispatch, for an extractor of
    the code; [orchestrator/jobs/get_ct.py] has the same body. *)
Definition step_with (extract : dict -> res (option string)) (ct_col : collection)
    (disp : dict) (n : counts) : res (option (list (string * pyval)) * counts) :=
  let n := Build_counts (S (total n)) (updated n) (no_codcomu n) (not_found n) in
  let! external_id := extract disp in
  match external_id with
  | None => Ok (None, Build_counts (total n) (updated n) (S (no_codcomu n)) (not_found n))
  | Some e =>
      if String.eqb e "" then
        Ok (None, Build_counts (total n) (updated n) (S (no_codcomu n)) (not_found n))
      else
        match find_one ct_col (fun m => field_eq m "Id Externo" (PStr e)) with
        | None => Ok (None, Build_counts (total n) (updated n) (no_codcomu n) (S (not_found n)))
        | Some mapping =>
            if negb (truthy (PDict mapping)) then
              Ok (None, Build_counts (total n) (updated n) (no_codcomu n) (S (not_found n)))
            else
              let ct_value := dict_get mapping "CT CORRESPONDE" in
              if negb (truthy ct_value) then
                Ok (None, Build_counts (total n) (updated n) (no_codcomu n) (S (not_found n)))
              else
                Ok (Some [("ct", PStr (strip (str ct_value))); ("ct_match_codcomu", PStr e)],
                    Build_counts (total n) (S (updated n)) (no_codcomu n) (not_found n))
        end
  end.

Definition step := step_with _extract_codcomu_value.

(** The query of [run]: [ct] null or missing, and a recent [sync_timestamp]. *)
Definition selected (threshold_iso : string) (d : dict) : bool :=
  (field_eq d "ct" PNone || negb (field_exists d "ct"))
  && field_gte d "sync_timestamp" (PStr threshold_iso).

(** [run]: the collection, the counters, and the exception that ended the
    loop, if any. *)
Definition run (ct_col disp_col : collection) (threshold_iso : string)
    : collection * counts * option exc :=
  for_each_update "_id" (step ct_col) (find disp_col (selected threshold_iso)) disp_col counts0.

(** The two outcomes that leave a dispatch alone: no usable code, and a
    code with no row carrying a CT value. *)
Definition is_no_code (extract : dict -> res (option string)) (d : dict) : bool :=
  match extract d with
  | Ok None => true
  | Ok (Some e) => String.eqb e ""
  | Err _ => false
  end.

Definition is_not_found (extract : dict -> res (option string)) (ct_col : collection)
    (d : dict) : bool :=
  match extract d with
  | Ok (Some e) =>
      negb (String.eqb e "")
      && match find_one ct_col (fun m => field_eq m "Id Externo" (PStr e)) with
         | None => true
         | Some m => negb (truthy (dict_get m "CT CORRESPONDE"))
         end
  | _ => false
  end.

End BackfillCT.

(* ------------------------------------------------------------------ *)
(** ** [orchestrator/jobs/get_ct.py]: the CT Match of the pipeline *)

Module GetCT.
Import Py Mongo.

(** [_extract_codcomu_value], reading [dispatch_raw.tags] (or [Tags]). *)
Definition _extract_codcomu_value (disp_doc : dict) : res (option string) :=
  let r := dict_get disp_doc "dispatch_raw" in
  let raw := if truthy r then r else PDict [] in
  let! t1 := get raw "tags" in
  let! tags := (if truthy t1 then Ok t1 else get raw "Tags") in
  match tags with
  | PList l => BackfillCT.codcomu_scan l
  | _ => Ok None
  end.

Definition step := BackfillCT.step_with _extract_codcomu_value.

(** The query of [run]: [ct] null or missing. *)
Definition selected (d : dict) : bool :=
  field_eq d "ct" PNone || negb (field_exists d "ct").

Definition run (ct_col disp_col : collection) : collection * BackfillCT.counts * option exc :=
  for_each_update "_id" (step ct_col) (find disp_col selected) disp_col BackfillCT.counts0.

End GetCT.

(* ------------------------------------------------------------------ *)
(** ** [backfill_compromise_date_from_tags.py]: the Date Backfill *)

Module BackfillCompromiseDate.
Import Py Mongo.

(** The loop of [extract_fecsoldes]: [tag.get] only on dicts. *)
Fixpoint fecsoldes_scan (tags : list pyval) : res pyval :=
  match tags with
  | [] => Ok PNone
  | tag :: rest =>
      if is_dict tag then
        let! name := get tag "name" in
        if eq_str name "FECSOLDES" then get tag "value" else fecsoldes_scan rest
      else fecsoldes_scan rest
  end.

(** [extract_fecsoldes]; [PNone] is Python's [None]. *)
Definition extract_fecsoldes (tags : pyval) : res pyval :=
  match tags with
  | PList l => fecsoldes_scan l
  | _ => Ok PNone
  end.

(** [normalize_compromise_date]: [YYYYMMDD] to [YYYY-MM-DD]. *)
Definition normalize_compromise_date (raw : pyval) : option string :=
  if negb (truthy raw) then None
  else
    let s := strip (str raw) in
    if negb (Nat.eqb (String.length s) 8) || negb (isdigit s) then None
    else Some (substring 0 4 s ++ "-" ++ substring 4 2 s ++ "-" ++ substring 6 2 s)%string.

(** The body of the loop of [process_batch] over one document; the
    counter is [updated]. *)
Definition body (doc : dict) (updated : nat)
    : res (option (list (string * pyval)) * nat) :=
  let tags := match dict_lookup doc "tags" with Some t => t | None => PList [] end in
  let! raw_fecsoldes := extract_fecsoldes tags in
  let compromise_date := normalize_compromise_date raw_fecsoldes in
  match raw_fecsoldes with
  | PNone => Ok (None, updated)
  | _ =>
      match compromise_date with
      | None => Ok (None, updated)
      | Some cd =>
          Ok (Some [("compromise_date_raw", raw_fecsoldes); ("compromise_date", PStr cd)],
              S updated)
      end
  end.

(** [process_batch]: writes by [{"identifier": doc.get("identifier")}]. *)
Definition process_batch (docs : list dict) (col : collection) : collection * nat * option exc :=
  for_each_update "identifier" body docs col 0%nat.

(** The query of [run]. *)
Definition selected (threshold_iso : string) (d : dict) : bool :=
  negb (field_exists d "compromise_date") && field_gte d "sync_timestamp" (PStr threshold_iso).

(** [run]: the buffers of [BATCH_SIZE] documents go to [process_batch] in
    cursor order and their [updated] counts are added, which is one
    [process_batch] over all the selected documents. The projection keeps
    the fields the body reads. *)
Definition run (col : collection) (threshold_iso : string) : collection * nat * option exc :=
  process_batch (find col (selected threshold_iso)) col.

End BackfillCompromiseDate.

(* ------------------------------------------------------------------ *)
(** ** [backfill_tipo_orden_from_tags.py]: the Category Backfill script *)

Module BackfillTipoOrden.
Import Py Mongo.

(** The loop of [extract_tipo_orden]: [tag.get] only on dicts. *)
Fixpoint tipo_orden_scan (tags : list pyval) : res pyval :=
  match tags with
  | [] => Ok PNone
  | tag :: rest =>
      if is_dict tag then
        let! name := get tag "name" in
        if eq_str name "TIPO_ORDEN" then get tag "value" else tipo_orden_scan rest
      else tipo_orden_scan rest
  end.

(** [extract_tipo_orden] *)
Definition extract_tipo_orden (tags : pyval) : res pyval :=
  match tags with
  | PList l => tipo_orden_scan l
  | _ => Ok PNone
  end.

(** The query of [run]. *)
Definition selected (threshold_iso : string) (d : dict) : bool :=
  negb (field_exists d "tipo_orden") && field_gte d "sync_timestamp" (PStr threshold_iso).

(** The body of the loop of [run]; the counters are [(count, updated)]. *)
Definition body (doc : dict) (n : nat * nat) : res (option (list (string * pyval)) * (nat * nat)) :=
  let '(count, updated) := n in
  let tags := match dict_lookup doc "tags" with Some t => t | None => PList [] end in
  let! tipo_orden_value := extract_tipo_orden tags in
  match tipo_orden_value with
  | PNone => Ok (None, (S count, updated))
  | _ => Ok (Some [("tipo_orden", tipo_orden_value)], (S count, S updated))
  end.

(** [run]: writes by [{"_id": doc.get("_id")}]. *)
Definition run (col : collection) (threshold_iso : string)
    : collection * (nat * nat) * option exc :=
  for_each_update "_id" body (find col (selected threshold_iso)) col (0, 0)%nat.

End BackfillTipoOrden.

(* ------------------------------------------------------------------ *)
(** ** [orchestrator/jobs/backfill_tipo_orden_from_tags.py]: the Category
    Backfill of the pipeline *)

Module JobsBackfillTipoOrden.
Import Py Mongo.

(** The loop of [_get_tag_value_from_dispatch]: [t.get] only on dicts. *)
Fixpoint tag_scan (tag_name : string) (tags : list pyval) : res pyval :=
  match tags with
  | [] => Ok PNone
  | t :: rest =>
      if is_dict t then
        let! name := get t "name" in
        if eq_str name tag_name then get t "value" else tag_scan tag_name rest
      else tag_scan tag_name rest
  end.

(** [_get_tag_value_from_dispatch] *)
Definition _get_tag_value_from_dispatch (doc : dict) (tag_name : string) : res pyval :=
  let dispatch_raw := match dict_lookup doc "dispatch_raw" with Some v => v | None => PDict [] end in
  let! tags := get_or dispatch_raw "tags" (PList []) in
  match tags with
  | PList l => tag_scan tag_name l
  | _ => Ok PNone
  end.

(** The projection [{"dispatch_raw.tags": 1}]: the [_id], and
    [dispatch_raw] cut down to its [tags] when it is an embedded document
    or an array (whose non-document elements are dropped); any other
    [dispatch_raw] is left out. *)
Definition project_dispatch_raw_tags (doc : dict) : dict :=
  (match dict_lookup doc "_id" with Some i => [("_id", i)] | None => [] end)
  ++ match dict_lookup doc "dispatch_raw" with
     | Some (PDict kvs) => [("dispatch_raw", PDict (project ["tags"] kvs))]
     | Some (PList l) =>
         [("dispatch_raw",
           PList (flat_map (fun v => match v with
                                     | PDict kvs => [PDict (project ["tags"] kvs)]
                                     | _ => []
                                     end) l))]
     | _ => []
     end.

(** The query of [run]. *)
Definition selected (d : dict) : bool :=
  negb (field_exists d "tipo_orden") || field_eq d "tipo_orden" PNone
  || field_eq d "tipo_orden" (PStr "").

(** The body of the loop of [run] on the projected document; the counters
    are [(total, updated, missing)]. *)
Definition body (doc : dict) (n : nat * nat * nat)
    : res (option (list (string * pyval)) * (nat * nat * nat)) :=
  let '(total, updated, missing) := n in
  let! tipo_orden_value := _get_tag_value_from_dispatch doc "TIPO_ORDEN" in
  if negb (truthy tipo_orden_value) then Ok (None, (S total, updated, S missing))
  else Ok (Some [("tipo_orden", tipo_orden_value)], (S total, S updated, missing)).

(** [run]: the cursor yields projected documents; the write
    [{"_id": doc["_id"]}] addresses the same [_id] as the stored one. *)
Definition run (col : collection) : collection * (nat * nat * nat) * option exc :=
  for_each_update "_id" (fun doc => body (project_dispatch_raw_tags doc))
    (find col selected) col (0, 0, 0)%nat.

End JobsBackfillTipoOrden.

(* ------------------------------------------------------------------ *)
(** ** [trash/run_actualization.py]: the Actualization Controller *)

Module RunActualization.
Import Py Mongo.

(** [_extract_date_str]; [datetime] is tested before [date], of which it
    is a subclass in Python. *)
Definition _extract_date_str (value : pyval) : option string :=
  match value with
  | PNone => None
  | PDatetime ms => Some (date_isoformat (ms / 86400000))
  | PDate d => Some (date_isoformat d)
  | _ =>
      let s := str value in
      if (10 <=? String.length s)%nat then Some (substring 0 10 s) else None
  end.

(** [int(page)]: ints, bools and finite floats convert; NaN raises
    [ValueError] and the infinities [OverflowError]; a text converts when
    it is, after [strip()], an optional sign and decimal digits (digit
    group underscores are not modelled), and raises [ValueError]
    otherwise; any other value raises [TypeError]. *)
Definition py_int (v : pyval) : res Z :=
  match v with
  | PInt z => Ok z
  | PBool b => Ok (if b then 1 else 0)
  | PFloat (FFin t _) => Ok t
  | PFloat FNaN => Err ValueError
  | PFloat _ => Err OverflowError
  | PStr s =>
      let t := strip s in
      match t with
      | String a r =>
          if Ascii.eqb a "+"%char then (if isdigit r then Ok (digits_value r) else Err ValueError)
          else if Ascii.eqb a "-"%char then (if isdigit r then Ok (- digits_value r) else Err ValueError)
          else if isdigit t then Ok (digits_value t) else Err ValueError
      | EmptyString => Err ValueError
      end
  | _ => Err TypeError
  end.

(** The per-date entry [{"pages": set_of_int, "has_missing_page": bool}]. *)
Record info := { pages : gset Z; has_missing_page : bool }.

Definition info0 : info := {| pages := ∅; has_missing_page := false |}.

(** The mapping built by [_get_dates_and_pages_for_open_routes]; its
    iteration order is not modelled, every use of it sorts the dates. *)
Abbreviation date_map := (gmap string info).

(** [d = _extract_date_str(doc.get("date"))], and [if not d: continue]. *)
Definition open_route_date (doc : dict) : option string :=
  match _extract_date_str (dict_get doc "date") with
  | None => None
  | Some d => if String.eqb d "" then None else Some d
  end.

(** The body of the loop over the open routes. *)
Definition track (result : date_map) (doc : dict) : res date_map :=
  match open_route_date doc with
  | None => Ok result
  | Some d =>
      let info := match result !! d with Some i => i | None => info0 end in
      let result := <[d := info]> result in
      let page := dict_get doc "page" in
      match page with
      | PNone => Ok (<[d := {| pages := pages info; has_missing_page := true |}]> result)
      | _ =>
          match py_int page with
          | Ok p => Ok (<[d := {| pages := {[p]} ∪ pages info;
                                  has_missing_page := has_missing_page info |}]> result)
          | Err TypeError | Err ValueError =>
              Ok (<[d := {| pages := pages info; has_missing_page := true |}]> result)
          | Err e => Err e
          end
      end
  end.

Fixpoint track_all (docs : list dict) (result : date_map) : res date_map :=
  match docs with
  | [] => Ok result
  | doc :: rest => let! result := track result doc in track_all rest result
  end.

(** [{"is_closed": {"$ne": True}}] *)
Definition is_open (doc : dict) : bool := field_ne doc "is_closed" (PBool true).

(** [_get_dates_and_pages_for_open_routes]: the projection keeps [date]
    and [page], the only fields read. *)
Definition _get_dates_and_pages_for_open_routes (routes : collection) : res date_map :=
  track_all (find routes is_open) ∅.

(** A job launch [python -m module [--date d] [extra args]]. *)
Record cmd := { cmd_module : string; cmd_date : option string; cmd_args : list string }.

(** [_run_job]: the launch is appended to the trace; a non-zero exit code
    raises [SystemExit] with a message, whose exit status is 1. *)
Definition _run_job (exit_code : cmd -> Z) (c : cmd) (trace : list cmd) : res (list cmd) :=
  if Z.eqb (exit_code c) 0 then Ok (trace ++ [c]) else Err (SystemExit 1).

Fixpoint run_jobs (exit_code : cmd -> Z) (cs : list cmd) (trace : list cmd) : res (list cmd) :=
  match cs with
  | [] => Ok trace
  | c :: rest => let! trace := _run_job exit_code c trace in run_jobs exit_code rest trace
  end.

Definition job (m : string) (d : option string) (args : list string) : cmd :=
  {| cmd_module := m; cmd_date := d; cmd_args := args |}.

(** Step 3.1: a full scan, or one launch per page in ascending order. *)
Definition get_routes_jobs (d : string) (i : info) : list cmd :=
  if has_missing_page i || bool_decide (pages i = ∅) then
    [job "orchestrator.jobs.get_routes" (Some d) []]
  else map (fun p => job "orchestrator.jobs.get_routes" (Some d) ["--page"; string_of_Z p])
         (merge_sort Z.le (elements (pages i))).

(** The dates Python's [date] represents, [date(1, 1, 1)] to
    [date(9999, 12, 31)], as day counts, and the instants of [datetime],
    from [datetime.min] to [datetime.max], in milliseconds. *)
Definition date_min : Z := -719162.
Definition date_max : Z := 2932896.
Definition datetime_min_ms : Z := -62135596800000.
Definition datetime_max_ms : Z := 253402300799999.

(** [timedelta(days=n)] holds at most 999999999 days either way and
    raises [OverflowError] beyond; [timedelta(hours=h)] has [h // 24]
    days. *)
Definition timedelta_days_ok (days : Z) : bool := Z.abs days <=? 999999999.

(** [date.today() - timedelta(days=delta_day)]: [OverflowError] when the
    timedelta cannot be built or the result is not a date. *)
Definition logical_today (today_days delta_day : Z) : res Z :=
  if negb (timedelta_days_ok delta_day) then Err OverflowError
  else
    let d := today_days - delta_day in
    if (date_min <=? d) && (d <=? date_max) then Ok d else Err OverflowError.

(** [now_utc - timedelta(hours=h)]: [OverflowError] when the timedelta
    cannot be built or the result is not a datetime. *)
Definition threshold (now_ms h : Z) : res Z :=
  if negb (timedelta_days_ok (h / 24)) then Err OverflowError
  else
    let t := now_ms - h * 3600000 in
    if (datetime_min_ms <=? t) && (t <=? datetime_max_ms) then Ok t else Err OverflowError.

(** The staleness bound of step 3.3: computed only when
    [delta_time_update > 0]. *)
Definition step33_threshold (delta_time_update now_ms : Z) : res (option Z) :=
  if 0 <? delta_time_update then
    let! t := threshold now_ms delta_time_update in Ok (Some t)
  else Ok None.

(** The criteria of step 3.3, with the staleness bound if any. *)
Definition criteria (d : string) (thr : option Z) (doc : dict) : bool :=
  field_eq doc "date" (PStr d) && field_ne doc "is_closed" (PBool true)
  && (match thr with
      | Some t =>
          field_lte doc "last_processed_at" (PDatetime t)
          || negb (field_exists doc "last_processed_at")
      | None => true
      end).

(** [route_docs]; the projection [{"route_key": 1}] does not change
    [doc.get("route_key")]. *)
Definition route_docs (routes : collection) (d : string) (thr : option Z) : list dict :=
  List.filter (fun doc => truthy (dict_get doc "route_key"))
    (find routes (criteria d thr)).

Definition route_keys (routes : collection) (d : string) (thr : option Z) : list pyval :=
  map (fun doc => dict_get doc "route_key") (route_docs routes d thr).

(** The per-route pipeline, steps 2 to 7. *)
Definition route_jobs (route_key : pyval) : list cmd :=
  map (fun m => job m None ["--route-key"; str route_key])
    ["orchestrator.jobs.get_dispatches"; "orchestrator.jobs.backfill_tipo_orden_from_tags";
     "orchestrator.jobs.backfill_compromise_date_from_tags"; "orchestrator.jobs.get_ct";
     "orchestrator.jobs.get_substatus"; "orchestrator.jobs.close_route_if_all_dispatches_closed"].

Fixpoint process_routes (exit_code : cmd -> Z) (routes : collection) (rks : list pyval)
    (now_ms : Z) (trace : list cmd) : res (collection * list cmd) :=
  match rks with
  | [] => Ok (routes, trace)
  | rk :: rest =>
      let! trace := run_jobs exit_code (route_jobs rk) trace in
      let routes := update_one routes (fun x => field_eq x "route_key" rk)
                      [("last_processed_at", PDatetime now_ms)] in
      process_routes exit_code routes rest now_ms trace
  end.

Fixpoint process_dates (exit_code : cmd -> Z) (dpi : date_map) (dates : list string)
    (routes : collection) (delta_time_update now_ms : Z) (trace : list cmd)
    : res (collection * list cmd) :=
  match dates with
  | [] => Ok (routes, trace)
  | d :: rest =>
      let i := match dpi !! d with Some i => i | None => info0 end in
      let! trace := run_jobs exit_code
                      (get_routes_jobs d i ++ [job "orchestrator.jobs.get_details_from_route" (Some d) []])
                      trace in
      let! thr := step33_threshold delta_time_update now_ms in
      let rks := route_keys routes d thr in
      let! rt := process_routes exit_code routes rks now_ms trace in
      process_dates exit_code dpi rest (fst rt) delta_time_update now_ms (snd rt)
  end.

(** Steps 1 and 2 of [run]: the open dates up to [logical_today_str],
    and [logical_today_str] itself. *)
Definition filter_dates (dpi : date_map) (logical_today_str : string) : date_map :=
  let filtered := filter (fun kv => String.leb kv.1 logical_today_str = true) dpi in
  match filtered !! logical_today_str with
  | Some _ => filtered
  | None => <[logical_today_str := {| pages := ∅; has_missing_page := true |}]> filtered
  end.

(** Python's order on texts. *)
Definition str_le (a b : string) : Prop := String.leb a b = true.

#[global] Instance str_le_dec : forall a b, Decision (str_le a b).
Proof. intros a b. unfold str_le. apply _. Defined.

(** [sorted(dates_to_process)] *)
Definition sorted_dates (dpi : date_map) : list string :=
  merge_sort str_le (elements (dom dpi)).

(** [run(delta_time_update, delta_day)] with [date.today()] as
    [today_days] and [now_utc] as [now_ms]; the launched jobs act on the
    collections through [exit_code] only, their writes are not modelled;
    [_save_meta] writes the meta collection, which is not modelled. *)
Definition run (exit_code : cmd -> Z) (routes : collection) (delta_time_update delta_day : Z)
    (today_days now_ms : Z) : res (collection * list cmd) :=
  let! lt := logical_today today_days delta_day in
  let logical_today_str := date_isoformat lt in
  let! dpi := _get_dates_and_pages_for_open_routes routes in
  let dpi := filter_dates dpi logical_today_str in
  process_dates exit_code dpi (sorted_dates dpi) routes delta_time_update now_ms [].

(** The dates of the [get_details_from_route] launches of a trace, in
    launch order: step 3.2 runs once for each processed date. *)
Definition details_dates (trace : list cmd) : list string :=
  flat_map (fun c => if String.eqb (cmd_module c) "orchestrator.jobs.get_details_from_route"
                     then match cmd_date c with Some d => [d] | None => [] end
                     else []) trace.

End RunActualization.

(* ------------------------------------------------------------------ *)
(** ** [src/fetch_dispatches.py] *)

Module FetchDispatches.
Import Py.

(** What [requests.get] yields for one page: an HTTP status and, for a
    200, the list [data.get('response', [])]. A raised [requests]
    exception is an [Err]. *)
Record response := { status_code : Z; response_dispatches : list dict }.

(** [fetch_dispatches_by_dates]: [api page] is the request of page
    [page]; [saved] lists the dispatches given to
    [save_dispatch_to_mongo], in order. The [while True] loop is run on
    [fuel] iterations; [None] means it has not ended within them. *)
Fixpoint fetch_dispatches_by_dates (api : Z -> res response) (fuel : nat)
    (page : Z) (saved : list dict) : option (res (list dict)) :=
  match fuel with
  | O => None
  | S fuel' =>
      match api page with
      | Err e => Some (Err e)
      | Ok r =>
          if status_code r =? 200 then
            match response_dispatches r with
            | [] => Some (Ok saved)
            | ds => fetch_dispatches_by_dates api fuel' (page + 1) (app saved ds)
            end
          else Some (Ok saved)
      end
  end.

(** The exit status of [python fetch_dispatches.py]: 0 when its
    [__main__] block returns, 1 on an uncaught exception. *)
Definition script_exit {A} (r : res A) : Z :=
  match r with Ok _ => 0 | Err _ => 1 end.

Definition main (api : Z -> res response) (fuel : nat) : option Z :=
  option_map script_exit (fetch_dispatches_by_dates api fuel 1 []).

Import Mongo.

(** The fields [save_dispatch_to_mongo] copies from the dispatch. *)
Definition dispatch_fields : list string :=
  ["dispatch_id"; "identifier"; "status"; "contact_name"; "contact_address";
   "contact_phone"; "contact_email"; "latitude"; "longitude"; "route_id"; "substatus";
   "substatus_code"; "tags"; "is_trunk"; "is_pickup"; "delivered_in_client"; "arrived_at";
   "estimated_at"; "min_delivery_time"; "max_delivery_time"; "beecode"; "locked"; "end_type";
   "number_of_retries"; "min_age_required"; "address_reference"; "pickup_address_reference";
   "to_be_payed"; "external_pincode"; "items"; "last_refreshed_at"]%string.

(** [dispatch_doc]; [sync_iso] is [sync_time.isoformat()]. *)
Definition dispatch_doc (dispatch : dict) (sync_iso : string) : list (string * pyval) :=
  map (fun k => (k, dict_get dispatch k)) dispatch_fields ++ [("sync_timestamp"%string, PStr sync_iso)].

(** [save_dispatch_to_mongo]: an upsert by [identifier]; [new_id] is the
    [_id] MongoDB gives the document it inserts when none matches. *)
Definition save_dispatch_to_mongo (col : collection) (dispatch : dict) (sync_iso : string)
    (new_id : pyval) : collection :=
  let dispatch_id := dict_get dispatch "identifier" in
  upsert_one col (fun x => field_eq x "identifier" dispatch_id)
    [("_id"%string, new_id); ("identifier"%string, dispatch_id)]
    (dispatch_doc dispatch sync_iso).

End FetchDispatches.

(* ------------------------------------------------------------------ *)
(** ** [src/run_jobs.py] *)

Module RunJobs.
Import Py.

(** [run_command]: [subprocess.run(..., check=True)] raises
    [CalledProcessError] on a nonzero exit status, and [run_command]
    re-raises it. [trace] lists the commands started. *)
Definition run_command (exit_code : string -> Z) (command : string)
    (trace : list string) : res (list string) :=
  let code := exit_code command in
  if code =? 0 then Ok (app trace [command]) else Err (CalledProcessError code).

Definition commands : list string :=
  ["python fetch_dispatches.py"; "python -m backfill_compromise_date_from_tags";
   "python -m backfill_tipo_orden_from_tags"; "python -m backfill_ct";
   "python -m backfill_substatus"]%string.

Fixpoint run_all (exit_code : string -> Z) (cs : list string) (trace : list string)
    : res (list string) :=
  match cs with
  | [] => Ok trace
  | c :: cs' => let! trace' := run_command exit_code c trace in run_all exit_code cs' trace'
  end.

Definition main (exit_code : string -> Z) : res (list string) :=
  run_all exit_code commands [].

End RunJobs.

(* ------------------------------------------------------------------ *)
(** ** [orchestrator/jobs/dispatchtrack_client.py]: the API client *)

Module DispatchtrackClient.
Import Py.

(** What [requests.get] returns: the status and the body, [None] when it
    is not JSON. A raised [requests] exception is an [Err]. *)
Record http_response := { http_status : Z; http_json : option pyval }.

(** [resp.ok]: [raise_for_status] raises for the statuses 400 to 599 only. *)
Definition resp_ok (r : http_response) : bool :=
  negb ((400 <=? http_status r) && (http_status r <? 600)).

(** [_auth_headers]: the token [DISPATCHTRACK_TOKEN], if set. *)
Definition _auth_headers (token : option string) : res unit :=
  match token with
  | Some t => if String.eqb t "" then Err DispatchTrackAPIError else Ok tt
  | None => Err DispatchTrackAPIError
  end.

(** [_get]: [http path params] is the request of the URL
    [DISPATCHTRACK_API_BASE_URL + path]. *)
Definition _get (token : option string)
    (http : string -> list (string * pyval) -> res http_response)
    (path : string) (params : list (string * pyval)) : res pyval :=
  let! _ := _auth_headers token in
  let! resp := http path params in
  if resp_ok resp then
    match http_json resp with
    | Some v => Ok v
    | None => Err DispatchTrackAPIError
    end
  else Err DispatchTrackAPIError.

(** [fetch_route_details]: [GET /routes/<route_number>], no params. *)
Definition fetch_route_details (token : option string)
    (http : string -> list (string * pyval) -> res http_response)
    (route_number : pyval) : res pyval :=
  _get token http ("/routes/" ++ str route_number)%string [].

End DispatchtrackClient.

(* ------------------------------------------------------------------ *)
(** ** [orchestrator/jobs/get_details_from_route.py] *)

Module GetDetailsFromRoute.
Import Py Mongo DispatchtrackClient.

(** The unwrapping of the payload: [raw["response"]], then
    [raw["route"]], each when present in a dict. *)
Definition unwrap_payload (raw : pyval) : pyval :=
  let raw := match raw with
             | PDict kvs => match dict_lookup kvs "response" with Some v => v | None => raw end
             | _ => raw
             end in
  match raw with
  | PDict kvs => match dict_lookup kvs "route" with Some v => v | None => raw end
  | _ => raw
  end.

(** The query of [run]. *)
Definition selected (date_str : string) (doc : dict) : bool :=
  field_eq doc "date" (PStr date_str) && field_eq doc "has_full_details" (PBool false).

(** The fields written on a route whose details were fetched; [clock doc]
    is [datetime.utcnow()] at its update. *)
Definition detail_fields (raw : pyval) (ms : Z) : list (string * pyval) :=
  [("full_raw", unwrap_payload raw); ("has_full_details", PBool true);
   ("last_refreshed_at", PDatetime ms)].

(** The body of the loop over one route; the counter is [total]. A
    [DispatchTrackAPIError] is caught and the route skipped. *)
Definition body (token : option string)
    (http : string -> list (string * pyval) -> res http_response) (clock : dict -> Z)
    (route_doc : dict) (total : nat) : res (option (list (string * pyval)) * nat) :=
  let route_key := dict_get route_doc "route_key" in
  if negb (truthy route_key) then Ok (None, total)
  else
    match fetch_route_details token http route_key with
    | Ok raw => Ok (Some (detail_fields raw (clock route_doc)), S total)
    | Err DispatchTrackAPIError => Ok (None, total)
    | Err e => Err e
    end.

(** [run(date_str)]: writes by [{"_id": route_doc["_id"]}]. *)
Definition run (token : option string)
    (http : string -> list (string * pyval) -> res http_response) (clock : dict -> Z)
    (date_str : string) (routes : collection) : collection * nat * option exc :=
  for_each_update "_id" (body token http clock) (find routes (selected date_str)) routes 0%nat.

End GetDetailsFromRoute.

(* ------------------------------------------------------------------ *)
(** ** [orchestrator/run_daily_pipeline.py] *)

Module RunDailyPipeline.
Import Py RunActualization.

Definition JOBS_WITH_DATE : list string :=
  ["orchestrator.jobs.get_routes"; "orchestrator.jobs.get_details_from_route";
   "orchestrator.jobs.get_dispatches"]%string.

Definition JOBS_NO_DATE : list string :=
  ["orchestrator.jobs.backfill_tipo_orden_from_tags";
   "orchestrator.jobs.backfill_promise_date_from_tags";
   "orchestrator.jobs.get_ct"; "orchestrator.jobs.get_substatus"]%string.

(** [run_job(module, date_str)]: [python -m module [--date d]]; a non-zero
    exit code raises [SystemExit] with a message (exit status 1). *)
Definition run_job (exit_code : cmd -> Z) (module : string) (date_str : option string)
    (trace : list cmd) : res (list cmd) :=
  _run_job exit_code (job module date_str []) trace.

Fixpoint run_modules (exit_code : cmd -> Z) (modules : list string) (date_str : option string)
    (trace : list cmd) : res (list cmd) :=
  match modules with
  | [] => Ok trace
  | m :: rest => let! trace := run_job exit_code m date_str trace in
                 run_modules exit_code rest date_str trace
  end.

(** [main()] after [validate_date]: [date_str] is the validated [--date]. *)
Definition main (exit_code : cmd -> Z) (date_str : string) : res (list cmd) :=
  let! trace := run_modules exit_code JOBS_WITH_DATE (Some date_str) [] in
  run_modules exit_code JOBS_NO_DATE None trace.

End RunDailyPipeline.

(* ================================================================== *)
(** * Proofs *)

(** ** Dicts and keyed updates *)

Module UpdateFacts.
Import Py Mongo.


Lemma dict_lookup_set_eq (d : dict) k v : dict_lookup (dict_set d k v) k = Some v.
Proof.
  induction d as [|[k' v'] r IH]; simpl.
  - now rewrite String.eqb_refl.
  - destruct (String.eqb k k') eqn:E; simpl.
    + now rewrite E.
    + now rewrite E.
Qed.

Lemma dict_lookup_set_ne (d : dict) k k' v :
  k <> k' -> dict_lookup (dict_set d k v) k' = dict_lookup d k'.
Proof.
  intros Hne. induction d as [|[k0 v0] r IH]; simpl.
  - destruct (String.eqb k' k) eqn:E; [apply String.eqb_eq in E; congruence | done].
  - destruct (String.eqb k k0) eqn:E; simpl.
    + apply String.eqb_eq in E; subst k0.
      destruct (String.eqb k' k) eqn:E'; [apply String.eqb_eq in E'; congruence | done].
    + now rewrite IH.
Qed.

Lemma dict_set_same (d : dict) k v : dict_lookup d k = Some v -> dict_set d k v = d.
Proof.
  induction d as [|[k' v'] d IH]; cbn [dict_lookup dict_set]; [discriminate|].
  destruct (String.eqb k k') eqn:E; [intros [= ->]; apply String.eqb_eq in E; now subst|].
  intros H. now rewrite IH.
Qed.

Lemma set_fields_lookup_notin (d : dict) s k :
  ~ In k (map fst s) -> dict_lookup (set_fields d s) k = dict_lookup d k.
Proof.
  revert d. induction s as [|[k1 v1] s IH]; intros d Hn; simpl in *; [done|].
  unfold set_fields in *; simpl. rewrite IH by tauto.
  apply dict_lookup_set_ne. intros ->. tauto.
Qed.

Section Keyed.
(** The field the writes address documents by. *)
Context {k : string}.

Lemma by_key_val (x : dict) a b :
  key_of k x = Some a -> field_eq x k (key_val b) = bool_decide (a = b).
Proof.
  unfold key_of, field_eq.
  destruct (dict_lookup x k) as [[]|]; intros H; try discriminate;
    injection H as <-; destruct b; simpl; rewrite ?orb_false_r;
    try (case_bool_decide as E; try reflexivity; try discriminate).
  all: try (injection E as ->; first [apply Z.eqb_refl | apply String.eqb_refl]).
  all: try reflexivity; first [apply Z.eqb_neq | apply String.eqb_neq]; congruence.
Qed.

Lemma get_id (d : dict) a : key_of k d = Some a -> dict_get d k = key_val a.
Proof.
  unfold key_of, dict_get. destruct (dict_lookup d k) as [[]|]; intros H; try discriminate;
    injection H as <-; reflexivity.
Qed.

Lemma id_of_set_fields (d : dict) s :
  ~ In k (map fst s) -> key_of k (set_fields d s) = key_of k d.
Proof. intros H. unfold key_of. now rewrite set_fields_lookup_notin. Qed.

Lemma map_skip (c : collection) (g : dict -> dict) i :
  (forall x, In x c -> key_of k x <> i) ->
  map (fun x => if decide (key_of k x = i) then g x else x) c = c.
Proof.
  induction c as [|x c IH]; intros H; simpl; [done|].
  rewrite decide_False by (apply H; now left). f_equal. apply IH. intros y Hy. apply H. now right.
Qed.

Lemma update_one_unique (c : collection) a s :
  ids_ok k c ->
  update_one c (fun x => field_eq x k (key_val a)) s
  = map (fun x => if decide (key_of k x = Some a) then set_fields x s else x) c.
Proof.
  intros [Hs Hn]. induction c as [|x c IH]; simpl; [done|].
  inversion Hs as [|? ? [m Hm] Hs']; subst. inversion Hn as [|? ? Hnin Hn']; subst.
  rewrite (by_key_val x m a Hm).
  case_bool_decide as E.
  - subst m. rewrite decide_True by done. f_equal.
    symmetry. apply map_skip. intros y Hy Heq. apply Hnin. rewrite Hm, <- Heq.
    apply list_elem_of_In. now apply in_map.
  - rewrite decide_False by (rewrite Hm; congruence).
    f_equal. apply IH; auto.
Qed.

Lemma ids_ok_map (c : collection) (f : dict -> dict) :
  (forall x, In x c -> key_of k (f x) = key_of k x) -> ids_ok k c -> ids_ok k (map f c).
Proof.
  intros Hf [Hs Hn]. split.
  - rewrite Forall_forall in Hs |- *. intros y Hy. apply list_elem_of_In, in_map_iff in Hy as [x [<- Hx]].
    rewrite Hf by done. apply Hs. now apply list_elem_of_In.
  - rewrite map_map. erewrite map_ext_in; [exact Hn|]. intros x Hx. simpl. now apply Hf.
Qed.

Lemma apply_writes_spec (w : list (dict * list (string * pyval))) (c : collection) :
  ids_ok k c -> writes_ok k w ->
  apply_writes k c w
  = map (fun x => match write_for k w (key_of k x) with Some s => set_fields x s | None => x end) c.
Proof.
  revert c. induction w as [|[d s] w IH]; intros c Hc [Hw Hnd]; simpl.
  - symmetry. rewrite <- (map_id c) at 2. apply map_ext. intros x. done.
  - inversion Hw as [|? ? [[n Hn] Hk] Hw']; subst. inversion Hnd as [|? ? Hnin Hnd']; subst.
    simpl in Hn, Hk, Hnin. rewrite (get_id d n Hn), update_one_unique by done.
    rewrite IH.
    + rewrite map_map. apply map_ext. intros x. simpl.
      destruct (decide (key_of k x = Some n)) as [Ex|Ex].
      * rewrite id_of_set_fields by done. rewrite Ex, Hn. rewrite decide_True by done.
        destruct (write_for k w (Some n)) eqn:Ew; [|done].
        exfalso. apply Hnin. apply list_elem_of_In. rewrite Hn. clear -Ew.
        induction w as [|[d' s'] w IHw]; simpl in *; [done|].
        destruct (decide (key_of k d' = Some n)); [now left | right; auto].
      * rewrite decide_False by (rewrite Hn; congruence). done.
    + apply ids_ok_map; [|done]. intros x _.
      destruct (decide (key_of k x = Some n)); [now apply id_of_set_fields | done].
    + split; done.
Qed.

Lemma nodup_map_eq {A B} (f : A -> B) (l : list A) a b :
  NoDup (map f l) -> In a l -> In b l -> f a = f b -> a = b.
Proof.
  induction l as [|x l IH]; simpl; [tauto|].
  intros Hn Ha Hb Hab. apply NoDup_cons in Hn as [Hx Hn].
  destruct Ha as [<-|Ha], Hb as [<-|Hb]; auto.
  - exfalso. apply Hx. apply list_elem_of_In. rewrite Hab. now apply in_map.
  - exfalso. apply Hx. apply list_elem_of_In. rewrite <- Hab. now apply in_map.
Qed.

Lemma ids_ok_in (c : collection) x : ids_ok k c -> In x c -> is_Some (key_of k x).
Proof.
  intros [Hs _] Hx. rewrite Forall_forall in Hs. apply Hs. now apply list_elem_of_In.
Qed.

Lemma writes_ok_wmap (h : dict -> option (list (string * pyval))) (sel : dict -> bool) (c : collection) :
  ids_ok k c ->
  (forall d s, h d = Some s -> ~ In k (map fst s)) ->
  writes_ok k (wmap h (List.filter sel c)).
Proof.
  intros [Hs Hn] Hh. induction c as [|x c IH]; simpl; [split; constructor|].
  inversion Hs as [|? ? Hx Hs']; subst. apply NoDup_cons in Hn as [Hxn Hn].
  destruct (IH Hs' Hn) as [IHs IHn].
  destruct (sel x); simpl; [|split; done].
  destruct (h x) as [s|] eqn:E; simpl; [|split; done].
  split.
  - constructor; [split; [done | eapply Hh; eauto] | done].
  - apply NoDup_cons. split; [|done]. intros Hin. apply Hxn.
    apply list_elem_of_In in Hin. apply in_map_iff in Hin as [[d s'] [Hd Hin]].
    simpl in Hd. apply in_flat_map in Hin as [y [Hy Hin]].
    apply filter_In in Hy as [Hy _].
    destruct (h y); [|done]. destruct Hin as [[= <- <-]|[]].
    apply list_elem_of_In. rewrite <- Hd. now apply in_map.
Qed.

Lemma write_for_wmap (h : dict -> option (list (string * pyval))) (sel : dict -> bool) (c : collection) x :
  ids_ok k c -> In x c ->
  write_for k (wmap h (List.filter sel c)) (key_of k x) = if sel x then h x else None.
Proof.
  intros Hc Hx.
  assert (Hsome : is_Some (key_of k x)) by (eapply ids_ok_in; eauto).
  destruct Hc as [Hs Hn]. induction c as [|y c IH]; [destruct Hx|].
  apply NoDup_cons in Hn as [Hyn Hn]. inversion Hs as [|? ? _ Hs']; subst.
  simpl. destruct Hx as [->|Hx].
  - destruct (sel x) eqn:E; simpl.
    + destruct (h x); simpl; [now rewrite decide_True|].
      assert (Hno : forall z, In z c -> key_of k z <> key_of k x).
      { intros z Hz Heq. apply Hyn. apply list_elem_of_In. rewrite <- Heq. now apply in_map. }
      clear -Hno. induction c as [|z c IHc]; simpl; [done|].
      assert (IH' : write_for k (wmap h (List.filter sel c)) (key_of k x) = None)
        by (apply IHc; intros; apply Hno; now right).
      destruct (sel z); simpl; [|done].
      destruct (h z); simpl; [|done].
      rewrite decide_False by (apply Hno; now left). done.
    + assert (Hno : forall z, In z c -> key_of k z <> key_of k x).
      { intros z Hz Heq. apply Hyn. apply list_elem_of_In. rewrite <- Heq. now apply in_map. }
      clear -Hno. induction c as [|z c IHc]; simpl; [done|].
      assert (IH' : write_for k (wmap h (List.filter sel c)) (key_of k x) = None)
        by (apply IHc; intros; apply Hno; now right).
      destruct (sel z); simpl; [|done].
      destruct (h z); simpl; [|done].
      rewrite decide_False by (apply Hno; now left). done.
  - assert (Hne : key_of k y <> key_of k x).
    { intros Heq. apply Hyn. apply list_elem_of_In. rewrite Heq. now apply in_map. }
    destruct (sel y); simpl; [|apply IH; auto].
    destruct (h y); simpl; [|apply IH; auto].
    rewrite decide_False by done. apply IH; auto.
Qed.

(** A pass writing [h d] on each selected dispatch [d]: afterwards each
    document is its old self with those fields set, and the [_id]s are
    unchanged. *)
Lemma pass_result (h : dict -> option (list (string * pyval))) (sel : dict -> bool) (c : collection) :
  ids_ok k c ->
  (forall d s, h d = Some s -> ~ In k (map fst s)) ->
  apply_writes k c (wmap h (List.filter sel c))
  = map (fun x => if sel x then match h x with Some s => set_fields x s | None => x end
                  else x) c.
Proof.
  intros Hc Hh. rewrite apply_writes_spec by (done || now apply writes_ok_wmap).
  apply map_ext_in. intros x Hx. rewrite write_for_wmap by done.
  destruct (sel x); [destruct (h x)|]; done.
Qed.

Lemma in_pass_result (f : dict -> dict) (c : collection) x :
  ids_ok k c -> (forall z, In z c -> key_of k (f z) = key_of k z) -> In x c ->
  In (f x) (map f c) /\ key_of k (f x) = key_of k x
  /\ (forall y, In y (map f c) -> key_of k y = key_of k x -> y = f x).
Proof.
  intros Hc Hf Hx. split; [now apply in_map|]. split; [auto|].
  intros y Hy Hid. apply in_map_iff in Hy as [z [<- Hz]]. f_equal.
  eapply nodup_map_eq; [apply Hc| exact Hz | exact Hx |]. rewrite <- Hf by done. auto.
Qed.

End Keyed.

Lemma find_one_some (c : collection) p r : find_one c p = Some r -> p r = true /\ In r c.
Proof.
  induction c as [|d c IH]; simpl; [done|].
  destruct (p d) eqn:E; [intros [= <-]; auto|]. intros H. destruct (IH H); auto.
Qed.

Lemma project_nonempty (keys : list string) (r : dict) k v :
  dict_lookup r k = Some v -> In k keys -> project keys r <> [].
Proof.
  intros Hl Hk. induction r as [|[k' v'] r IH]; simpl in *; [done|].
  destruct (existsb (String.eqb k') keys) eqn:E; [done|].
  destruct (String.eqb k k') eqn:Ek; [|auto].
  apply String.eqb_eq in Ek. subst k'. exfalso.
  assert (existsb (String.eqb k) keys = true) as Ht
    by (apply existsb_exists; exists k; split; [done | apply String.eqb_refl]).
  congruence.
Qed.

Lemma field_in_lookup (r : dict) k qs :
  field_in r k qs = true -> ~ In PNone qs -> exists v, dict_lookup r k = Some v.
Proof.
  unfold field_in, field_eq. intros H Hn. apply existsb_exists in H as [q [Hq H]].
  destruct (dict_lookup r k); [eauto|]. destruct q; try discriminate. contradiction.
Qed.

(** The ids of a small concrete collection are distinct ints. *)
Ltac solve_ids_ok :=
  split; [repeat apply Forall_cons_2; first [eexists; reflexivity | apply Forall_nil_2]
         | apply (bool_decide_unpack _); vm_compute; first [exact I | reflexivity]].

End UpdateFacts.

(** ** Loops that update documents by a key *)

Module LoopFacts.
Import Py Mongo UpdateFacts.

Lemma wmap_ext (h h' : dict -> option (list (string * pyval))) docs :
  (forall d, In d docs -> h d = h' d) -> wmap h docs = wmap h' docs.
Proof.
  induction docs as [|d docs IH]; intros H; simpl; [done|].
  rewrite (H d) by (now left). f_equal. apply IH. intros; apply H; now right.
Qed.

Section Loop.
Context {S : Type} (k : string).
Variable body : dict -> S -> res (option (list (string * pyval)) * S).
(** The decision of the body does not depend on the counters. *)
Hypothesis Hind : forall d n n', decision body n d = decision body n' d.

Lemma loop_prefix docs c n :
  exists P rest, docs = P ++ rest
  /\ fst (fst (for_each_update k body docs c n)) = apply_writes k c (wmap (written body n) P)
  /\ (forall d, In d P -> exists o, decision body n d = Ok o)
  /\ (snd (for_each_update k body docs c n) = None -> rest = []).
Proof.
  revert c n. induction docs as [|d docs IH]; intros c n.
  - exists [], []. simpl. split; [done|]. split; [done|]. split; [intros ? []|done].
  - simpl. destruct (body d n) as [[o n']|e] eqn:E.
    + assert (Hd : decision body n d = Ok o) by (unfold decision; now rewrite E).
      assert (Hw : forall z, written body n' z = written body n z)
        by (intros z; unfold written; now rewrite (Hind z n' n)).
      destruct o as [s|].
      * destruct (IH (update_one c (fun x => field_eq x k (dict_get d k)) s) n')
          as (P & rest & Hdocs & Hres & HP & Hrest).
        exists (d :: P), rest. split; [simpl; now rewrite Hdocs|].
        split; [|split].
        -- rewrite Hres. rewrite (wmap_ext _ (written body n)) by (intros; apply Hw).
           assert (Hwd : written body n d = Some s) by (unfold written; now rewrite Hd).
           unfold wmap at 2. cbn [flat_map]. rewrite Hwd. reflexivity.
        -- intros z [<-|Hz]; [eauto|]. destruct (HP z Hz) as [o Ho].
           exists o. now rewrite <- (Hind z n' n).
        -- exact Hrest.
      * destruct (IH c n') as (P & rest & Hdocs & Hres & HP & Hrest).
        exists (d :: P), rest. split; [simpl; now rewrite Hdocs|].
        split; [|split].
        -- rewrite Hres. rewrite (wmap_ext _ (written body n)) by (intros; apply Hw).
           assert (Hwd : written body n d = None) by (unfold written; now rewrite Hd).
           unfold wmap at 2. cbn [flat_map]. rewrite Hwd. reflexivity.
        -- intros z [<-|Hz]; [eauto|]. destruct (HP z Hz) as [o Ho].
           exists o. now rewrite <- (Hind z n' n).
        -- exact Hrest.
    + exists [], (d :: docs). simpl. repeat split; [intros ? []|discriminate].
Qed.

End Loop.

(** A pass writes only the selected documents of the collection. *)
Lemma write_for_none k (h : dict -> option (list (string * pyval))) P x :
  (forall d, In d P -> key_of k d = key_of k x -> h d = None) ->
  write_for k (wmap h P) (key_of k x) = None.
Proof.
  induction P as [|d P IH]; intros H; simpl; [done|].
  destruct (h d) eqn:E; simpl.
  - rewrite decide_False; [apply IH; intros d0 Hd0 Heq; apply H; [now right | exact Heq]|].
    intros Heq. rewrite (H d (or_introl eq_refl) Heq) in E. discriminate.
  - apply IH. intros d0 Hd0 Heq; apply H; [now right | exact Heq].
Qed.

Lemma write_for_some k (h : dict -> option (list (string * pyval))) P i s :
  write_for k (wmap h P) i = Some s -> exists d, h d = Some s.
Proof.
  induction P as [|d P IH]; simpl; [done|].
  destruct (h d) eqn:E; simpl; [|auto].
  destruct (decide (key_of k d = i)); [intros [= <-]; eauto | auto].
Qed.

Lemma writes_ok_sub k (h : dict -> option (list (string * pyval))) (c : collection) P :
  ids_ok k c -> (forall d, In d P -> In d c) -> NoDup (map (key_of k) P) ->
  (forall d s, h d = Some s -> ~ In k (map fst s)) ->
  writes_ok k (wmap h P).
Proof.
  intros Hc Hsub Hn Hh. induction P as [|d P IH]; simpl; [split; constructor|].
  apply NoDup_cons in Hn as [Hdn Hn].
  destruct (IH (fun z Hz => Hsub z (or_intror Hz)) Hn) as [IHs IHn].
  destruct (h d) as [s|] eqn:E; simpl; [|split; done].
  split.
  - constructor; [|done]. split; [eapply ids_ok_in; eauto; apply Hsub; now left|].
    eapply Hh; eauto.
  - apply NoDup_cons. split; [|done]. intros Hin. apply Hdn.
    apply list_elem_of_In in Hin. apply in_map_iff in Hin as [[d' s'] [Hd Hin]].
    simpl in Hd. apply in_flat_map in Hin as [y [Hy Hin]].
    destruct (h y); [|done]. destruct Hin as [[= <- <-]|[]].
    apply list_elem_of_In. rewrite <- Hd. now apply in_map.
Qed.

Lemma nodup_map_filter {A B} (f : A -> B) (sel : A -> bool) (l : list A) :
  NoDup (map f l) -> NoDup (map f (List.filter sel l)).
Proof.
  induction l as [|a l IH]; simpl; [done|]. intros Hn. apply NoDup_cons in Hn as [Ha Hn].
  destruct (sel a); simpl; [|auto]. apply NoDup_cons. split; [|auto].
  intros Hin. apply Ha. apply list_elem_of_In in Hin. apply list_elem_of_In.
  apply in_map_iff in Hin as [y [<- Hy]]. apply filter_In in Hy as [Hy _].
  now apply in_map.
Qed.

Section Frame.
Context {S : Type} (k : string).
Variable body : dict -> S -> res (option (list (string * pyval)) * S).
Variable sel : dict -> bool.
Variable s0 : S.
Hypothesis Hind : forall d n n', decision body n d = decision body n' d.
Hypothesis Hkeys : forall d s, written body s0 d = Some s -> ~ In k (map fst s).

(** A document the loop over the selected documents does not write, when
    it is selected, leaves the loop as it was and alone with its key,
    whether the loop ends normally or by an exception. *)
Lemma loop_frame (c : collection) x :
  ids_ok k c -> In x c -> (sel x = true -> written body s0 x = None) ->
  let c' := fst (fst (for_each_update k body (List.filter sel c) c s0)) in
  In x c' /\ forall y, In y c' -> key_of k y = key_of k x -> y = x.
Proof.
  intros Hc Hx Hnx c'.
  destruct (loop_prefix k body Hind (List.filter sel c) c s0)
    as (P & rest & Hdocs & Hres & _ & _).
  assert (HP : forall d, In d P -> In d c /\ sel d = true).
  { intros d Hd. apply filter_In. rewrite Hdocs. apply in_or_app. now left. }
  assert (HnP : NoDup (map (key_of k) P)).
  { pose proof (nodup_map_filter (key_of k) sel c (proj2 Hc)) as Hn.
    rewrite Hdocs, map_app in Hn. apply NoDup_app in Hn as [Hn _]. exact Hn. }
  set (h := written body s0) in *.
  set (f := fun y => match write_for k (wmap h P) (key_of k y) with
                     | Some s => set_fields y s | None => y end).
  assert (Hc' : c' = map f c).
  { unfold c'. rewrite Hres. apply apply_writes_spec; [done|].
    apply (writes_ok_sub k h c P); auto. intros d Hd; apply HP, Hd. }
  assert (Hfx : f x = x).
  { unfold f. rewrite write_for_none; [done|]. intros d Hd Heq.
    destruct (HP d Hd) as [Hdc Hsel].
    assert (d = x) as -> by (eapply nodup_map_eq; [apply Hc | exact Hdc | exact Hx | exact Heq]).
    auto. }
  destruct (in_pass_result f c x Hc) as [Hin [_ Hu]].
  - intros z _. unfold f.
    destruct (write_for k (wmap h P) (key_of k z)) as [s|] eqn:E; [|done].
    apply id_of_set_fields. apply write_for_some in E as [d Hd]. eapply Hkeys; eauto.
  - done.
  - rewrite Hc'. rewrite Hfx in Hin, Hu. split; auto.
Qed.

(** A loop that ends normally has written each selected document once. *)
Lemma loop_complete (c : collection) :
  ids_ok k c -> snd (for_each_update k body (List.filter sel c) c s0) = None ->
  fst (fst (for_each_update k body (List.filter sel c) c s0))
  = map (fun x => if sel x then match written body s0 x with
                                | Some s => set_fields x s | None => x end
                  else x) c.
Proof.
  intros Hc Hnone.
  destruct (loop_prefix k body Hind (List.filter sel c) c s0)
    as (P & rest & Hdocs & Hres & _ & Hrest).
  rewrite Hrest in Hdocs by done. rewrite app_nil_r in Hdocs.
  rewrite Hres, <- Hdocs. apply pass_result; auto.
Qed.

End Frame.

Lemma loop_noop {S : Type} k (body : dict -> S -> res (option (list (string * pyval)) * S))
    (Q : S -> Prop) docs c n :
  Q n -> (forall d, In d docs -> forall m, Q m -> exists m', body d m = Ok (None, m') /\ Q m') ->
  exists m, for_each_update k body docs c n = (c, m, None) /\ Q m.
Proof.
  revert n. induction docs as [|d docs IH]; intros n Hn H; simpl; [eauto|].
  destruct (H d (or_introl eq_refl) n Hn) as [m' [E Hm']]. rewrite E.
  apply IH; [done|]. intros d0 Hd0 m Hm. apply H; [now right | exact Hm].
Qed.

Lemma loop_total {S : Type} k (body : dict -> S -> res (option (list (string * pyval)) * S))
    docs c n :
  (forall d, In d docs -> forall m, exists r, body d m = Ok r) ->
  snd (for_each_update k body docs c n) = None.
Proof.
  revert c n. induction docs as [|d docs IH]; intros c n H; simpl; [done|].
  destruct (H d (or_introl eq_refl) n) as [[[s|] n'] E]; rewrite E; apply IH;
    intros d0 Hd0; apply H; now right.
Qed.

End LoopFacts.

(** ** The CT Match jobs *)

Module CTFacts.
Import Py Mongo UpdateFacts LoopFacts.

Section Extractor.
Variable extract : dict -> res (option string).
Variable ct_col : collection.

Lemma ct_decision_indep d n n' :
  decision (BackfillCT.step_with extract ct_col) n d
  = decision (BackfillCT.step_with extract ct_col) n' d.
Proof.
  unfold decision, BackfillCT.step_with.
  destruct (extract d) as [[e|]|e]; cbn [bind]; try reflexivity.
  destruct (String.eqb e ""); try reflexivity.
  destruct (find_one _ _) as [m|]; try reflexivity.
  destruct (negb (truthy (PDict m))); try reflexivity.
  destruct (negb (truthy _)); reflexivity.
Qed.

Lemma ct_written_keys n d s :
  written (BackfillCT.step_with extract ct_col) n d = Some s -> ~ In "_id"%string (map fst s).
Proof.
  unfold written, decision, BackfillCT.step_with.
  destruct (extract d) as [[e|]|e]; cbn [bind]; try discriminate.
  destruct (String.eqb e ""); try discriminate.
  destruct (find_one _ _) as [m|]; try discriminate.
  destruct (negb (truthy (PDict m))); try discriminate.
  destruct (negb (truthy _)); [discriminate|]. intros [= <-]. simpl. intuition discriminate.
Qed.

Lemma ct_no_write n x :
  BackfillCT.is_no_code extract x = true \/ BackfillCT.is_not_found extract ct_col x = true ->
  written (BackfillCT.step_with extract ct_col) n x = None.
Proof.
  unfold BackfillCT.is_no_code, BackfillCT.is_not_found, written, decision, BackfillCT.step_with.
  destruct (extract x) as [[e|]|e]; cbn [bind]; try reflexivity.
  destruct (String.eqb e ""); try reflexivity. cbn [negb andb].
  destruct (find_one _ _) as [m|]; try reflexivity.
  destruct (truthy (PDict m)); cbn [negb]; try reflexivity.
  destruct (truthy (dict_get m "CT CORRESPONDE")); cbn [negb]; [intuition discriminate | reflexivity].
Qed.

Lemma found_nonempty e m :
  find_one ct_col (fun m => field_eq m "Id Externo" (PStr e)) = Some m -> truthy (PDict m) = true.
Proof. intros H. apply find_one_some in H as [H _]. destruct m; [discriminate | reflexivity]. Qed.

Lemma ct_step_counts d n o m :
  BackfillCT.step_with extract ct_col d n = Ok (o, m) ->
  BackfillCT.no_codcomu m
  = (BackfillCT.no_codcomu n + if BackfillCT.is_no_code extract d then 1 else 0)%nat
  /\ BackfillCT.not_found m
  = (BackfillCT.not_found n + if BackfillCT.is_not_found extract ct_col d then 1 else 0)%nat.
Proof.
  unfold BackfillCT.is_no_code, BackfillCT.is_not_found, BackfillCT.step_with.
  destruct (extract d) as [[e|]|e]; cbn [bind]; [| |discriminate].
  - destruct (String.eqb e "") eqn:Ee; cbn [negb andb].
    + intros [= <- <-]. cbn. lia.
    + destruct (find_one _ _) as [r|] eqn:Ef.
      * rewrite (found_nonempty e r Ef). cbn [negb].
        destruct (truthy (dict_get r "CT CORRESPONDE")); cbn [negb]; intros [= <- <-]; cbn; lia.
      * intros [= <- <-]. cbn. lia.
  - intros [= <- <-]. cbn. lia.
Qed.

Lemma ct_tally docs c n c' n' :
  for_each_update "_id" (BackfillCT.step_with extract ct_col) docs c n = (c', n', None) ->
  BackfillCT.no_codcomu n'
  = (BackfillCT.no_codcomu n + length (List.filter (BackfillCT.is_no_code extract) docs))%nat
  /\ BackfillCT.not_found n'
  = (BackfillCT.not_found n
     + length (List.filter (BackfillCT.is_not_found extract ct_col) docs))%nat.
Proof.
  revert c n. induction docs as [|d docs IH]; intros c n; simpl.
  - intros [= -> ->]. lia.
  - destruct (BackfillCT.step_with extract ct_col d n) as [[o m]|e] eqn:E; [|discriminate].
    destruct (ct_step_counts d n o m E) as [H1 H2].
    intros Hr. destruct o as [s|]; apply IH in Hr as [R1 R2];
      rewrite R1, R2, H1, H2;
      destruct (BackfillCT.is_no_code extract d), (BackfillCT.is_not_found extract ct_col d);
      simpl; lia.
Qed.

(** Both CT jobs: the frame and the tallies, for a selection [sel]. *)
Lemma ct_frame (sel : dict -> bool) (c : collection) x :
  ids_ok "_id" c -> In x c ->
  BackfillCT.is_no_code extract x = true \/ BackfillCT.is_not_found extract ct_col x = true ->
  let c' := fst (fst (for_each_update "_id" (BackfillCT.step_with extract ct_col)
                        (List.filter sel c) c BackfillCT.counts0)) in
  In x c' /\ forall y, In y c' -> key_of "_id" y = key_of "_id" x -> y = x.
Proof.
  intros Hc Hx Hk. apply loop_frame; auto.
  - apply ct_decision_indep.
  - apply ct_written_keys.
  - intros _. now apply ct_no_write.
Qed.

End Extractor.

End CTFacts.

(** ** The tag backfills *)

Module TagFacts.
Import Py Mongo UpdateFacts LoopFacts.

Lemma ascii_compare_lt_trans a b c :
  Ascii.compare a b = Lt -> Ascii.compare b c = Lt -> Ascii.compare a c = Lt.
Proof. unfold Ascii.compare. rewrite !N.compare_lt_iff. lia. Qed.

Lemma string_compare_le_trans s1 s2 s3 :
  String.compare s1 s2 <> Gt -> String.compare s2 s3 <> Gt -> String.compare s1 s3 <> Gt.
Proof.
  revert s2 s3. induction s1 as [|a s1 IH]; intros [|b s2] [|c s3]; simpl; try congruence.
  destruct (Ascii.compare a b) eqn:Eab; try congruence.
  - apply Ascii.compare_eq_iff in Eab. subst b.
    destruct (Ascii.compare a c); [apply IH | congruence | congruence].
  - intros _. destruct (Ascii.compare b c) eqn:Ebc; try congruence.
    + apply Ascii.compare_eq_iff in Ebc. subst c. rewrite Eab. congruence.
    + rewrite (ascii_compare_lt_trans a b c Eab Ebc). congruence.
Qed.

(** The [$gte] comparison of texts is transitive. *)
Lemma string_leb_trans s1 s2 s3 :
  String.leb s1 s2 = true -> String.leb s2 s3 = true -> String.leb s1 s3 = true.
Proof.
  unfold String.leb. intros H1 H2.
  destruct (String.compare s1 s3) eqn:E; [done | done |].
  exfalso. refine (string_compare_le_trans s1 s2 s3 _ _ E).
  - destruct (String.compare s1 s2); congruence.
  - destruct (String.compare s2 s3); congruence.
Qed.

(** A later sync threshold selects fewer documents. *)
Lemma field_gte_trans (d : dict) k t1 t2 :
  String.leb t1 t2 = true -> field_gte d k (PStr t2) = true -> field_gte d k (PStr t1) = true.
Proof.
  intros Ht. unfold field_gte, field_cmp.
  assert (Hv : forall v, bson_le (PStr t2) v = true -> bson_le (PStr t1) v = true).
  { intros [] H; try discriminate. simpl in *. eapply string_leb_trans; eauto. }
  destruct (dict_lookup d k) as [v|]; [|done].
  intros H. apply orb_true_iff in H as [H|H]; apply orb_true_iff; [left; auto|right].
  destruct v; try discriminate. apply existsb_exists in H as [e [He H]].
  apply existsb_exists. eauto.
Qed.

Lemma set_fields_lookup_in (d : dict) s k :
  In k (map fst s) -> exists v, dict_lookup (set_fields d s) k = Some v.
Proof.
  revert d. induction s as [|[k1 v1] s IH]; intros d Hk; simpl in Hk; [done|].
  change (set_fields d ((k1, v1) :: s)) with (set_fields (dict_set d k1 v1) s).
  destruct (in_dec string_dec k (map fst s)) as [Hin|Hnin]; [now apply IH|].
  destruct Hk as [<-|Hk]; [|done].
  exists v1. rewrite set_fields_lookup_notin by done. apply dict_lookup_set_eq.
Qed.

Lemma bson_eq_pnone v : bson_eq v PNone = true -> v = PNone.
Proof. destruct v as [| | |[]| | | | |]; simpl; congruence. Qed.

Lemma bson_eq_empty v : bson_eq v (PStr "") = true -> v = PStr "".
Proof.
  destruct v as [| | |[]| | | | |]; simpl; try congruence.
  intros H. apply String.eqb_eq in H. now subst.
Qed.

Lemma fecsoldes_total tags : exists v, BackfillCompromiseDate.extract_fecsoldes tags = Ok v.
Proof.
  destruct tags as [| | | | | | |l|]; try (eexists; reflexivity).
  induction l as [|t l [v IH]]; [eexists; reflexivity|]. simpl.
  destruct (is_dict t) eqn:Et; [|eauto].
  destruct t; try discriminate. cbn [get bind]. destruct (eq_str _ _); eauto.
Qed.

Lemma tipo_orden_total tags : exists v, BackfillTipoOrden.extract_tipo_orden tags = Ok v.
Proof.
  destruct tags as [| | | | | | |l|]; try (eexists; reflexivity).
  induction l as [|t l [v IH]]; [eexists; reflexivity|]. simpl.
  destruct (is_dict t) eqn:Et; [|eauto].
  destruct t; try discriminate. cbn [get bind]. destruct (eq_str _ _); eauto.
Qed.

Lemma tag_scan_total name tags : exists v, JobsBackfillTipoOrden.tag_scan name tags = Ok v.
Proof.
  induction tags as [|t l [v IH]]; [eexists; reflexivity|]. simpl.
  destruct (is_dict t) eqn:Et; [|eauto].
  destruct t; try discriminate. cbn [get bind]. destruct (eq_str _ _); eauto.
Qed.

Section Idem.
Context {S : Type} (k : string).
Variable body : dict -> S -> res (option (list (string * pyval)) * S).
Variables sel1 sel2 : dict -> bool.
Variable s0 : S.
Variable Q : S -> Prop.
Variable c : collection.
Hypothesis Hc : ids_ok k c.
Hypothesis Hind : forall d n n', decision body n d = decision body n' d.
Hypothesis Hkeys : forall d s, written body s0 d = Some s -> ~ In k (map fst s).
Hypothesis Htot : forall d, In d c -> forall m, exists r, body d m = Ok r.
Hypothesis Hafter : forall x s, In x c -> written body s0 x = Some s -> sel2 (set_fields x s) = false.
Hypothesis Hmono : forall x, In x c -> sel2 x = true -> sel1 x = true.
Hypothesis HQ : Q s0.
Hypothesis Hquiet : forall x m, In x c -> written body s0 x = None -> Q m ->
  exists m', body x m = Ok (None, m') /\ Q m'.

(** A second pass, over the documents its query selects from the result of
    the first, writes nothing and leaves the collection as it is. *)
Lemma loop_idem :
  snd (for_each_update k body (List.filter sel1 c) c s0) = None /\
  exists m, for_each_update k body
              (List.filter sel2 (fst (fst (for_each_update k body (List.filter sel1 c) c s0))))
              (fst (fst (for_each_update k body (List.filter sel1 c) c s0))) s0
            = (fst (fst (for_each_update k body (List.filter sel1 c) c s0)), m, None) /\ Q m.
Proof.
  assert (Hn : snd (for_each_update k body (List.filter sel1 c) c s0) = None).
  { apply loop_total. intros d Hd. apply filter_In in Hd as [Hd _]. now apply Htot. }
  split; [exact Hn|].
  rewrite (loop_complete k body sel1 s0 Hind Hkeys c Hc Hn).
  apply loop_noop; [exact HQ|].
  intros d Hd m Hm. apply filter_In in Hd as [Hd Hs].
  apply in_map_iff in Hd as [x [<- Hx]]. cbv beta in Hs |- *.
  destruct (sel1 x) eqn:E1; [destruct (written body s0 x) as [s|] eqn:W|].
  - rewrite (Hafter x s Hx W) in Hs. discriminate.
  - now apply Hquiet.
  - rewrite (Hmono x Hx Hs) in E1. discriminate.
Qed.

End Idem.

(** The three outcomes of the body of the Date Backfill. *)
Lemma date_body_cases x :
  (forall m, BackfillCompromiseDate.body x m = Ok (None, m)) \/
  exists raw cd, forall m, BackfillCompromiseDate.body x m
    = Ok (Some [("compromise_date_raw", raw); ("compromise_date", PStr cd)], S m).
Proof.
  unfold BackfillCompromiseDate.body.
  destruct (fecsoldes_total (match dict_lookup x "tags" with Some t => t | None => PList [] end))
    as [v E].
  rewrite E. cbn [bind].
  destruct v; try (left; reflexivity);
    destruct (BackfillCompromiseDate.normalize_compromise_date _);
    solve [left; reflexivity | right; do 2 eexists; reflexivity].
Qed.

Lemma tipo_body_cases x :
  (forall a b, BackfillTipoOrden.body x (a, b) = Ok (None, (S a, b))) \/
  exists v, forall a b, BackfillTipoOrden.body x (a, b) = Ok (Some [("tipo_orden", v)], (S a, S b)).
Proof.
  unfold BackfillTipoOrden.body.
  destruct (tipo_orden_total (match dict_lookup x "tags" with Some t => t | None => PList [] end))
    as [v E].
  rewrite E. cbn [bind].
  destruct v; solve [left; reflexivity | right; eexists; reflexivity].
Qed.

Lemma job_body_cases x :
  (exists e, forall n, JobsBackfillTipoOrden.body x n = Err e) \/
  (forall a b m, JobsBackfillTipoOrden.body x (a, b, m) = Ok (None, (S a, b, S m))) \/
  exists v, truthy v = true /\
    JobsBackfillTipoOrden._get_tag_value_from_dispatch x "TIPO_ORDEN" = Ok v /\
    forall a b m, JobsBackfillTipoOrden.body x (a, b, m) = Ok (Some [("tipo_orden", v)], (S a, S b, m)).
Proof.
  unfold JobsBackfillTipoOrden.body.
  destruct (JobsBackfillTipoOrden._get_tag_value_from_dispatch x "TIPO_ORDEN") as [v|e];
    cbn [bind].
  - right. destruct (truthy v) eqn:T; cbn [negb].
    + right. eauto.
    + left. reflexivity.
  - left. exists e. intros [[a b] m]. reflexivity.
Qed.

Lemma set_fields_exists (x : dict) s k : In k (map fst s) -> field_exists (set_fields x s) k = true.
Proof.
  intros H. destruct (set_fields_lookup_in x s k H) as [v E]. unfold field_exists. now rewrite E.
Qed.

Lemma field_eq_nonlist (d : dict) k v q :
  dict_lookup d k = Some v -> (forall l, v <> PList l) -> field_eq d k q = bson_eq v q.
Proof.
  unfold field_eq. intros -> H.
  destruct v; try (exfalso; eapply H; reflexivity); apply orb_false_r.
Qed.

Lemma tipo_ind d n n' : decision BackfillTipoOrden.body n d = decision BackfillTipoOrden.body n' d.
Proof.
  destruct n as [a b], n' as [a' b']. unfold decision.
  destruct (tipo_body_cases d) as [H|[v H]]; rewrite !H; reflexivity.
Qed.

Lemma tipo_keys n d s : written BackfillTipoOrden.body n d = Some s -> ~ In "_id"%string (map fst s).
Proof.
  destruct n as [a b]. unfold written, decision.
  destruct (tipo_body_cases d) as [H|[v H]]; rewrite H; [discriminate|].
  intros [= <-]. simpl. intuition discriminate.
Qed.

Lemma job_ind d n n' :
  decision (fun doc => JobsBackfillTipoOrden.body (JobsBackfillTipoOrden.project_dispatch_raw_tags doc)) n d
  = decision (fun doc => JobsBackfillTipoOrden.body (JobsBackfillTipoOrden.project_dispatch_raw_tags doc)) n' d.
Proof.
  destruct n as [[a b] m], n' as [[a' b'] m']. unfold decision.
  destruct (job_body_cases (JobsBackfillTipoOrden.project_dispatch_raw_tags d))
    as [[e H]|[H|[v [_ [_ H]]]]]; rewrite !H; reflexivity.
Qed.

Lemma job_keys n d s :
  written (fun doc => JobsBackfillTipoOrden.body (JobsBackfillTipoOrden.project_dispatch_raw_tags doc)) n d
  = Some s -> ~ In "_id"%string (map fst s).
Proof.
  destruct n as [[a b] m]. unfold written, decision.
  destruct (job_body_cases (JobsBackfillTipoOrden.project_dispatch_raw_tags d))
    as [[e H]|[H|[v [_ [_ H]]]]]; rewrite H; try discriminate.
  intros [= <-]. simpl. intuition discriminate.
Qed.

Lemma date_idem c thr1 thr2 :
  ids_ok "identifier" c -> String.leb thr1 thr2 = true ->
  snd (BackfillCompromiseDate.run c thr1) = None /\
  BackfillCompromiseDate.run (fst (fst (BackfillCompromiseDate.run c thr1))) thr2
  = (fst (fst (BackfillCompromiseDate.run c thr1)), 0%nat, None).
Proof.
  intros Hc Ht.
  unfold BackfillCompromiseDate.run, BackfillCompromiseDate.process_batch, find.
  set (body := BackfillCompromiseDate.body).
  assert (Hind : forall d n n', decision body n d = decision body n' d).
  { intros d n n'. unfold decision.
    destruct (date_body_cases d) as [H|[raw [cd H]]]; unfold body; rewrite !H; reflexivity. }
  assert (Hkeys : forall d s, written body 0%nat d = Some s -> ~ In "identifier"%string (map fst s)).
  { intros d s. unfold written, decision, body.
    destruct (date_body_cases d) as [H|[raw [cd H]]]; rewrite H; [discriminate|].
    intros [= <-]. simpl. intuition discriminate. }
  assert (Htot : forall d, In d c -> forall m, exists r, body d m = Ok r).
  { intros d _ m. unfold body. destruct (date_body_cases d) as [H|[raw [cd H]]]; rewrite H; eauto. }
  assert (Hafter : forall x s, In x c -> written body 0%nat x = Some s ->
                   BackfillCompromiseDate.selected thr2 (set_fields x s) = false).
  { intros x s _. unfold written, decision, body.
    destruct (date_body_cases x) as [H|[raw [cd H]]]; rewrite H; [discriminate|].
    intros [= <-]. unfold BackfillCompromiseDate.selected.
    rewrite set_fields_exists; [reflexivity | right; left; reflexivity]. }
  assert (Hmono : forall x, In x c -> BackfillCompromiseDate.selected thr2 x = true ->
                  BackfillCompromiseDate.selected thr1 x = true).
  { unfold BackfillCompromiseDate.selected. intros x _ H.
    apply andb_true_iff in H as [H1 H2]. rewrite H1. eapply field_gte_trans; eauto. }
  assert (Hquiet : forall x m, In x c -> written body 0%nat x = None -> m = 0%nat ->
                   exists m', body x m = Ok (None, m') /\ m' = 0%nat).
  { intros x m _. unfold written, decision, body.
    destruct (date_body_cases x) as [H|[raw [cd H]]]; rewrite !H; [eauto | discriminate]. }
  destruct (loop_idem "identifier" body _ _ 0%nat (fun m => m = 0%nat) c Hc Hind Hkeys Htot
              Hafter Hmono eq_refl Hquiet) as [Hn [m [Hr ->]]].
  split; [exact Hn | exact Hr].
Qed.

Lemma tipo_idem c thr1 thr2 :
  ids_ok "_id" c -> String.leb thr1 thr2 = true ->
  snd (BackfillTipoOrden.run c thr1) = None /\
  exists a, BackfillTipoOrden.run (fst (fst (BackfillTipoOrden.run c thr1))) thr2
  = (fst (fst (BackfillTipoOrden.run c thr1)), (a, 0%nat), None).
Proof.
  intros Hc Ht.
  unfold BackfillTipoOrden.run, find.
  set (body := BackfillTipoOrden.body).
  pose proof tipo_ind as Hind. pose proof (tipo_keys (0, 0)%nat) as Hkeys.
  assert (Htot : forall d, In d c -> forall m, exists r, body d m = Ok r).
  { intros d _ [a b]. unfold body. destruct (tipo_body_cases d) as [H|[v H]]; rewrite H; eauto. }
  assert (Hafter : forall x s, In x c -> written body (0, 0)%nat x = Some s ->
                   BackfillTipoOrden.selected thr2 (set_fields x s) = false).
  { intros x s _. unfold written, decision, body.
    destruct (tipo_body_cases x) as [H|[v H]]; rewrite H; [discriminate|].
    intros [= <-]. unfold BackfillTipoOrden.selected.
    rewrite set_fields_exists; [reflexivity | left; reflexivity]. }
  assert (Hmono : forall x, In x c -> BackfillTipoOrden.selected thr2 x = true ->
                  BackfillTipoOrden.selected thr1 x = true).
  { unfold BackfillTipoOrden.selected. intros x _ H.
    apply andb_true_iff in H as [H1 H2]. rewrite H1. eapply field_gte_trans; eauto. }
  assert (Hquiet : forall x m, In x c -> written body (0, 0)%nat x = None -> snd m = 0%nat ->
                   exists m', body x m = Ok (None, m') /\ snd m' = 0%nat).
  { intros x [a b] _ W Hb. cbn [snd] in Hb. subst b. unfold written, decision, body in *.
    destruct (tipo_body_cases x) as [H|[v H]]; rewrite !H in *; [eauto | discriminate]. }
  destruct (loop_idem "_id" body _ _ (0, 0)%nat (fun m => snd m = 0%nat) c Hc Hind Hkeys Htot
              Hafter Hmono eq_refl Hquiet) as [Hn [[a b] [Hr Hm]]].
  simpl in Hm. subst b. split; [exact Hn | eauto].
Qed.

Lemma job_idem c :
  ids_ok "_id" c ->
  (forall x, In x c -> exists v,
     JobsBackfillTipoOrden._get_tag_value_from_dispatch
       (JobsBackfillTipoOrden.project_dispatch_raw_tags x) "TIPO_ORDEN" = Ok v /\
     forall l, v <> PList l) ->
  snd (JobsBackfillTipoOrden.run c) = None /\
  exists a b, JobsBackfillTipoOrden.run (fst (fst (JobsBackfillTipoOrden.run c)))
  = (fst (fst (JobsBackfillTipoOrden.run c)), (a, 0%nat, b), None).
Proof.
  intros Hc Hjob.
  unfold JobsBackfillTipoOrden.run, find.
  set (body := fun doc => JobsBackfillTipoOrden.body (JobsBackfillTipoOrden.project_dispatch_raw_tags doc)).
  pose proof job_ind as Hind. pose proof (job_keys (0, 0, 0)%nat) as Hkeys.
  assert (Htot : forall d, In d c -> forall m, exists r, body d m = Ok r).
  { intros d Hd [[a b] m]. destruct (Hjob d Hd) as [v [Ev _]].
    unfold body, JobsBackfillTipoOrden.body. rewrite Ev. cbn [bind].
    destruct (negb (truthy v)); eauto. }
  assert (Hafter : forall x s, In x c -> written body (0, 0, 0)%nat x = Some s ->
                   JobsBackfillTipoOrden.selected (set_fields x s) = false).
  { intros x s Hx W. destruct (Hjob x Hx) as [v [Ev Hnl]].
    unfold written, decision, body, JobsBackfillTipoOrden.body in W. rewrite Ev in W.
    cbn [bind] in W. destruct (truthy v) eqn:T; cbn [negb] in W; [|discriminate].
    injection W as <-.
    assert (Hl : dict_lookup (set_fields x [("tipo_orden", v)]) "tipo_orden" = Some v)
      by apply dict_lookup_set_eq.
    unfold JobsBackfillTipoOrden.selected.
    rewrite !(field_eq_nonlist _ _ v) by assumption.
    unfold field_exists. rewrite Hl. cbn [negb orb].
    destruct (bson_eq v PNone) eqn:E1.
    - apply bson_eq_pnone in E1. subst v. discriminate.
    - destruct (bson_eq v (PStr "")) eqn:E2; [|reflexivity].
      apply bson_eq_empty in E2. subst v. discriminate. }
  assert (Hquiet : forall x m, In x c -> written body (0, 0, 0)%nat x = None -> snd (fst m) = 0%nat ->
                   exists m', body x m = Ok (None, m') /\ snd (fst m') = 0%nat).
  { intros x [[a b] mi] Hx W Hb. cbn [fst snd] in Hb. subst b.
    destruct (Hjob x Hx) as [v [Ev _]].
    unfold written, decision, body, JobsBackfillTipoOrden.body in *. rewrite Ev in *.
    cbn [bind] in *. destruct (truthy v); cbn [negb] in *; [discriminate | eauto]. }
  destruct (loop_idem "_id" body _ _ (0, 0, 0)%nat (fun m => snd (fst m) = 0%nat) c Hc Hind
              Hkeys Htot Hafter (fun _ _ H => H) eq_refl Hquiet) as [Hn [[[a b] m] [Hr Hm]]].
  cbn [fst snd] in Hm. subst b. split; [exact Hn | eauto].
Qed.

Lemma bson_eq_pnone_iff v : bson_eq v PNone = true <-> v = PNone.
Proof. split; [apply bson_eq_pnone | intros ->; reflexivity]. Qed.

Lemma bson_eq_empty_iff v : bson_eq v (PStr "") = true <-> v = PStr "".
Proof. split; [apply bson_eq_empty | intros ->; reflexivity]. Qed.

Lemma existsb_bson_eq l q :
  (forall v, bson_eq v q = true <-> v = q) -> existsb (fun e => bson_eq e q) l = true <-> In q l.
Proof.
  intros Hq. rewrite existsb_exists. split.
  - intros [e [He E]]. apply Hq in E. now subst.
  - intros H. exists q. split; [exact H | now apply Hq].
Qed.

(** The query of the pipeline's Category Backfill, field by field. *)
Lemma job_selected_iff d :
  JobsBackfillTipoOrden.selected d = true <->
  dict_lookup d "tipo_orden" = None \/ dict_lookup d "tipo_orden" = Some PNone \/
  dict_lookup d "tipo_orden" = Some (PStr "") \/
  exists l, dict_lookup d "tipo_orden" = Some (PList l) /\ (In PNone l \/ In (PStr "") l).
Proof.
  unfold JobsBackfillTipoOrden.selected, field_exists, field_eq.
  destruct (dict_lookup d "tipo_orden") as [v|]; cbn [negb orb]; [|split; auto].
  rewrite !orb_true_iff, bson_eq_pnone_iff, bson_eq_empty_iff. split.
  - intros [[H|H]|[H|H]].
    + subst. auto.
    + destruct v; try discriminate. apply existsb_bson_eq in H; [|apply bson_eq_pnone_iff].
      right; right; right. eauto.
    + subst. auto.
    + destruct v; try discriminate. apply existsb_bson_eq in H; [|apply bson_eq_empty_iff].
      right; right; right. eauto.
  - intros [H|[H|[H|[l [H [Hl|Hl]]]]]]; try discriminate; injection H as ->; auto.
    + left; right. apply existsb_bson_eq; [apply bson_eq_pnone_iff | exact Hl].
    + right; right. apply existsb_bson_eq; [apply bson_eq_empty_iff | exact Hl].
Qed.

(** The pipeline's Category Backfill on one selected dispatch with an
    [_id] whose TIPO_ORDEN tag value is truthy: one write of that value. *)
Lemma job_single_write x v :
  is_Some (key_of "_id" x) -> JobsBackfillTipoOrden.selected x = true ->
  JobsBackfillTipoOrden._get_tag_value_from_dispatch
    (JobsBackfillTipoOrden.project_dispatch_raw_tags x) "TIPO_ORDEN" = Ok v ->
  truthy v = true ->
  JobsBackfillTipoOrden.run [x] = ([set_fields x [("tipo_orden", v)]], (1, 1, 0)%nat, None).
Proof.
  intros [a Ha] Hs Hv Ht.
  unfold JobsBackfillTipoOrden.run, find. cbn [List.filter]. rewrite Hs.
  cbn [for_each_update]. unfold JobsBackfillTipoOrden.body. rewrite Hv. cbn [bind].
  rewrite Ht. cbn [negb for_each_update update_one].
  rewrite (get_id (k := "_id") _ _ Ha), (by_key_val (k := "_id") _ a a Ha).
  rewrite bool_decide_true by reflexivity. reflexivity.
Qed.

(** Writing [tipo_orden] changes neither the projected document nor the
    [_id]. *)
Lemma project_set_tipo x v :
  JobsBackfillTipoOrden.project_dispatch_raw_tags (set_fields x [("tipo_orden", v)])
  = JobsBackfillTipoOrden.project_dispatch_raw_tags x.
Proof.
  unfold JobsBackfillTipoOrden.project_dispatch_raw_tags.
  rewrite !set_fields_lookup_notin by (cbn; intuition discriminate). reflexivity.
Qed.

Lemma lookup_set_tipo x v : dict_lookup (set_fields x [("tipo_orden", v)]) "tipo_orden" = Some v.
Proof. apply dict_lookup_set_eq. Qed.

End TagFacts.

(** ** The Actualization Controller *)

Module ActualizationFacts.
Import Py Mongo RunActualization.

Lemma ex_snoc {A} (D : list A) y (P : A -> Prop) :
  (exists x, In x (D ++ [y]) /\ P x) <-> (exists x, In x D /\ P x) \/ P y.
Proof.
  split.
  - intros [x [Hx Hp]]. apply in_app_iff in Hx as [Hx|[<-|[]]]; eauto.
  - intros [[x [Hx Hp]]|Hp].
    + exists x. split; [apply in_or_app; now left | exact Hp].
    + exists y. split; [apply in_or_app; right; now left | exact Hp].
Qed.

Lemma ex_snoc_false {A} (D : list A) y (P : A -> Prop) :
  ~ P y -> (exists x, In x (D ++ [y]) /\ P x) <-> (exists x, In x D /\ P x).
Proof. intros Hn. rewrite ex_snoc. tauto. Qed.

Lemma ex_filter {A} (f : A -> bool) l (P : A -> Prop) :
  (exists x, In x (List.filter f l) /\ P x) <-> (exists x, In x l /\ f x = true /\ P x).
Proof.
  split; intros [x [Hx Hp]]; exists x.
  - apply filter_In in Hx. tauto.
  - rewrite filter_In. tauto.
Qed.

(** What the tracker has recorded after the open routes [D]. *)
Local Abbreviation tracked := (fun (D : list dict) (r : date_map) => forall day,
  (is_Some (r !! day) <-> exists doc, In doc D /\ open_route_date doc = Some day) /\
  forall i, r !! day = Some i ->
    (forall p, p ∈ pages i <->
       exists doc, In doc D /\ open_route_date doc = Some day /\ dict_get doc "page" = PInt p) /\
    (has_missing_page i = true <->
       exists doc, In doc D /\ open_route_date doc = Some day /\ dict_get doc "page" = PNone)).

Lemma track_step D r doc :
  tracked D r ->
  (dict_get doc "page" = PNone \/ exists p, dict_get doc "page" = PInt p) ->
  exists r', track r doc = Ok r' /\ tracked (D ++ [doc]) r'.
Proof.
  intros Hinv Hp. unfold track.
  destruct (open_route_date doc) as [d|] eqn:Ed.
  2: { exists r. split; [reflexivity|]. intros day. destruct (Hinv day) as [H1 H2]. split.
       - rewrite H1. rewrite (ex_snoc_false _ doc) by (rewrite Ed; congruence). reflexivity.
       - intros i Hi. destruct (H2 i Hi) as [Hpg Hm].
         split; [intros p'; rewrite Hpg | rewrite Hm];
           rewrite (ex_snoc_false _ doc) by (rewrite Ed; intros [? _]; congruence); reflexivity. }
  set (i0 := match r !! d with Some i => i | None => info0 end).
  assert (H0 : (forall p, p ∈ pages i0 <->
                 exists x, In x D /\ open_route_date x = Some d /\ dict_get x "page" = PInt p) /\
               (has_missing_page i0 = true <->
                 exists x, In x D /\ open_route_date x = Some d /\ dict_get x "page" = PNone)).
  { unfold i0. destruct (r !! d) as [i|] eqn:Er; [now apply (proj2 (Hinv d)) |].
    assert (Hno : ~ exists x, In x D /\ open_route_date x = Some d).
    { rewrite <- (proj1 (Hinv d)), Er. intros [? ?]; discriminate. }
    split; [intros p; split; [cbn; set_solver|] | split; [cbn; discriminate|]];
      intros [x [Hx [Hk _]]]; exfalso; apply Hno; eauto. }
  destruct H0 as [H0p H0m].
  cbv zeta.
  destruct Hp as [Hp|[p Hp]]; rewrite Hp; unfold py_int; cbv beta iota; eexists; (split; [reflexivity|]);
    intros day; destruct (decide (day = d)) as [->|Hne].
  - rewrite lookup_insert_eq. split.
    + split; [intros _; exists doc; split; [apply in_or_app; right; now left | exact Ed] |
              intros _; eexists; reflexivity].
    + intros i [= <-]. cbn [pages has_missing_page]. split.
      * intros p'. rewrite H0p, ex_snoc, Ed, Hp.
        split; [intros H; now left | intros [H|[_ H]]; [exact H | discriminate]].
      * rewrite ex_snoc, Ed, Hp. split; [intros _; right; auto | reflexivity].
  - rewrite !lookup_insert_ne by congruence. destruct (Hinv day) as [H1 H2]. split.
    + rewrite H1. rewrite (ex_snoc_false _ doc) by (rewrite Ed; congruence). reflexivity.
    + intros i Hi. destruct (H2 i Hi) as [Hpg Hm].
      split; [intros p'; rewrite Hpg | rewrite Hm];
        rewrite (ex_snoc_false _ doc) by (rewrite Ed; intros [? _]; congruence); reflexivity.
  - rewrite lookup_insert_eq. split.
    + split; [intros _; exists doc; split; [apply in_or_app; right; now left | exact Ed] |
              intros _; eexists; reflexivity].
    + intros i [= <-]. cbn [pages has_missing_page]. split.
      * intros p'. rewrite elem_of_union, elem_of_singleton, H0p, ex_snoc, Ed, Hp.
        split; [intros [->|H]; [right; auto | left; exact H] |
                intros [H|[_ H]]; [right; exact H | left; injection H as E; now subst]].
      * rewrite H0m, ex_snoc, Ed, Hp.
        split; [intros H; now left | intros [H|[_ H]]; [exact H | discriminate]].
  - rewrite !lookup_insert_ne by congruence. destruct (Hinv day) as [H1 H2]. split.
    + rewrite H1. rewrite (ex_snoc_false _ doc) by (rewrite Ed; congruence). reflexivity.
    + intros i Hi. destruct (H2 i Hi) as [Hpg Hm].
      split; [intros p'; rewrite Hpg | rewrite Hm];
        rewrite (ex_snoc_false _ doc) by (rewrite Ed; intros [? _]; congruence); reflexivity.
Qed.

Lemma track_all_tracked rest D r :
  tracked D r ->
  (forall doc, In doc rest -> dict_get doc "page" = PNone \/ exists p, dict_get doc "page" = PInt p) ->
  exists r', track_all rest r = Ok r' /\ tracked (D ++ rest) r'.
Proof.
  revert D r. induction rest as [|doc rest IH]; intros D r Hinv Hp; cbn [track_all].
  - exists r. rewrite app_nil_r. auto.
  - destruct (track_step D r doc Hinv (Hp doc (or_introl eq_refl))) as [r1 [E H1]].
    rewrite E. cbn [bind].
    destruct (IH (D ++ [doc]) r1 H1) as [r' [E' H']]; [intros; apply Hp; now right|].
    exists r'. rewrite <- app_assoc in H'. auto.
Qed.

Lemma tracker_spec routes :
  (forall doc, In doc routes -> is_open doc = true ->
     dict_get doc "page" = PNone \/ exists p, dict_get doc "page" = PInt p) ->
  exists result, _get_dates_and_pages_for_open_routes routes = Ok result /\
    tracked (find routes is_open) result.
Proof.
  intros Hp. unfold _get_dates_and_pages_for_open_routes.
  destruct (track_all_tracked (find routes is_open) [] ∅) as [r [E H]].
  - intros day. split.
    + rewrite lookup_empty. split; [intros [? ?]; discriminate | intros [x [[] _]]].
    + intros i Hi. rewrite lookup_empty in Hi. discriminate.
  - intros doc Hd. apply filter_In in Hd as [Hd Ho]. now apply Hp.
  - exists r. auto.
Qed.

(** The staleness gate of step 3.3. *)
Lemma time_cond (doc : dict) (thr : option Z) :
  dict_lookup doc "last_processed_at" = None \/
  (exists ms, dict_lookup doc "last_processed_at" = Some (PDatetime ms)) ->
  (match thr with
   | Some t => field_lte doc "last_processed_at" (PDatetime t)
               || negb (field_exists doc "last_processed_at")
   | None => true
   end) = true <->
  match thr with
  | Some t => dict_lookup doc "last_processed_at" = None \/
              exists ms, dict_lookup doc "last_processed_at" = Some (PDatetime ms) /\ ms <= t
  | None => True
  end.
Proof.
  intros Hlast. destruct thr as [t|]; [|split; auto].
  unfold field_lte, field_cmp, field_exists.
  destruct Hlast as [E|[ms E]]; rewrite E; cbn [bson_le negb orb].
  - split; [intros _; auto | reflexivity].
  - rewrite !orb_false_r, Z.leb_le. split.
    + intros H. right. eauto.
    + intros [H|[ms' [H1 H2]]]; [discriminate | injection H1 as <-; exact H2].
Qed.

Lemma route_docs_spec routes day thr doc :
  In doc routes ->
  dict_lookup doc "last_processed_at" = None \/
  (exists ms, dict_lookup doc "last_processed_at" = Some (PDatetime ms)) ->
  In doc (route_docs routes day thr) <->
  field_eq doc "date" (PStr day) = true /\ is_open doc = true /\
  truthy (dict_get doc "route_key") = true /\
  match thr with
  | Some t => dict_lookup doc "last_processed_at" = None \/
              exists ms, dict_lookup doc "last_processed_at" = Some (PDatetime ms) /\ ms <= t
  | None => True
  end.
Proof.
  intros Hin Hlast. unfold route_docs, find. rewrite !filter_In. unfold criteria, is_open.
  rewrite !andb_true_iff, (time_cond doc thr Hlast). tauto.
Qed.

(** The staleness bound of a run whose [now_utc] is a datetime: none for
    [delta_time_update <= 0]; otherwise [now_utc - delta_time_update]
    hours, or [OverflowError] when that instant is before [datetime.min]. *)
Lemma step33_threshold_spec h now_ms :
  datetime_min_ms <= now_ms <= datetime_max_ms ->
  step33_threshold h now_ms
  = if 0 <? h then
      if datetime_min_ms <=? now_ms - h * 3600000 then Ok (Some (now_ms - h * 3600000))
      else Err OverflowError
    else Ok None.
Proof.
  intros Hnow. unfold step33_threshold, threshold, timedelta_days_ok. cbv zeta.
  unfold datetime_min_ms, datetime_max_ms in *.
  destruct (Z.ltb_spec 0 h) as [Hh|Hh]; [|reflexivity].
  destruct (Z.leb_spec (-62135596800000) (now_ms - h * 3600000)) as [Ht|Ht].
  - assert (Hd : h / 24 <= h) by (apply Z.div_le_upper_bound; lia).
    assert (Hd0 : 0 <= h / 24) by (apply Z.div_pos; lia).
    rewrite (proj2 (Z.leb_le (Z.abs (h / 24)) 999999999)) by lia. cbn [negb].
    rewrite (proj2 (Z.leb_le (now_ms - h * 3600000) 253402300799999)) by lia.
    reflexivity.
  - destruct (negb (Z.abs (h / 24) <=? 999999999)); reflexivity.
Qed.

Lemma run_jobs_ok exit_code cs trace :
  (forall c, exit_code c = 0) -> run_jobs exit_code cs trace = Ok (trace ++ cs).
Proof.
  intros Hok. revert trace. induction cs as [|c cs IH]; intros trace; cbn [run_jobs].
  - now rewrite app_nil_r.
  - unfold _run_job at 1. rewrite Hok. cbn [Z.eqb bind]. rewrite IH, <- app_assoc. reflexivity.
Qed.

Lemma process_routes_ok exit_code routes rks now_ms trace :
  (forall c, exit_code c = 0) ->
  exists routes', process_routes exit_code routes rks now_ms trace
                  = Ok (routes', trace ++ flat_map route_jobs rks).
Proof.
  intros Hok. revert routes trace. induction rks as [|rk rks IH]; intros routes trace;
    cbn [process_routes].
  - exists routes. now rewrite app_nil_r.
  - rewrite run_jobs_ok by exact Hok. cbn [bind].
    destruct (IH (update_one routes (fun x => field_eq x "route_key" rk)
                    [("last_processed_at", PDatetime now_ms)]) (trace ++ route_jobs rk)) as [r E].
    exists r. rewrite E. cbn [flat_map]. now rewrite app_assoc.
Qed.

Lemma details_dates_app a b : details_dates (a ++ b) = details_dates a ++ details_dates b.
Proof. apply flat_map_app. Qed.

Lemma details_route_jobs rks : details_dates (flat_map route_jobs rks) = [].
Proof.
  induction rks as [|rk rks IH]; [reflexivity|].
  cbn [flat_map]. rewrite details_dates_app, IH. reflexivity.
Qed.

Lemma details_get_routes d i : details_dates (get_routes_jobs d i) = [].
Proof.
  unfold get_routes_jobs. destruct (_ || _); [reflexivity|].
  induction (merge_sort Z.le (elements (pages i))) as [|p l IH]; [reflexivity|].
  exact IH.
Qed.

Lemma process_dates_ok exit_code dpi dates routes h now_ms thr trace :
  (forall c, exit_code c = 0) -> step33_threshold h now_ms = Ok thr ->
  exists routes' extra, process_dates exit_code dpi dates routes h now_ms trace
                        = Ok (routes', trace ++ extra) /\ details_dates extra = dates.
Proof.
  intros Hok Hthr. revert routes trace. induction dates as [|d dates IH]; intros routes trace;
    cbn [process_dates].
  - exists routes, []. now rewrite app_nil_r.
  - cbv zeta. rewrite run_jobs_ok by exact Hok. cbn [bind]. rewrite Hthr. cbn [bind].
    set (i := match dpi !! d with Some i => i | None => info0 end).
    destruct (process_routes_ok exit_code routes (route_keys routes d thr) now_ms
                (trace ++ get_routes_jobs d i
                   ++ [job "orchestrator.jobs.get_details_from_route" (Some d) []]) Hok) as [r1 E1].
    rewrite E1. cbn [bind fst snd].
    destruct (IH r1 ((trace ++ (get_routes_jobs d i
                       ++ [job "orchestrator.jobs.get_details_from_route" (Some d) []]))
                       ++ flat_map route_jobs (route_keys routes d thr))) as [r2 [extra [E2 H2]]].
    rewrite E2.
    exists r2, (get_routes_jobs d i ++ [job "orchestrator.jobs.get_details_from_route" (Some d) []]
                ++ flat_map route_jobs (route_keys routes d thr) ++ extra).
    split.
    + rewrite <- !app_assoc. reflexivity.
    + rewrite !details_dates_app, details_get_routes, details_route_jobs, H2. reflexivity.
Qed.

Lemma str_le_trans : Transitive str_le.
Proof. intros a b c. apply TagFacts.string_leb_trans. Qed.

Lemma str_le_total : Total str_le.
Proof. intros a b. apply String.leb_total. Qed.

Lemma sorted_dates_spec (m : date_map) :
  (forall x, In x (sorted_dates m) <-> is_Some (m !! x)) /\
  StronglySorted str_le (sorted_dates m) /\ NoDup (sorted_dates m).
Proof.
  pose proof (merge_sort_Permutation str_le (elements (dom m))) as HP.
  unfold sorted_dates. split; [|split].
  - intros x. split; intros H.
    + apply (Permutation_in _ HP), list_elem_of_In, elem_of_elements, elem_of_dom in H. exact H.
    + apply (Permutation_in _ (Permutation_sym HP)), list_elem_of_In, elem_of_elements, elem_of_dom.
      exact H.
  - apply (@StronglySorted_merge_sort _ str_le _ str_le_trans str_le_total).
  - rewrite HP. apply NoDup_elements.
Qed.

Lemma filter_dates_dom (dpi : date_map) t x :
  is_Some (filter_dates dpi t !! x) <-> (is_Some (dpi !! x) /\ String.leb x t = true) \/ x = t.
Proof.
  assert (Hf : forall y, is_Some (filter (fun kv => String.leb kv.1 t = true) dpi !! y)
                         <-> is_Some (dpi !! y) /\ String.leb y t = true).
  { intros y. split.
    - intros [i Hi]. apply map_lookup_filter_Some in Hi as [Hi Hl]. split; [eexists; eauto | exact Hl].
    - intros [[i Hi] Hl]. exists i. apply map_lookup_filter_Some. auto. }
  unfold filter_dates.
  destruct (filter (fun kv => String.leb kv.1 t = true) dpi !! t) as [i|] eqn:Et.
  - rewrite Hf. split; [tauto|]. intros [H| ->]; [exact H|].
    exact (proj1 (Hf t) (ex_intro _ i Et)).
  - destruct (decide (x = t)) as [->|Hne].
    + rewrite lookup_insert_eq. split; [auto | intros _; eexists; reflexivity].
    + rewrite lookup_insert_ne by congruence. rewrite Hf. tauto.
Qed.

End ActualizationFacts.

(** ** The Sub-status jobs *)

Module SubstatusFacts.
Import Py Mongo UpdateFacts.
Import BackfillSubstatus (fields_of).

Lemma normalize_code_eq c :
  c <> PNone ->
  BackfillSubstatus._normalize_code c
  = if is_bad_number c then None
    else if String.eqb (strip (str c)) "" || String.eqb (lower (strip (str c))) "nan" then None
         else Some (strip (str c)).
Proof. intros H. destruct c; try congruence; reflexivity. Qed.

Lemma pnone_dec (c : pyval) : c = PNone \/ c <> PNone.
Proof. destruct c; (left; reflexivity) || (right; discriminate). Qed.

Lemma normalize_code_none c :
  BackfillSubstatus._normalize_code c = None
  <-> c = PNone \/ is_bad_number c = true \/ strip (str c) = ""%string
      \/ lower (strip (str c)) = "nan"%string.
Proof.
  destruct (pnone_dec c) as [->|Hc]; [split; auto|].
  rewrite normalize_code_eq by done.
  destruct (is_bad_number c) eqn:Eb; [split; auto|].
  destruct (String.eqb (strip (str c)) "") eqn:E1;
  destruct (String.eqb (lower (strip (str c))) "nan") eqn:E2; simpl.
  - apply String.eqb_eq in E1. split; auto.
  - apply String.eqb_eq in E1. split; auto.
  - apply String.eqb_eq in E2. split; auto.
  - apply String.eqb_neq in E1, E2. split; [discriminate|]. intros [?|[?|[?|?]]]; congruence.
Qed.

Lemma normalize_code_some c s :
  BackfillSubstatus._normalize_code c = Some s -> s = strip (str c).
Proof.
  destruct (pnone_dec c) as [->|Hc]; [discriminate|].
  rewrite normalize_code_eq by done.
  destruct (is_bad_number c); [discriminate|].
  destruct (_ || _); congruence.
Qed.

Lemma step_fst sub_col d n :
  fst (BackfillSubstatus.step sub_col d n) = fields_of sub_col d.
Proof.
  unfold fields_of, BackfillSubstatus.step.
  destruct (BackfillSubstatus._normalize_code _); [|done].
  destruct (BackfillSubstatus._lookup_substatus _ _) as [m|]; [destruct (truthy _)|]; done.
Qed.

Lemma fields_of_keys sub_col d :
  map fst (fields_of sub_col d) = ["estado_beetrack"; "estado_guia"; "cierre"]%string.
Proof.
  unfold fields_of, BackfillSubstatus.step.
  destruct (BackfillSubstatus._normalize_code _); [|done].
  destruct (BackfillSubstatus._lookup_substatus _ _) as [m|]; [destruct (truthy _)|]; done.
Qed.

Lemma process_writes sub_col docs c n :
  fst (BackfillSubstatus.process sub_col docs c n)
  = apply_writes "_id" c (wmap (fun d => Some (fields_of sub_col d)) docs).
Proof.
  revert c n. induction docs as [|d docs IH]; intros c n; simpl; [done|].
  destruct (BackfillSubstatus.step sub_col d n) as [upd n'] eqn:E.
  rewrite IH. replace upd with (fields_of sub_col d); [done|].
  rewrite <- (step_fst sub_col d n), E. done.
Qed.

Lemma get_set3 (x : dict) a b c :
  let x' := set_fields x [("estado_beetrack", a); ("estado_guia", b); ("cierre", c)]%string in
  dict_get x' "estado_beetrack" = a /\ dict_get x' "estado_guia" = b /\ dict_get x' "cierre" = c.
Proof.
  unfold set_fields, dict_get; cbn [fold_left fst snd].
  rewrite !dict_lookup_set_ne by discriminate. rewrite dict_lookup_set_eq.
  split; [done|].
  rewrite dict_lookup_set_ne by discriminate. rewrite dict_lookup_set_eq.
  split; [done|]. rewrite dict_lookup_set_eq. done.
Qed.

Lemma lookup_nonempty sub_col code m :
  BackfillSubstatus._lookup_substatus sub_col code = Some m -> m <> [].
Proof.
  unfold BackfillSubstatus._lookup_substatus, BackfillSubstatus._code_variants.
  destruct (BackfillSubstatus._normalize_code code) as [norm|]; [|discriminate].
  destruct (find_one _ _) as [r|] eqn:Ef; [|discriminate]. simpl. intros [= <-].
  apply find_one_some in Ef as [Hr _].
  apply field_in_lookup in Hr as [v Hv].
  - eapply project_nonempty; [exact Hv | simpl; auto].
  - simpl. destruct (isdigit norm); simpl; intuition discriminate.
Qed.

Lemma fields_of_cases sub_col x :
  let code := dict_get x "substatus_code" in
  (BackfillSubstatus._normalize_code code = None ->
     fields_of sub_col x = BackfillSubstatus.null_fields) /\
  (forall m, BackfillSubstatus._normalize_code code <> None ->
     BackfillSubstatus._lookup_substatus sub_col code = Some m ->
     fields_of sub_col x = BackfillSubstatus.mapped_fields m) /\
  (BackfillSubstatus._normalize_code code <> None ->
     BackfillSubstatus._lookup_substatus sub_col code = None ->
     fields_of sub_col x = BackfillSubstatus.null_fields).
Proof.
  unfold fields_of, BackfillSubstatus.step. simpl. split; [|split].
  - intros ->. done.
  - intros m Hn Hl. destruct (BackfillSubstatus._normalize_code _); [|congruence].
    rewrite Hl. apply lookup_nonempty in Hl. destruct m; [congruence|]. done.
  - intros Hn Hl. destruct (BackfillSubstatus._normalize_code _); [|congruence].
    rewrite Hl. done.
Qed.

(** The decision of the fill-only job does not depend on its counters. *)
Lemma getsub_ind sub_col d n n' :
  decision (GetSubstatus.body sub_col) n d = decision (GetSubstatus.body sub_col) n' d.
Proof.
  destruct n as [[t u] m], n' as [[t' u'] m']. unfold decision, GetSubstatus.body.
  destruct (GetSubstatus._lookup_substatus _ _) as [[r|]|e]; cbn [bind]; [|done|done].
  destruct (truthy (PDict r)); done.
Qed.

Lemma getsub_keys sub_col n d s :
  written (GetSubstatus.body sub_col) n d = Some s -> ~ In "_id"%string (map fst s).
Proof.
  destruct n as [[t u] m]. unfold written, decision, GetSubstatus.body.
  destruct (GetSubstatus._lookup_substatus _ _) as [[r|]|e]; cbn [bind]; [|done|done].
  destruct (truthy (PDict r)); [|done]. intros [= <-]. simpl. intuition discriminate.
Qed.

End SubstatusFacts.

(** *** The batches of [backfill_substatus.run] *)

Module PagingFacts.
Import Py Mongo UpdateFacts LoopFacts SubstatusFacts.
Import BackfillSubstatus (fields_of, key_le, key_gt, query, id_le, insert_by_id, sort_by_id,
                         batch, loop, selected, visited, int_id, selected_ints, reached).

Lemma nodup_map_inv {A B} (f : A -> B) (l : list A) : NoDup (map f l) -> NoDup l.
Proof. rewrite !NoDup_ListNoDup. apply List.NoDup_map_inv. Qed.

Lemma nodup_perm {A} (l l' : list A) : Permutation l l' -> NoDup l -> NoDup l'.
Proof. rewrite !NoDup_ListNoDup. apply Permutation_NoDup. Qed.

Lemma nodup_incl_length {A} (l l' : list A) : NoDup l -> incl l l' -> (length l <= length l')%nat.
Proof. rewrite NoDup_ListNoDup. apply NoDup_incl_length. Qed.

(** The order of [_id]s. *)
Lemma key_le_refl a : key_le a a = true.
Proof.
  destruct a as [n|s]; simpl; [apply Z.leb_refl|]. destruct (String.leb_total s s); auto.
Qed.

Lemma key_le_total a b : key_le a b = true \/ key_le b a = true.
Proof.
  destruct a, b; simpl; auto; [rewrite !Z.leb_le; lia | apply String.leb_total].
Qed.

Lemma key_le_antisym a b : key_le a b = true -> key_le b a = true -> a = b.
Proof.
  destruct a, b; simpl; intros H1 H2; try discriminate.
  - rewrite Z.leb_le in H1, H2. f_equal. lia.
  - f_equal. now apply String.leb_antisym.
Qed.

Lemma key_le_trans a b c : key_le a b = true -> key_le b c = true -> key_le a c = true.
Proof.
  destruct a, b, c; simpl; intros H1 H2; try discriminate; try reflexivity.
  - rewrite Z.leb_le in *. lia.
  - eapply TagFacts.string_leb_trans; eauto.
Qed.

Lemma key_gt_not_le l k : key_gt l k = true -> key_le k l = false.
Proof.
  destruct l, k; simpl; intros H; try discriminate.
  - apply Z.ltb_lt in H. apply Z.leb_gt. lia.
  - now apply negb_true_iff in H.
Qed.

(** The ids above [l] and up to [kb], for a [kb] above [l], are an
    interval of one type bracket. *)
Lemma key_interval l kb k :
  key_gt l kb = true -> key_le k kb = key_le k l || (key_gt l k && key_le k kb).
Proof.
  destruct l as [x|x], kb as [y|y]; simpl; intros H; try discriminate;
    destruct k as [z|z]; simpl; try reflexivity.
  - apply Z.ltb_lt in H.
    destruct (Z.leb_spec z y), (Z.leb_spec z x), (Z.ltb_spec x z); simpl; try reflexivity; lia.
  - destruct (String.leb z x) eqn:E; simpl; [|reflexivity].
    apply negb_true_iff in H. destruct (String.leb_total x y) as [Hxy|Hyx].
    + eapply TagFacts.string_leb_trans; eauto.
    + congruence.
Qed.

Lemma id_le_refl a : id_le a a = true.
Proof. unfold id_le. destruct (key_of "_id" a); [apply key_le_refl | reflexivity]. Qed.

Lemma id_le_total a b : id_le a b = true \/ id_le b a = true.
Proof.
  unfold id_le. destruct (key_of "_id" a), (key_of "_id" b); auto using key_le_total.
Qed.

Lemma id_le_trans a b c : id_le a b = true -> id_le b c = true -> id_le a c = true.
Proof.
  unfold id_le. destruct (key_of "_id" a), (key_of "_id" b), (key_of "_id" c);
    intros H1 H2; try discriminate; try reflexivity. eauto using key_le_trans.
Qed.

(** The sort. *)
Local Abbreviation R := (fun a b : dict => id_le a b = true).

Lemma insert_perm d l : Permutation (insert_by_id d l) (d :: l).
Proof.
  induction l as [|e r IH]; simpl; [reflexivity|]. destruct (id_le d e); [reflexivity|].
  etransitivity; [apply perm_skip, IH | apply perm_swap].
Qed.

Lemma sort_perm l : Permutation (sort_by_id l) l.
Proof.
  induction l as [|d l IH]; simpl; [reflexivity|].
  etransitivity; [apply insert_perm | now apply perm_skip].
Qed.

Lemma insert_sorted d l : Sorted R l -> Sorted R (insert_by_id d l).
Proof.
  induction 1 as [|e r Hr IH Hhd]; simpl; [repeat constructor|].
  destruct (id_le d e) eqn:E; [constructor; [constructor; auto | constructor; exact E]|].
  assert (Hed : id_le e d = true) by (destruct (id_le_total d e); congruence).
  constructor; [exact IH|]. destruct r as [|f r]; simpl; [constructor; exact Hed|].
  destruct (id_le d f); constructor; [exact Hed | inversion Hhd; auto].
Qed.

Lemma sort_sorted l : StronglySorted R (sort_by_id l).
Proof.
  apply Sorted_StronglySorted; [intros a b c; apply id_le_trans|].
  induction l as [|d l IH]; simpl; [constructor|]. now apply insert_sorted.
Qed.

Lemma last_in (l : list dict) : l <> [] -> In (List.last l []) l.
Proof.
  induction l as [|a l IH]; intros H; [done|]. destruct l as [|b l]; [now left|].
  right. apply IH. discriminate.
Qed.

Lemma ss_last (l : list dict) u :
  StronglySorted R l -> In u l -> u = List.last l [] \/ id_le u (List.last l []) = true.
Proof.
  induction l as [|a l IH]; [intros _ []|]. intros Hs Hu.
  apply StronglySorted_inv in Hs as [Hs Ha]. destruct l as [|b l].
  - destruct Hu as [<-|[]]. now left.
  - change (List.last (a :: b :: l) []) with (List.last (b :: l) []).
    destruct Hu as [<-|Hu]; [|now apply IH].
    right. apply (proj1 (List.Forall_forall _ _) Ha). apply last_in. discriminate.
Qed.

Lemma ss_app (l1 l2 : list dict) :
  StronglySorted R (l1 ++ l2) ->
  StronglySorted R l1 /\ forall u v, In u l1 -> In v l2 -> id_le u v = true.
Proof.
  induction l1 as [|a l1 IH]; simpl; intros H.
  - split; [constructor | intros ? ? []].
  - apply StronglySorted_inv in H as [H Ha]. destruct (IH H) as [H1 H2].
    rewrite List.Forall_forall in Ha. split.
    + constructor; [exact H1|]. apply List.Forall_forall. intros x Hx. apply Ha.
      apply in_or_app. now left.
    + intros u v [<-|Hu] Hv; [apply Ha; apply in_or_app; now right | auto].
Qed.

(** A nonempty prefix of the sorted list holds exactly the documents whose
    [_id] is at most the one of its last document. *)
Lemma prefix_le n (S : list dict) z :
  StronglySorted R S -> NoDup (map (key_of "_id") S) ->
  (forall u, In u S -> is_Some (key_of "_id" u)) ->
  firstn n S <> [] -> In z S ->
  (In z (firstn n S) <-> id_le z (List.last (firstn n S) []) = true).
Proof.
  intros Hs Hnk Hsome Hne Hz. set (b := List.last (firstn n S) []).
  assert (HbB : In b (firstn n S)) by now apply last_in.
  pose proof (firstn_skipn n S) as HS. rewrite <- HS in Hs. apply ss_app in Hs as [HB HBR].
  split.
  - intros Hzb. destruct (ss_last _ z HB Hzb) as [->|H]; [apply id_le_refl | exact H].
  - intros Hle. rewrite <- HS in Hz. apply in_app_or in Hz as [Hz|Hz]; [exact Hz|].
    exfalso. pose proof (HBR b z HbB Hz) as Hbz.
    assert (HzS : In z S) by (rewrite <- HS; apply in_or_app; now right).
    assert (HbS : In b S) by (rewrite <- HS; apply in_or_app; now left).
    destruct (Hsome z HzS) as [kz Ez], (Hsome b HbS) as [kb Eb].
    unfold id_le in Hle, Hbz. rewrite Ez, Eb in Hle, Hbz.
    pose proof (key_le_antisym _ _ Hle Hbz) as <-.
    assert (z = b) as <- by (eapply nodup_map_eq; [exact Hnk | exact HzS | exact HbS | congruence]).
    apply nodup_map_inv in Hnk. rewrite <- HS in Hnk.
    apply NoDup_app in Hnk as [_ [Hdis _]].
    apply (Hdis z); apply list_elem_of_In; assumption.
Qed.

Lemma perm_filter (f : dict -> bool) (l l' : list dict) :
  Permutation l l' -> Permutation (List.filter f l) (List.filter f l').
Proof.
  induction 1; simpl.
  - constructor.
  - destruct (f x); [now apply perm_skip | assumption].
  - destruct (f x), (f y); try constructor; reflexivity.
  - etransitivity; eassumption.
Qed.

Lemma filter_split (p q : dict -> bool) (l : list dict) :
  length (List.filter p l)
  = (length (List.filter (fun z => p z && q z) l)
     + length (List.filter (fun z => p z && negb (q z)) l))%nat.
Proof.
  induction l as [|a l IH]; simpl; [done|].
  destruct (p a), (q a); simpl; lia.
Qed.

(** The counters of a batch. *)
Lemma process_tally sub_col docs c0 n :
  let m := snd (BackfillSubstatus.process sub_col docs c0 n) in
  BackfillSubstatus.total m = (BackfillSubstatus.total n + length docs)%nat /\
  (BackfillSubstatus.null_or_invalid_code m + BackfillSubstatus.mapped m
   + BackfillSubstatus.unmatched m
   = BackfillSubstatus.null_or_invalid_code n + BackfillSubstatus.mapped n
     + BackfillSubstatus.unmatched n + length docs)%nat.
Proof.
  revert c0 n. induction docs as [|d docs IH]; intros c0 n m; subst m;
    cbn [BackfillSubstatus.process length].
  - cbn [snd]. lia.
  - assert (S1 : BackfillSubstatus.total (snd (BackfillSubstatus.step sub_col d n))
                 = S (BackfillSubstatus.total n)).
    { unfold BackfillSubstatus.step. cbv zeta.
      destruct (BackfillSubstatus._normalize_code _); [|reflexivity].
      destruct (BackfillSubstatus._lookup_substatus _ _); [destruct (truthy _)|]; reflexivity. }
    assert (S2 : let m := snd (BackfillSubstatus.step sub_col d n) in
                 (BackfillSubstatus.null_or_invalid_code m + BackfillSubstatus.mapped m
                  + BackfillSubstatus.unmatched m
                  = S (BackfillSubstatus.null_or_invalid_code n + BackfillSubstatus.mapped n
                       + BackfillSubstatus.unmatched n))%nat).
    { unfold BackfillSubstatus.step. cbv zeta.
      destruct (BackfillSubstatus._normalize_code _); [|cbn; lia].
      destruct (BackfillSubstatus._lookup_substatus _ _); [destruct (truthy _)|]; cbn; lia. }
    cbv zeta in S2.
    destruct (BackfillSubstatus.step sub_col d n) as [upd n'] eqn:E. cbn [snd] in S1, S2.
    destruct (IH (update_one c0 (by_id (dict_get d "_id")) upd) n') as [I1 I2]. lia.
Qed.

Lemma upd_lookup sub_col z k :
  ~ In k ["estado_beetrack"; "estado_guia"; "cierre"]%string ->
  dict_lookup (set_fields z (fields_of sub_col z)) k = dict_lookup z k.
Proof. intros H. apply set_fields_lookup_notin. now rewrite fields_of_keys. Qed.

Lemma upd_key sub_col z : key_of "_id" (set_fields z (fields_of sub_col z)) = key_of "_id" z.
Proof. unfold key_of. rewrite upd_lookup; [done|]. simpl. intuition discriminate. Qed.

Lemma query_upd sub_col thr last z :
  query thr last (set_fields z (fields_of sub_col z)) = query thr last z.
Proof.
  unfold query, selected, field_gte, field_cmp. rewrite upd_key, upd_lookup; [done|].
  simpl. intuition discriminate.
Qed.

Lemma query_not_visited thr last z : query thr last z = true -> visited thr last z = false.
Proof.
  unfold query, visited. destruct (selected thr z); [|done]. simpl.
  destruct last as [l|]; [|done]. destruct (key_of "_id" z); [|discriminate].
  apply key_gt_not_le.
Qed.

Section Paging.
Variables (sub_col c0 : collection) (thr : string).
Hypothesis Hc0 : ids_ok "_id" c0.

Local Abbreviation state last :=
  (map (fun z => if visited thr last z then set_fields z (fields_of sub_col z) else z) c0).
Local Abbreviation L last := (find c0 (query thr last)).
Local Abbreviation unvisited last :=
  (length (List.filter (fun z => selected thr z && negb (visited thr last z)) c0)).

(** Which way the first batch ended. *)
Local Abbreviation inv last :=
  (match last with
   | None => True
   | Some (KInt _) => (BackfillSubstatus.BATCH_SIZE <= selected_ints c0 thr)%nat
                      \/ forall z, In z c0 -> selected thr z = true -> int_id z = true
   | Some (KStr _) => (selected_ints c0 thr < BackfillSubstatus.BATCH_SIZE)%nat
   end).

Lemma nodup_c0 : NoDup c0.
Proof. apply (nodup_map_inv (key_of "_id")), Hc0. Qed.

Lemma key_c0 z : In z c0 -> is_Some (key_of "_id" z).
Proof. intros Hz. eapply ids_ok_in; eauto. Qed.

Lemma find_state last : find (state last) (query thr last) = L last.
Proof.
  unfold find. generalize c0. intros l. induction l as [|z l IH]; simpl; [done|].
  destruct (visited thr last z) eqn:Ev; rewrite ?query_upd;
    destruct (query thr last z) eqn:Eq; rewrite ?IH; try reflexivity.
  rewrite (query_not_visited _ _ _ Eq) in Ev. discriminate.
Qed.

Lemma batch_state last : batch (state last) thr last = batch c0 thr last.
Proof. unfold batch. now rewrite find_state. Qed.

Lemma L_in last z : In z (L last) <-> In z c0 /\ query thr last z = true.
Proof. apply filter_In. Qed.

Lemma sorted_facts last :
  let S := sort_by_id (L last) in
  StronglySorted R S /\ NoDup (map (key_of "_id") S)
  /\ (forall u, In u S <-> In u c0 /\ query thr last u = true)
  /\ (forall u, In u S -> is_Some (key_of "_id" u)).
Proof.
  cbv zeta. pose proof (sort_perm (L last)) as Hp.
  assert (Hin : forall u, In u (sort_by_id (L last)) <-> In u c0 /\ query thr last u = true).
  { intros u. rewrite <- L_in. split; [apply Permutation_in, Hp | apply Permutation_in; now symmetry]. }
  split; [apply sort_sorted|]. split; [|split; [exact Hin|]].
  - eapply nodup_perm; [apply Permutation_map; symmetry; exact Hp|].
    apply nodup_map_filter, Hc0.
  - intros u Hu. apply key_c0, Hin, Hu.
Qed.

(** The writes on the dispatches of a batch taken from the collection. *)
Lemma write_for_mem (h : dict -> list (string * pyval)) (P : list dict) z :
  (forall d, In d P -> In d c0) -> In z c0 -> In z P ->
  write_for "_id" (wmap (fun d => Some (h d)) P) (key_of "_id" z) = Some (h z).
Proof.
  intros HP Hz. induction P as [|d P IH]; [intros []|]. intros Hin. simpl.
  destruct (decide (key_of "_id" d = key_of "_id" z)) as [E|E].
  - assert (d = z) as -> by (eapply nodup_map_eq; [apply Hc0 | apply HP; now left | exact Hz | exact E]).
    reflexivity.
  - destruct Hin as [->|Hin]; [congruence|]. apply IH; [intros; apply HP; now right | exact Hin].
Qed.

Lemma write_for_nonmem (h : dict -> list (string * pyval)) (P : list dict) z :
  (forall d, In d P -> In d c0) -> In z c0 -> ~ In z P ->
  write_for "_id" (wmap (fun d => Some (h d)) P) (key_of "_id" z) = None.
Proof.
  intros HP Hz. induction P as [|d P IH]; [done|]. intros Hin. simpl.
  destruct (decide (key_of "_id" d = key_of "_id" z)) as [E|E].
  - assert (d = z) as -> by (eapply nodup_map_eq; [apply Hc0 | apply HP; now left | exact Hz | exact E]).
    exfalso. apply Hin. now left.
  - apply IH; [intros; apply HP; now right | intros H; apply Hin; now right].
Qed.

Lemma filter_or_disjoint (v w : dict -> bool) (l : list dict) :
  (forall z, In z l -> w z = true -> v z = false) ->
  length (List.filter (fun z => v z || w z) l)
  = (length (List.filter v l) + length (List.filter w l))%nat.
Proof.
  induction l as [|a l IH]; intros H; simpl; [done|].
  assert (IH' := IH (fun z Hz => H z (or_intror Hz))).
  destruct (v a) eqn:Ev, (w a) eqn:Ew; simpl; try lia.
  rewrite (H a (or_introl eq_refl) Ew) in Ev. discriminate.
Qed.

Lemma filter_filter' (f g : dict -> bool) (l : list dict) :
  List.filter f (List.filter g l) = List.filter (fun x => g x && f x) l.
Proof.
  induction l as [|a l IH]; simpl; [done|]. destruct (g a); simpl; [|exact IH].
  destruct (f a); simpl; congruence.
Qed.

Lemma filter_prefix (f : dict -> bool) (P R : list dict) :
  NoDup (P ++ R) -> (forall u, In u (P ++ R) -> In u P <-> f u = true) ->
  List.filter f (P ++ R) = P.
Proof.
  intros Hn H. rewrite List.filter_app.
  assert (HP : List.filter f P = P).
  { assert (H' : forall u, In u P -> f u = true)
      by (intros u Hu; apply H; [apply in_or_app; now left | exact Hu]).
    clear H Hn. induction P as [|a P IH]; simpl; [done|].
    rewrite (H' a (or_introl eq_refl)). f_equal. apply IH. intros; apply H'; now right. }
  assert (HR : List.filter f R = []).
  { apply NoDup_app in Hn as [_ [Hdis _]].
    assert (H' : forall u, In u R -> f u = false).
    { intros u Hu. destruct (f u) eqn:E; [|done]. exfalso.
      apply (Hdis u); apply list_elem_of_In; [|exact Hu].
      apply H; [apply in_or_app; now right | exact E]. }
    clear H Hdis HP. induction R as [|a R IH]; simpl; [done|].
    rewrite (H' a (or_introl eq_refl)). apply IH. intros; apply H'; now right. }
  rewrite HP, HR. apply app_nil_r.
Qed.

(** One nonempty batch, ending on the [_id] [kb]. *)
Section Step.
Variable last : option key.
Hypothesis Hne : batch c0 thr last <> [].
Local Abbreviation B := (batch c0 thr last).
Local Abbreviation b := (List.last B []).
Variable kb : key.
Hypothesis Hkb : key_of "_id" b = Some kb.

Lemma in_firstn n (S : list dict) u : In u (firstn n S) -> In u S.
Proof. intros H. rewrite <- (firstn_skipn n S). apply in_or_app. now left. Qed.

Lemma B_mem u : In u B <-> In u c0 /\ query thr last u = true /\ id_le u b = true.
Proof.
  destruct (sorted_facts last) as (Hs & Hnk & Hin & Hsome). cbv zeta in *.
  unfold batch in *. split.
  - intros Hu. pose proof (in_firstn _ _ _ Hu) as HuS.
    apply Hin in HuS as HuS'. destruct HuS' as [H1 H2]. split; [exact H1|]. split; [exact H2|].
    apply (prefix_le _ _ u Hs Hnk Hsome Hne HuS). exact Hu.
  - intros (H1 & H2 & H3). apply (prefix_le _ _ u Hs Hnk Hsome Hne); [apply Hin; auto | exact H3].
Qed.

Lemma B_nodup : NoDup (map (key_of "_id") B).
Proof.
  destruct (sorted_facts last) as (_ & Hnk & _ & _). cbv zeta in Hnk. unfold batch.
  rewrite <- (firstn_skipn BackfillSubstatus.BATCH_SIZE (sort_by_id (L last))) in Hnk.
  rewrite map_app in Hnk. apply NoDup_app in Hnk as [H _]. exact H.
Qed.

Lemma b_in : In b c0 /\ query thr last b = true.
Proof. destruct (proj1 (B_mem b) (last_in _ Hne)) as (H1 & H2 & _). auto. Qed.

Lemma id_le_b z kz : key_of "_id" z = Some kz -> id_le z b = key_le kz kb.
Proof. intros Ez. unfold id_le. now rewrite Ez, Hkb. Qed.

Lemma visited_next z :
  In z c0 -> visited thr (Some kb) z = visited thr last z || (query thr last z && id_le z b).
Proof.
  intros Hz. destruct (key_c0 z Hz) as [kz Ez]. rewrite (id_le_b z kz Ez).
  destruct b_in as [_ Hqb]. unfold query in Hqb |- *. unfold visited. rewrite Ez.
  destruct (selected thr z); [|reflexivity]. cbn [andb orb].
  destruct last as [l|]; [|reflexivity].
  apply andb_true_iff in Hqb as [_ Hqb]. rewrite Hkb in Hqb. now apply key_interval.
Qed.

Lemma B_sub u : In u B -> In u c0.
Proof. intros H. apply B_mem in H. apply H. Qed.

Lemma process_next n : fst (BackfillSubstatus.process sub_col B (state last) n) = state (Some kb).
Proof.
  rewrite process_writes. rewrite apply_writes_spec.
  2: { apply ids_ok_map; [|exact Hc0]. intros z _. destruct (visited thr last z); [apply upd_key|done]. }
  2: { apply (writes_ok_sub "_id" _ c0 B Hc0 B_sub B_nodup).
       intros d s [= <-]. rewrite fields_of_keys. simpl. intuition discriminate. }
  rewrite map_map. apply map_ext_in. intros z Hz.
  assert (Hk : key_of "_id" (if visited thr last z then set_fields z (fields_of sub_col z) else z)
               = key_of "_id" z) by (destruct (visited thr last z); [apply upd_key|done]).
  rewrite Hk, (visited_next z Hz).
  destruct (query thr last z && id_le z b) eqn:E.
  - apply andb_true_iff in E as [E1 E2].
    rewrite (write_for_mem _ B z B_sub Hz) by (apply B_mem; auto).
    rewrite (query_not_visited _ _ _ E1). reflexivity.
  - rewrite (write_for_nonmem _ B z B_sub Hz).
    + rewrite orb_false_r. reflexivity.
    + intros Hin. apply B_mem in Hin as (_ & E1 & E2). rewrite E1, E2 in E. discriminate.
Qed.

Lemma B_length : length (List.filter (fun z => query thr last z && id_le z b) c0) = length B.
Proof.
  rewrite <- filter_filter'. fold (find c0 (query thr last)).
  destruct (sorted_facts last) as (Hs & Hnk & Hin & Hsome). cbv zeta in *.
  rewrite (Permutation_length (perm_filter (fun z => id_le z b) _ _ (Permutation_sym (sort_perm _)))).
  f_equal. unfold batch.
  rewrite <- (firstn_skipn BackfillSubstatus.BATCH_SIZE (sort_by_id (L last))) at 1.
  apply filter_prefix.
  - rewrite firstn_skipn. exact (nodup_map_inv _ _ Hnk).
  - rewrite firstn_skipn. intros u Hu. apply (prefix_le _ _ u Hs Hnk Hsome Hne Hu).
Qed.

Lemma count_next :
  length (List.filter (visited thr (Some kb)) c0)
  = (length (List.filter (visited thr last) c0) + length B)%nat.
Proof.
  rewrite (filter_ext_in _ (fun z => visited thr last z || (query thr last z && id_le z b)))
    by (intros z Hz; apply visited_next, Hz).
  rewrite filter_or_disjoint, B_length; [reflexivity|].
  intros z _ H. apply andb_true_iff in H as [H _]. now apply query_not_visited.
Qed.

Lemma unvisited_next : (unvisited (Some kb) + length B)%nat = unvisited last.
Proof.
  rewrite (filter_split (fun z => selected thr z && negb (visited thr last z))
                        (fun z => query thr last z && id_le z b) c0).
  rewrite (filter_ext_in (fun z => selected thr z && negb (visited thr (Some kb) z))
             (fun z => (selected thr z && negb (visited thr last z))
                       && negb (query thr last z && id_le z b))) .
  2: { intros z Hz. rewrite visited_next by exact Hz. now rewrite negb_orb, andb_assoc. }
  rewrite (filter_ext_in (fun z => (selected thr z && negb (visited thr last z))
                                   && (query thr last z && id_le z b))
             (fun z => query thr last z && id_le z b)).
  2: { intros z _. destruct (query thr last z) eqn:Eq; [|now rewrite !andb_false_r].
       rewrite (query_not_visited _ _ _ Eq). unfold query in Eq.
       apply andb_true_iff in Eq as [-> _]. reflexivity. }
  rewrite B_length. lia.
Qed.

End Step.

Lemma inv_next last (Hne : batch c0 thr last <> []) kb
    (Hkb : key_of "_id" (List.last (batch c0 thr last) []) = Some kb) :
  inv last -> inv (Some kb).
Proof.
  destruct (b_in last Hne) as [Hb Hqb]. destruct last as [l|].
  - unfold query in Hqb. rewrite Hkb in Hqb. apply andb_true_iff in Hqb as [_ Hg].
    destruct l, kb; simpl in Hg; try discriminate; intros H; exact H.
  - intros _. destruct kb as [j|s].
    + destruct (existsb (fun z => selected thr z && negb (int_id z)) c0) eqn:E.
      * left. apply existsb_exists in E as [z' [Hz' E]].
        apply andb_true_iff in E as [Hsel Hint]. apply negb_true_iff in Hint.
        destruct (key_c0 z' Hz') as [kz Ez].
        assert (Hnot : ~ In z' (batch c0 thr None)).
        { intros Hin. apply (B_mem _ Hne) in Hin as (_ & _ & Hle). rewrite (id_le_b _ _ Hkb z' kz Ez) in Hle.
          unfold int_id in Hint. rewrite Ez in Hint. destruct kz; simpl in *; discriminate. }
        destruct (sorted_facts None) as (_ & Hnk & Hin & _). cbv zeta in *.
        assert (HzS : In z' (sort_by_id (L None))) by (apply Hin; split; [exact Hz'|]; unfold query; now rewrite Hsel).
        assert (Hlen : length (batch c0 thr None) = BackfillSubstatus.BATCH_SIZE).
        { unfold batch. rewrite length_firstn.
          destruct (Nat.le_gt_cases (length (sort_by_id (L None))) BackfillSubstatus.BATCH_SIZE) as [Hle|Hgt].
          - exfalso. apply Hnot. unfold batch. rewrite firstn_all2 by exact Hle. exact HzS.
          - lia. }
        rewrite <- Hlen. unfold selected_ints. apply nodup_incl_length; [exact (nodup_map_inv _ _ (B_nodup _))|].
        intros u Hu. apply (B_mem _ Hne) in Hu as Hu'. destruct Hu' as (Huc & Hq & Hle).
        apply filter_In. split; [exact Huc|]. unfold query in Hq. rewrite andb_true_r in Hq.
        rewrite Hq. destruct (key_c0 u Huc) as [ku Eu]. rewrite (id_le_b _ _ Hkb u ku Eu) in Hle.
        unfold int_id. rewrite Eu. destruct ku; simpl in Hle; [reflexivity | discriminate].
      * right. intros z Hz Hsel. destruct (int_id z) eqn:Ei; [reflexivity|].
        exfalso. assert (H : existsb (fun z => selected thr z && negb (int_id z)) c0 = true)
          by (apply existsb_exists; exists z; split; [exact Hz | now rewrite Hsel, Ei]).
        congruence.
    + assert (Hbs : int_id (List.last (batch c0 thr None) []) = false) by (unfold int_id; rewrite Hkb; reflexivity).
      cut (S (selected_ints c0 thr) <= length (batch c0 thr None))%nat.
      { unfold batch. rewrite length_firstn. lia. }
      unfold selected_ints. change (S (length ?l)) with (length (List.last (batch c0 thr None) [] :: l)).
      apply nodup_incl_length.
      * apply NoDup_cons. split.
        -- intros Hin. apply list_elem_of_In, filter_In in Hin as [_ Hin].
           rewrite Hbs, andb_false_r in Hin. discriminate.
        -- apply NoDup_ListNoDup, List.NoDup_filter, NoDup_ListNoDup, nodup_c0.
      * intros u [<-|Hu]; [apply last_in; exact Hne|].
        apply filter_In in Hu as [Huc Hu]. apply andb_true_iff in Hu as [Hsel Hint].
        destruct (key_c0 u Huc) as [ku Eu]. apply (B_mem _ Hne). split; [exact Huc|].
        split; [unfold query; now rewrite Hsel|]. rewrite (id_le_b _ _ Hkb u ku Eu).
        unfold int_id in Hint. rewrite Eu in Hint. destruct ku; [reflexivity | discriminate].
Qed.


Lemma final_visited last :
  inv last -> batch c0 thr last = [] -> forall z, In z c0 -> visited thr last z = reached c0 thr z.
Proof.
  intros Hinv HB z Hz.
  assert (Hq : query thr last z = false).
  { destruct (query thr last z) eqn:E; [|reflexivity]. exfalso.
    destruct (sorted_facts last) as (_ & _ & Hin & _). cbv zeta in Hin.
    assert (HzS : In z (sort_by_id (L last))) by (apply Hin; auto).
    unfold batch in HB. destruct (sort_by_id (L last)); [destruct HzS | discriminate]. }
  destruct (key_c0 z Hz) as [k Ek]. unfold query in Hq. unfold visited, reached, int_id.
  rewrite Ek in Hq |- *. destruct (selected thr z) eqn:Es; [|reflexivity]. cbn [andb] in Hq |- *.
  destruct last as [[i|s]|]; [| |discriminate]; destruct k as [m|t]; simpl in Hq |- *.
  - apply Z.ltb_ge in Hq. apply Z.leb_le. lia.
  - destruct Hinv as [H|H].
    + symmetry. apply Nat.ltb_ge. exact H.
    + specialize (H z Hz Es). unfold int_id in H. rewrite Ek in H. discriminate.
  - reflexivity.
  - apply negb_false_iff in Hq. rewrite Hq. symmetry. apply Nat.ltb_lt. exact Hinv.
Qed.

Lemma loop_result fuel last n :
  inv last -> (unvisited last < fuel)%nat ->
  BackfillSubstatus.total n = length (List.filter (visited thr last) c0) ->
  (BackfillSubstatus.null_or_invalid_code n + BackfillSubstatus.mapped n
   + BackfillSubstatus.unmatched n)%nat = BackfillSubstatus.total n ->
  exists n', loop fuel sub_col (state last) thr last n
             = Some (map (fun z => if reached c0 thr z then set_fields z (fields_of sub_col z) else z) c0, n')
    /\ BackfillSubstatus.total n' = length (List.filter (reached c0 thr) c0)
    /\ (BackfillSubstatus.null_or_invalid_code n' + BackfillSubstatus.mapped n'
        + BackfillSubstatus.unmatched n')%nat = BackfillSubstatus.total n'.
Proof.
  revert last n. induction fuel as [|f IH]; intros last n Hinv Hf Ht Hs; [lia|].
  cbn [loop]. rewrite batch_state. destruct (batch c0 thr last) as [|d ds] eqn:EB.
  - exists n. split; [|split; [|exact Hs]].
    + do 2 f_equal. apply map_ext_in. intros z Hz. now rewrite (final_visited last Hinv EB z Hz).
    + rewrite Ht. f_equal. apply filter_ext_in. intros z Hz. exact (final_visited last Hinv EB z Hz).
  - assert (Hne : batch c0 thr last <> []) by (rewrite EB; discriminate).
    rewrite <- EB.
    assert (Hbc : In (List.last (batch c0 thr last) []) c0)
      by (apply (B_mem last Hne), last_in, Hne).
    destruct (key_c0 _ Hbc) as [kb Hkb]. rewrite Hkb.
    pose proof (process_next last Hne kb Hkb n) as Hp.
    destruct (process_tally sub_col (batch c0 thr last) (state last) n) as [T1 T2].
    destruct (BackfillSubstatus.process sub_col (batch c0 thr last) (state last) n) as [c' n'].
    cbn [fst snd] in Hp, T1, T2. subst c'.
    pose proof (unvisited_next last Hne kb Hkb) as U.
    pose proof (count_next last Hne kb Hkb) as C.
    assert (Hlen : (0 < length (batch c0 thr last))%nat) by (rewrite EB; simpl; lia).
    apply IH.
    + exact (inv_next last Hne kb Hkb Hinv).
    + lia.
    + lia.
    + lia.
Qed.

Lemma state_none : state None = c0.
Proof.
  rewrite <- (map_id c0) at 2. apply map_ext. intros z. unfold visited.
  now rewrite andb_false_r.
Qed.

(** [run] on a collection with int and text [_id]s. *)
Lemma run_result :
  exists n, BackfillSubstatus.run sub_col c0 thr
            = Some (map (fun z => if reached c0 thr z then set_fields z (fields_of sub_col z) else z) c0, n)
    /\ BackfillSubstatus.total n = length (List.filter (reached c0 thr) c0)
    /\ (BackfillSubstatus.null_or_invalid_code n + BackfillSubstatus.mapped n
        + BackfillSubstatus.unmatched n)%nat = BackfillSubstatus.total n.
Proof.
  destruct (loop_result (S (length c0)) None BackfillSubstatus.counts0) as [n' H].
  - exact I.
  - pose proof (filter_length_le (fun z => selected thr z && negb (visited thr None z)) c0). lia.
  - cbn. rewrite (filter_ext_in _ (fun _ => false)) by (intros z _; unfold visited; now rewrite andb_false_r).
    clear. induction c0 as [|a l IH]; [reflexivity | exact IH].
  - reflexivity.
  - exists n'. rewrite state_none in H. exact H.
Qed.

End Paging.
End PagingFacts.

Module SubstatusClaims.
Import Py Mongo UpdateFacts SubstatusFacts.
Import BackfillSubstatus (fields_of).






End SubstatusClaims.

Module CTClaims.
Import Py Mongo UpdateFacts LoopFacts CTFacts.

(** C3: in both CT jobs ([backfill_ct.py] and
    [orchestrator/jobs/get_ct.py]) a dispatch with no extractable CODCOMU
    code, or whose code has no CT row or a row without a CT value, is
    still in the collection exactly as it was after the run, and is the
    only document with its [_id]: its [ct] and [ct_match_codcomu] are
    neither written nor nulled, also when the run ends by an exception.
    When the run ends normally, the "no code" counter counts the processed
    dispatches of the first kind and the "not found" counter those of the
    second. *)
Theorem C3_ct_unmatched_left_unmodified (ct_col c : collection) (thr : string)
    (Hc : ids_ok "_id" c) :
  (forall x, In x c ->
     BackfillCT.is_no_code BackfillCT._extract_codcomu_value x = true
     \/ BackfillCT.is_not_found BackfillCT._extract_codcomu_value ct_col x = true ->
     let c' := fst (fst (BackfillCT.run ct_col c thr)) in
     In x c' /\ forall y, In y c' -> key_of "_id" y = key_of "_id" x -> y = x)
  /\ (forall x, In x c ->
     BackfillCT.is_no_code GetCT._extract_codcomu_value x = true
     \/ BackfillCT.is_not_found GetCT._extract_codcomu_value ct_col x = true ->
     let c' := fst (fst (GetCT.run ct_col c)) in
     In x c' /\ forall y, In y c' -> key_of "_id" y = key_of "_id" x -> y = x)
  /\ (forall c' n, BackfillCT.run ct_col c thr = (c', n, None) ->
     let docs := find c (BackfillCT.selected thr) in
     BackfillCT.no_codcomu n
     = length (List.filter (BackfillCT.is_no_code BackfillCT._extract_codcomu_value) docs)
     /\ BackfillCT.not_found n
     = length (List.filter (BackfillCT.is_not_found BackfillCT._extract_codcomu_value ct_col) docs))
  /\ (forall c' n, GetCT.run ct_col c = (c', n, None) ->
     let docs := find c GetCT.selected in
     BackfillCT.no_codcomu n
     = length (List.filter (BackfillCT.is_no_code GetCT._extract_codcomu_value) docs)
     /\ BackfillCT.not_found n
     = length (List.filter (BackfillCT.is_not_found GetCT._extract_codcomu_value ct_col) docs)).
Proof.
  split; [|split; [|split]].
  - intros x Hx Hk. apply ct_frame; auto.
  - intros x Hx Hk. apply ct_frame; auto.
  - intros c' n Hr docs. apply ct_tally in Hr. exact Hr.
  - intros c' n Hr docs. apply ct_tally in Hr. exact Hr.
Qed.

(** Both CT jobs on a CT table with the code 13101 and three recent
    dispatches: one with [ct] null and no tags, one whose code 99999 has
    no row, and one matched. *)
Lemma C3_ct_unmatched_left_unmodified_witness :
  let ct_col := [[("Id Externo", PStr "13101"); ("CT CORRESPONDE", PStr "CT1")]]%string in
  let tag v := PList [PDict [("name", PStr "CODCOMU"); ("value", PStr v)]]%string in
  let x1 := [("_id", PInt 1); ("ct", PNone); ("sync_timestamp", PStr "2025-11-26");
             ("tags", PList []); ("dispatch_raw", PDict [("tags", PList [])])]%string in
  let x2 := [("_id", PInt 2); ("sync_timestamp", PStr "2025-11-26");
             ("tags", tag "99999"); ("dispatch_raw", PDict [("tags", tag "99999")])]%string in
  let x3 := [("_id", PInt 3); ("sync_timestamp", PStr "2025-11-26");
             ("tags", tag "13101"); ("dispatch_raw", PDict [("tags", tag "13101")])]%string in
  let r1 := BackfillCT.run ct_col [x1; x2; x3] "2025-11-25"%string in
  let r2 := GetCT.run ct_col [x1; x2; x3] in
  In x1 (fst (fst r1)) /\ In x2 (fst (fst r1)) /\ In x1 (fst (fst r2)) /\ In x2 (fst (fst r2))
  /\ BackfillCT.no_codcomu (snd (fst r1)) = 1%nat /\ BackfillCT.not_found (snd (fst r1)) = 1%nat
  /\ BackfillCT.no_codcomu (snd (fst r2)) = 1%nat /\ BackfillCT.not_found (snd (fst r2)) = 1%nat.
Proof.
  intros ct_col tag x1 x2 x3 r1 r2.
  assert (H : ids_ok "_id" [x1; x2; x3]) by (unfold x1, x2, x3; solve_ids_ok).
  destruct (C3_ct_unmatched_left_unmodified ct_col _ "2025-11-25"%string H) as (H1 & H2 & H3 & H4).
  assert (E1 : BackfillCT.run ct_col [x1; x2; x3] "2025-11-25"%string
               = (fst (fst r1), snd (fst r1), None)) by (vm_compute; reflexivity).
  assert (E2 : GetCT.run ct_col [x1; x2; x3] = (fst (fst r2), snd (fst r2), None))
    by (vm_compute; reflexivity).
  destruct (H3 _ _ E1) as [A1 B1]. destruct (H4 _ _ E2) as [A2 B2].
  assert (N1 : BackfillCT.is_no_code BackfillCT._extract_codcomu_value x1 = true) by reflexivity.
  assert (F1 : BackfillCT.is_not_found BackfillCT._extract_codcomu_value ct_col x2 = true)
    by (vm_compute; reflexivity).
  assert (N2 : BackfillCT.is_no_code GetCT._extract_codcomu_value x1 = true) by reflexivity.
  assert (F2 : BackfillCT.is_not_found GetCT._extract_codcomu_value ct_col x2 = true)
    by (vm_compute; reflexivity).
  split; [apply H1; [now left | left; exact N1]|].
  split; [apply H1; [right; now left | right; exact F1]|].
  split; [apply H2; [now left | left; exact N2]|].
  split; [apply H2; [right; now left | right; exact F2]|].
  split; [rewrite A1; vm_compute; reflexivity|].
  split; [rewrite B1; vm_compute; reflexivity|].
  split; [rewrite A2; vm_compute; reflexivity|].
  rewrite B2; vm_compute; reflexivity.
Defined.

(** C9 (code bug): the CODCOMU extractors of [backfill_ct.py],
    [backfill_substatus.py] and [orchestrator/jobs/get_ct.py] call [.get]
    on every tag entry and raise [AttributeError] on a tag list whose
    first entry is not a dict, although a CODCOMU tag follows; the tag
    extractors of the Date and Category Backfills skip such entries and
    never raise. *)
Theorem C9_codcomu_extractor_raises_on_non_dict_tag :
  let tag := PDict [("name", PStr "CODCOMU"); ("value", PStr "13101")]%string in
  BackfillCT._extract_codcomu_value [("tags", PList [PStr "x"; tag])]%string = Err AttributeError
  /\ BackfillSubstatus._extract_codcomu_value [("tags", PList [PStr "x"; tag])]%string
     = Err AttributeError
  /\ GetCT._extract_codcomu_value [("dispatch_raw", PDict [("tags", PList [PNone; tag])])]%string
     = Err AttributeError
  /\ BackfillCT._extract_codcomu_value [("tags", PList [tag])]%string = Ok (Some "13101"%string)
  /\ BackfillCompromiseDate.extract_fecsoldes
       (PList [PStr "x"; PDict [("name", PStr "FECSOLDES"); ("value", PStr "20251126")]])%string
     = Ok (PStr "20251126"%string)
  /\ (forall tags, exists v, BackfillCompromiseDate.extract_fecsoldes tags = Ok v)
  /\ (forall tags, exists v, BackfillTipoOrden.extract_tipo_orden tags = Ok v)
  /\ (forall name tags, exists v, JobsBackfillTipoOrden.tag_scan name tags = Ok v).
Proof.
  cbv zeta. split; [reflexivity|]. split; [reflexivity|]. split; [reflexivity|].
  split; [reflexivity|]. split; [reflexivity|]. split; [|split].
  - intros [] ; try (eexists; reflexivity).
    induction l as [|t l [v IH]]; [eexists; reflexivity|]. simpl.
    destruct (is_dict t) eqn:Et; [|eauto].
    destruct t; try discriminate. cbn [get bind]. destruct (eq_str _ _); eauto.
  - intros [] ; try (eexists; reflexivity).
    induction l as [|t l [v IH]]; [eexists; reflexivity|]. simpl.
    destruct (is_dict t) eqn:Et; [|eauto].
    destruct t; try discriminate. cbn [get bind]. destruct (eq_str _ _); eauto.
  - intros name tags. induction tags as [|t l [v IH]]; [eexists; reflexivity|]. simpl.
    destruct (is_dict t) eqn:Et; [|eauto].
    destruct t; try discriminate. cbn [get bind]. destruct (eq_str _ _); eauto.
Qed.

End CTClaims.

(* ------------------------------------------------------------------ *)
(** ** The Date and Category Backfills *)

Module BackfillClaims.
Import Py Mongo UpdateFacts LoopFacts TagFacts.
Local Open Scope string_scope.

(** C7 (code bug): on a corpus with one dispatch per [identifier] and
    per [_id], a first pass of the Date Backfill, and one of the Category
    Backfill script, with a sync threshold ends normally, and a second
    pass on its result with the same or a later threshold writes nothing
    ([updated] = 0) and leaves the collection as it is; so does a second
    pass of the pipeline's Category Backfill when reading TIPO_ORDEN from
    [dispatch_raw.tags] neither raises nor gives an array. But when the
    TIPO_ORDEN tag value of a dispatch is an array holding None or [""],
    the job's first pass writes that array to [tipo_orden]; its query
    ([tipo_orden] null or [""], which an array matches by an element)
    selects the dispatch again, and the second pass issues the same write
    again and counts it as updated. *)
Theorem C7_second_pass_rewrites_array (c : collection) (thr1 thr2 : string)
    (Hident : ids_ok "identifier" c) (Hid : ids_ok "_id" c)
    (Ht : String.leb thr1 thr2 = true)
    (Htags : forall x, In x c -> exists v,
       JobsBackfillTipoOrden._get_tag_value_from_dispatch
         (JobsBackfillTipoOrden.project_dispatch_raw_tags x) "TIPO_ORDEN" = Ok v /\
       forall l, v <> PList l)
    (x : dict) (l : list pyval) (Hx : is_Some (key_of "_id" x))
    (Hsel : JobsBackfillTipoOrden.selected x = true)
    (Hv : JobsBackfillTipoOrden._get_tag_value_from_dispatch
            (JobsBackfillTipoOrden.project_dispatch_raw_tags x) "TIPO_ORDEN" = Ok (PList l))
    (Hl : In PNone l \/ In (PStr "") l) :
  (snd (BackfillCompromiseDate.run c thr1) = None /\
   BackfillCompromiseDate.run (fst (fst (BackfillCompromiseDate.run c thr1))) thr2
   = (fst (fst (BackfillCompromiseDate.run c thr1)), 0%nat, None))
  /\ (snd (BackfillTipoOrden.run c thr1) = None /\
      exists a, BackfillTipoOrden.run (fst (fst (BackfillTipoOrden.run c thr1))) thr2
      = (fst (fst (BackfillTipoOrden.run c thr1)), (a, 0%nat), None))
  /\ (snd (JobsBackfillTipoOrden.run c) = None /\
      exists a b, JobsBackfillTipoOrden.run (fst (fst (JobsBackfillTipoOrden.run c)))
      = (fst (fst (JobsBackfillTipoOrden.run c)), (a, 0%nat, b), None))
  /\ (JobsBackfillTipoOrden.run [x]
      = ([set_fields x [("tipo_orden", PList l)]], (1, 1, 0)%nat, None)
      /\ JobsBackfillTipoOrden.run [set_fields x [("tipo_orden", PList l)]]
         = ([set_fields x [("tipo_orden", PList l)]], (1, 1, 0)%nat, None)).
Proof.
  split; [now apply date_idem|]. split; [now apply tipo_idem|]. split; [now apply job_idem|].
  assert (Htr : truthy (PList l) = true).
  { destruct l; [destruct Hl as [[]|[]] | reflexivity]. }
  split; [now apply job_single_write|].
  set (x' := set_fields x [("tipo_orden", PList l)]).
  rewrite (job_single_write x' (PList l)).
  - change (set_fields x' [("tipo_orden", PList l)]) with (dict_set x' "tipo_orden" (PList l)).
    rewrite dict_set_same; [reflexivity | apply lookup_set_tipo].
  - unfold x'. rewrite (id_of_set_fields (k := "_id")) by (cbn; intuition discriminate).
    exact Hx.
  - apply job_selected_iff. right; right; right. exists l. split; [apply lookup_set_tipo | exact Hl].
  - unfold x'. rewrite project_set_tipo. exact Hv.
  - exact Htr.
Qed.

Lemma C7_second_pass_rewrites_array_witness :
  let x0 := [("_id", PInt 1); ("identifier", PStr "D1"); ("sync_timestamp", PStr "2025-11-26");
             ("tags", PList [PDict [("name", PStr "FECSOLDES"); ("value", PStr "20251201")];
                             PDict [("name", PStr "TIPO_ORDEN"); ("value", PStr "B2C")]]);
             ("dispatch_raw", PDict [("tags", PList [PDict [("name", PStr "TIPO_ORDEN");
                                                           ("value", PStr "B2C")]])])] in
  let x := [("_id", PInt 2); ("identifier", PStr "D2"); ("sync_timestamp", PStr "2025-11-26");
            ("dispatch_raw", PDict [("tags", PList [PDict [("name", PStr "TIPO_ORDEN");
                                                          ("value", PList [PStr ""; PStr "A"])]])])] in
  JobsBackfillTipoOrden.run [set_fields x [("tipo_orden", PList [PStr ""; PStr "A"])]]
  = ([set_fields x [("tipo_orden", PList [PStr ""; PStr "A"])]], (1, 1, 0)%nat, None).
Proof.
  intros x0 x.
  refine (proj2 (proj2 (proj2 (proj2
            (C7_second_pass_rewrites_array [x0] "2025-11-25" "2025-11-26" _ _ _ _
               x [PStr ""; PStr "A"] _ _ _ _))))).
  - solve_ids_ok.
  - solve_ids_ok.
  - reflexivity.
  - intros y [<-|[]]. eexists. split; [vm_compute; reflexivity | intros l; discriminate].
  - eexists. reflexivity.
  - reflexivity.
  - vm_compute. reflexivity.
  - right. left. reflexivity.
Defined.

(** C8 (code bug): the pipeline's Category Backfill selects a dispatch
    whose [tipo_orden] is an array with a None or [""] element, a
    non-empty value, and overwrites it: for such a dispatch with an
    [_id] whose TIPO_ORDEN tag value is truthy, a run on it writes the
    tag value over the array. The Category Backfill script does not
    re-attempt a [tipo_orden] that is None or [""]: it selects no
    dispatch that has the field, and on a collection with distinct
    [_id]s every dispatch with the field is left as it was, alone with
    its [_id]. *)
Theorem C8_array_tipo_orden_rewritten (x : dict) (l : list pyval) (v : pyval)
    (Hx : is_Some (key_of "_id" x)) (Hto : dict_lookup x "tipo_orden" = Some (PList l))
    (Hl : In PNone l \/ In (PStr "") l)
    (Hv : JobsBackfillTipoOrden._get_tag_value_from_dispatch
            (JobsBackfillTipoOrden.project_dispatch_raw_tags x) "TIPO_ORDEN" = Ok v)
    (Htr : truthy v = true) :
  JobsBackfillTipoOrden.run [x] = ([set_fields x [("tipo_orden", v)]], (1, 1, 0)%nat, None)
  /\ (forall thr d, field_exists d "tipo_orden" = true -> BackfillTipoOrden.selected thr d = false)
  /\ (forall c thr, ids_ok "_id" c ->
        forall y, In y c -> field_exists y "tipo_orden" = true ->
        In y (fst (fst (BackfillTipoOrden.run c thr))) /\
        forall z, In z (fst (fst (BackfillTipoOrden.run c thr))) ->
                  key_of "_id" z = key_of "_id" y -> z = y).
Proof.
  split; [|split].
  - apply job_single_write; [exact Hx | | exact Hv | exact Htr].
    apply job_selected_iff. right; right; right. eauto.
  - intros thr d Hex. unfold BackfillTipoOrden.selected. rewrite Hex. reflexivity.
  - intros c thr Hc y Hy Hex. unfold BackfillTipoOrden.run, find.
    apply (loop_frame "_id" _ (BackfillTipoOrden.selected thr) (0, 0)%nat tipo_ind
             (tipo_keys _) c y Hc Hy).
    unfold BackfillTipoOrden.selected. rewrite Hex. discriminate.
Qed.

Lemma C8_array_tipo_orden_rewritten_witness :
  let x := [("_id", PInt 1); ("tipo_orden", PList [PStr ""; PStr "A"]);
            ("dispatch_raw", PDict [("tags", PList [PDict [("name", PStr "TIPO_ORDEN");
                                                          ("value", PStr "B")]])])] in
  JobsBackfillTipoOrden.run [x] = ([set_fields x [("tipo_orden", PStr "B")]], (1, 1, 0)%nat, None).
Proof.
  intros x.
  refine (proj1 (C8_array_tipo_orden_rewritten x [PStr ""; PStr "A"] (PStr "B") _ _ _ _ _)).
  - eexists. reflexivity.
  - reflexivity.
  - right. left. reflexivity.
  - vm_compute. reflexivity.
  - reflexivity.
Defined.

End BackfillClaims.

(* ------------------------------------------------------------------ *)
(** ** The Actualization Controller *)

Module ActualizationClaims.
Import Py Mongo RunActualization ActualizationFacts.

(** C1 (counterexample): step 3.3 keeps only the routes with a truthy
    [route_key]. An open route without [route_key], whose date the
    tracker lists, is not selected, even with [delta_time_update] = 0. *)
Lemma C1_open_route_not_selected :
  let r := [("date", PStr "2025-11-26"); ("page", PInt 1)] in
  (match _get_dates_and_pages_for_open_routes [r] with
   | Ok m => option_map pages (m !! "2025-11-26")
   | Err _ => None
   end) = Some {[1]} /\
  step33_threshold 0 1764158400000 = Ok None /\
  route_keys [r] "2025-11-26" None = [].
Proof. split; [|split]; vm_compute; reflexivity. Qed.

(** C1 (amended): let [now_utc] be a datetime. With [delta_time_update]
    = [h] > 0, step 3.3 raises [OverflowError] when [now_utc - h] hours is
    before [datetime.min]. Otherwise it computes its staleness bound, and
    a route of the collection, whose [last_processed_at] is absent or a
    date, is selected for the per-route pipeline of date [day] exactly
    when its [date] is [day], it is open, its [route_key] is truthy, and
    either [h] is at most 0, or its [last_processed_at] is absent, or it
    is at least [h] hours before [now_utc]. With [h] = 24, of two such
    routes processed 1 and 30 hours ago only the second is selected. *)
Theorem C1_route_selection_amended (routes : collection) (day : string) (h now_ms : Z)
    (Hnow : datetime_min_ms <= now_ms <= datetime_max_ms) :
  (0 < h -> now_ms - h * 3600000 < datetime_min_ms -> step33_threshold h now_ms = Err OverflowError)
  /\ (h <= 0 \/ datetime_min_ms <= now_ms - h * 3600000 ->
      exists thr, step33_threshold h now_ms = Ok thr /\
      forall doc, In doc routes ->
        (dict_lookup doc "last_processed_at" = None \/
         exists ms, dict_lookup doc "last_processed_at" = Some (PDatetime ms)) ->
        (In doc (route_docs routes day thr) <->
         field_eq doc "date" (PStr day) = true /\ is_open doc = true /\
         truthy (dict_get doc "route_key") = true /\
         (h <= 0 \/ dict_lookup doc "last_processed_at" = None \/
          exists ms, dict_lookup doc "last_processed_at" = Some (PDatetime ms) /\
                     ms <= now_ms - h * 3600000)))
  /\ (datetime_min_ms <= now_ms - 30 * 3600000 ->
      exists thr, step33_threshold 24 now_ms = Ok thr /\
      route_keys [[("route_key", PStr "R1"); ("date", PStr day);
                   ("last_processed_at", PDatetime (now_ms - 3600000))];
                  [("route_key", PStr "R2"); ("date", PStr day);
                   ("last_processed_at", PDatetime (now_ms - 30 * 3600000))]] day thr
      = [PStr "R2"]).
Proof.
  pose proof (step33_threshold_spec h now_ms Hnow) as Hs.
  split; [|split].
  - intros Hh Ht. rewrite Hs, (proj2 (Z.ltb_lt _ _) Hh), (proj2 (Z.leb_gt _ _) Ht). reflexivity.
  - intros Hh. destruct (Z.ltb_spec 0 h) as [Hp|Hp].
    + assert (Ht : datetime_min_ms <= now_ms - h * 3600000) by (destruct Hh; [lia | exact H]).
      rewrite (proj2 (Z.leb_le _ _) Ht) in Hs.
      exists (Some (now_ms - h * 3600000)). split; [exact Hs|].
      intros doc Hin Hlast. rewrite (route_docs_spec routes day _ doc Hin Hlast).
      split; intros (A & B & C & D); (split; [exact A|]); (split; [exact B|]); (split; [exact C|]).
      * right. exact D.
      * destruct D as [D|D]; [lia | exact D].
    + exists None. split; [exact Hs|].
      intros doc Hin Hlast. rewrite (route_docs_spec routes day _ doc Hin Hlast).
      split; intros (A & B & C & D); repeat split; auto.
  - intros H30.
    pose proof (step33_threshold_spec 24 now_ms Hnow) as H24. cbn [Z.ltb Z.compare] in H24.
    rewrite (proj2 (Z.leb_le _ _)) in H24 by (unfold datetime_min_ms in *; lia).
    exists (Some (now_ms - 24 * 3600000)). split; [exact H24|].
    assert (Hr1 : criteria day (Some (now_ms - 24 * 3600000))
                    [("route_key", PStr "R1"); ("date", PStr day);
                     ("last_processed_at", PDatetime (now_ms - 3600000))] = false).
    { unfold criteria, field_eq, field_ne, field_lte, field_cmp, field_exists. cbn.
      rewrite String.eqb_refl.
      replace (now_ms - 3600000 <=? now_ms - 24 * 3600000) with false
        by (symmetry; apply Z.leb_gt; lia).
      reflexivity. }
    assert (Hr2 : criteria day (Some (now_ms - 24 * 3600000))
                    [("route_key", PStr "R2"); ("date", PStr day);
                     ("last_processed_at", PDatetime (now_ms - 30 * 3600000))] = true).
    { unfold criteria, field_eq, field_ne, field_lte, field_cmp, field_exists. cbn.
      rewrite String.eqb_refl.
      replace (now_ms - 30 * 3600000 <=? now_ms - 24 * 3600000) with true
        by (symmetry; apply Z.leb_le; lia).
      reflexivity. }
    unfold route_keys, route_docs, find. cbn [List.filter]. rewrite Hr1, Hr2. reflexivity.
Qed.

Lemma C1_route_selection_amended_witness :
  let doc := [("route_key", PStr "R7"); ("date", PStr "2025-11-26");
              ("last_processed_at", PDatetime 1764050400000)] in
  exists thr, step33_threshold 24 1764158400000 = Ok thr /\
              In doc (route_docs [doc] "2025-11-26" thr).
Proof.
  intros doc.
  assert (Hnow : datetime_min_ms <= 1764158400000 <= datetime_max_ms)
    by (unfold datetime_min_ms, datetime_max_ms; lia).
  assert (H24 : 24 <= 0 \/ datetime_min_ms <= 1764158400000 - 24 * 3600000)
    by (right; unfold datetime_min_ms; lia).
  destruct (proj1 (proj2 (C1_route_selection_amended [doc] "2025-11-26" 24 1764158400000 Hnow))
              H24) as [thr [E H]].
  exists thr. split; [exact E|].
  apply (proj2 (H doc (or_introl eq_refl) (or_intror (ex_intro _ 1764050400000 eq_refl)))).
  split; [reflexivity|]. split; [reflexivity|]. split; [reflexivity|].
  right; right. exists 1764050400000. split; [reflexivity | lia].
Defined.

(** C5: when every open route's [page] is absent, None or an int, the
    Route State Tracker returns normally; its dates are exactly the dates
    of the open routes; the pages of a date are exactly the [page]s of its
    open routes, and [has_missing_page] of a date is true exactly when one
    of its open routes has no [page] (absent or None), whatever pages the
    others carry. Closed routes take no part. *)
Theorem C5_tracker_pages_and_missing (routes : collection)
    (Hpage : forall doc, In doc routes -> is_open doc = true ->
       dict_get doc "page" = PNone \/ exists p, dict_get doc "page" = PInt p) :
  exists result, _get_dates_and_pages_for_open_routes routes = Ok result /\
  forall day,
    (is_Some (result !! day) <->
       exists doc, In doc routes /\ is_open doc = true /\ open_route_date doc = Some day) /\
    forall i, result !! day = Some i ->
      (forall p, p ∈ pages i <->
         exists doc, In doc routes /\ is_open doc = true /\
           open_route_date doc = Some day /\ dict_get doc "page" = PInt p) /\
      (has_missing_page i = true <->
         exists doc, In doc routes /\ is_open doc = true /\
           open_route_date doc = Some day /\ dict_get doc "page" = PNone).
Proof.
  destruct (tracker_spec routes Hpage) as [r [E H]]. exists r. split; [exact E|].
  intros day. destruct (H day) as [H1 H2]. split.
  - rewrite H1. apply ex_filter.
  - intros i Hi. destruct (H2 i Hi) as [Hp Hm].
    split; [intros p; rewrite Hp | rewrite Hm]; apply ex_filter.
Qed.

Lemma C5_tracker_pages_and_missing_witness :
  let routes := [[("date", PStr "2025-11-25"); ("page", PInt 1)];
                 [("date", PStr "2025-11-25"); ("page", PInt 2)];
                 [("date", PStr "2025-11-25")]] in
  exists i, match _get_dates_and_pages_for_open_routes routes with
            | Ok r => r !! "2025-11-25"
            | Err _ => None
            end = Some i /\ has_missing_page i = true /\ 1 ∈ pages i.
Proof.
  intros routes.
  destruct (C5_tracker_pages_and_missing routes) as [r [E H]].
  - intros doc Hd _. destruct Hd as [<-|[<-|[<-|[]]]];
      first [left; reflexivity | right; eexists; reflexivity].
  - rewrite E. destruct (H "2025-11-25") as [H1 H2].
    destruct (proj2 H1) as [i Hi].
    + exists [("date", PStr "2025-11-25")]. split; [right; right; now left | split; reflexivity].
    + exists i. split; [exact Hi|]. destruct (H2 i Hi) as [Hp Hm]. split.
      * apply Hm. exists [("date", PStr "2025-11-25")].
        split; [right; right; now left | split; [reflexivity | split; reflexivity]].
      * apply Hp. exists [("date", PStr "2025-11-25"); ("page", PInt 1)].
        split; [now left | split; [reflexivity | split; reflexivity]].
Defined.


Lemma tracker_one_route :
  _get_dates_and_pages_for_open_routes [[("date", PStr "2025-11-20"); ("page", PInt 3)]]
  = Ok (<["2025-11-20" := {| pages := {[3]}; has_missing_page := false |}]> ∅).
Proof. vm_compute. reflexivity. Qed.


End ActualizationClaims.

(* ------------------------------------------------------------------ *)
(** ** Failures of the DispatchTrack API in the standalone pipeline *)

Module FetchClaims.
Import Py FetchDispatches.

(** C10 (code bug): when a request of [fetch_dispatches_by_dates] returns
    a status other than 200, the function logs it and leaves its loop:
    it returns normally with the pages saved so far, the script exits
    with 0, and [run_jobs.main] goes on with every backfill, as after a
    complete fetch. *)
Theorem C10_non2xx_status_ends_fetch_normally (api : Z -> res response) (fuel : nat)
    (page : Z) (saved : list dict) (r : response)
    (Hapi : api page = Ok r) (Hst : status_code r <> 200) :
  fetch_dispatches_by_dates api (S fuel) page saved = Some (Ok saved) /\
  script_exit (Ok saved) = 0 /\
  forall exit_code,
    exit_code "python fetch_dispatches.py"%string = script_exit (Ok saved) ->
    (forall c, In c RunJobs.commands -> c <> "python fetch_dispatches.py"%string ->
               exit_code c = 0) ->
    RunJobs.main exit_code = Ok RunJobs.commands.
Proof.
  split; [|split; [reflexivity|]].
  - cbn [fetch_dispatches_by_dates]. rewrite Hapi.
    destruct (Z.eqb_spec (status_code r) 200); [contradiction | reflexivity].
  - intros exit_code H0 Hc. cbn in H0.
    unfold RunJobs.main, RunJobs.commands. cbn [RunJobs.run_all].
    unfold RunJobs.run_command at 1. rewrite H0. cbn [Z.eqb bind RunJobs.run_all].
    unfold RunJobs.run_command.
    rewrite !Hc by (cbn; first [tauto | discriminate]).
    reflexivity.
Qed.

Lemma C10_non2xx_status_ends_fetch_normally_witness :
  let d : dict := [("identifier", PStr "A1")] in
  let api := fun p : Z => if p =? 1 then Ok {| status_code := 200; response_dispatches := [d] |}
                          else Ok {| status_code := 503; response_dispatches := [] |} in
  fetch_dispatches_by_dates api 2 2 [d] = Some (Ok [d]) /\ main api 3 = Some 0.
Proof.
  intros d api. split.
  - apply (proj1 (C10_non2xx_status_ends_fetch_normally api 1 2 [d]
                    {| status_code := 503; response_dispatches := [] |} eq_refl
                    ltac:(cbn; lia))).
  - vm_compute. reflexivity.
Defined.

End FetchClaims.

(* ------------------------------------------------------------------ *)
(** ** Further properties of the jobs

    Decimal texts and [int] ([StringFacts]); the actualization run
    ([ExtraActualization]); the job launchers of [run_jobs.py] and
    [run_daily_pipeline.py] ([ExtraJobs]); [get_details_from_route]
    ([ExtraDetails]); [fetch_dispatches.py] ([ExtraDispatches]); the
    backfill scripts and jobs ([ExtraBackfill], [ExtraSubstatus],
    [ExtraTipoOrdenJob], [ExtraCodcomu]). *)

Module StringFacts.
Import Py Mongo.

Lemma digits_value_acc_shift s a :
  digits_value_acc s a = a * 10 ^ Z.of_nat (String.length s) + digits_value_acc s 0.
Proof.
  revert a. induction s as [|c r IH]; intros a; simpl; [lia|].
  rewrite IH. symmetry. rewrite IH. rewrite Nat2Z.inj_succ, Z.pow_succ_r by lia. lia.
Qed.

Lemma digit_char_code m : (m < 10)%N -> a_code (ascii_of_N (48 + m)) = (48 + N.to_nat m)%nat.
Proof.
  intros H. unfold a_code, nat_of_ascii. rewrite N_ascii_embedding by lia. lia.
Qed.

Lemma string_of_N_fuel_value f n acc :
  (n < 2 ^ N.of_nat f)%N ->
  digits_value_acc (string_of_N_fuel f n acc) 0
  = Z.of_N n * 10 ^ Z.of_nat (String.length acc) + digits_value_acc acc 0.
Proof.
  revert n acc. induction f as [|f IH]; intros n acc Hn.
  - simpl in Hn. assert (n = 0%N) as -> by lia. simpl. lia.
  - cbn [string_of_N_fuel].
    assert (Hd : digits_value_acc (String (ascii_of_N (48 + n mod 10)) acc) 0
                 = Z.of_N (n mod 10) * 10 ^ Z.of_nat (String.length acc) + digits_value_acc acc 0).
    { cbn [digits_value_acc]. rewrite digits_value_acc_shift.
      rewrite digit_char_code by (apply N.mod_lt; lia).
      rewrite (Nat.add_comm 48), Nat.add_sub, N_nat_Z. lia. }
    destruct (N.eqb_spec (n / 10) 0) as [E|E].
    + rewrite Hd. assert (n mod 10 = n)%N as ->
        by (pose proof (N.div_mod n 10 ltac:(lia)); lia). reflexivity.
    + rewrite IH.
      * cbn [String.length]. rewrite Hd. rewrite Nat2Z.inj_succ, Z.pow_succ_r by lia.
        pose proof (N.div_mod n 10 ltac:(lia)). lia.
      * rewrite Nat2N.inj_succ, N.pow_succ_r' in Hn.
        apply N.Div0.div_lt_upper_bound.
        assert (2 ^ N.of_nat f <> 0)%N by (apply N.pow_nonzero; lia). nia.
Qed.

Lemma is_digit_not_space c : is_digit c = true -> is_space c = false.
Proof.
  unfold is_digit, is_space. remember (a_code c) as n.
  rewrite !andb_true_iff, !Nat.leb_le. intros [H1 H2].
  apply orb_false_iff. split; apply andb_false_iff;
    destruct (Nat.leb_spec 9 n), (Nat.leb_spec n 13), (Nat.leb_spec 28 n), (Nat.leb_spec n 32);
    lia || auto.
Qed.

Lemma string_of_N_fuel_digits f n acc :
  all_digits acc = true -> all_digits (string_of_N_fuel f n acc) = true.
Proof.
  revert n acc. induction f as [|f IH]; intros n acc Ha; simpl; [done|].
  assert (Hc : all_digits (String (ascii_of_N (48 + n mod 10)) acc) = true).
  { cbn [all_digits]. rewrite Ha, andb_true_r. unfold is_digit.
    rewrite digit_char_code by (apply N.mod_lt; lia).
    assert (Hm : (n mod 10 < 10)%N) by (apply N.mod_lt; discriminate).
    apply N2Z.inj_lt in Hm. rewrite <- N_nat_Z in Hm. simpl in Hm.
    generalize dependent (N.to_nat (n mod 10)); intros m Hm.
    apply andb_true_iff; split; apply Nat.leb_le; lia. }
  destruct (n / 10 =? 0)%N; [exact Hc|]. now apply IH.
Qed.

Lemma string_of_N_fuel_nonempty f n acc :
  string_of_N_fuel (S f) n acc <> EmptyString.
Proof.
  assert (H : forall g m a, (String.length a <= String.length (string_of_N_fuel g m a))%nat).
  { induction g as [|g IH]; intros m a; simpl; [lia|].
    destruct (m / 10 =? 0)%N; simpl; [lia|]. specialize (IH (m / 10)%N (String (ascii_of_N (48 + m mod 10)) a)).
    simpl in IH. lia. }
  simpl. destruct (n / 10 =? 0)%N; [discriminate|].
  intros E. specialize (H f (n / 10)%N (String (ascii_of_N (48 + n mod 10)) acc)).
  rewrite E in H. simpl in H. lia.
Qed.

Lemma srev_acc_list s acc :
  list_ascii_of_string (srev_acc s acc) = rev (list_ascii_of_string s) ++ list_ascii_of_string acc.
Proof.
  revert acc. induction s as [|a r IH]; intros acc; simpl; [done|].
  rewrite IH. simpl. rewrite <- app_assoc. reflexivity.
Qed.

Lemma string_list_inj s t : list_ascii_of_string s = list_ascii_of_string t -> s = t.
Proof. intros H. rewrite <- (string_of_list_ascii_of_string s), H. apply string_of_list_ascii_of_string. Qed.

Lemma lstrip_nospace s :
  Forall (fun c => is_space c = false) (list_ascii_of_string s) -> lstrip s = s.
Proof. destruct s as [|a r]; simpl; [done|]. intros H. inversion H; subst. now rewrite H2. Qed.

Lemma strip_nospace s :
  Forall (fun c => is_space c = false) (list_ascii_of_string s) -> strip s = s.
Proof.
  intros H. unfold strip, rstrip. rewrite (lstrip_nospace s H).
  rewrite (lstrip_nospace (srev s)).
  - apply string_list_inj. unfold srev. rewrite !srev_acc_list. simpl. rewrite !app_nil_r.
    apply rev_involutive.
  - unfold srev. rewrite srev_acc_list. simpl. rewrite app_nil_r. now apply Forall_rev.
Qed.

Lemma all_digits_forall s : all_digits s = true -> Forall (fun c => is_digit c = true) (list_ascii_of_string s).
Proof.
  induction s as [|a r IH]; simpl; [constructor|]. rewrite andb_true_iff. intros [H1 H2]. auto.
Qed.

Lemma pos_size_nat_bound p : (N.pos p < 2 ^ N.of_nat (Pos.size_nat p))%N.
Proof.
  induction p as [p IH|p IH|]; cbn [Pos.size_nat]; rewrite ?Nat2N.inj_succ, ?N.pow_succ_r'.
  - change (N.pos p~1) with (2 * N.pos p + 1)%N. lia.
  - change (N.pos p~0) with (2 * N.pos p)%N. lia.
  - simpl. lia.
Qed.

Lemma string_of_N_props n :
  exists a r, string_of_N n = String a r /\ all_digits (String a r) = true
  /\ digits_value (String a r) = Z.of_N n.
Proof.
  unfold string_of_N. destruct (string_of_N_fuel (S (N.size_nat n)) n EmptyString) as [|a r] eqn:E.
  - exfalso. eapply string_of_N_fuel_nonempty; eauto.
  - exists a, r. split; [done|]. rewrite <- E. split; [now apply string_of_N_fuel_digits|].
    unfold digits_value. rewrite string_of_N_fuel_value.
    + simpl. lia.
    + destruct n as [|p]; simpl; [lia|].
      pose proof (pos_size_nat_bound p). rewrite Nat2N.inj_succ, N.pow_succ_r'. lia.
Qed.

Lemma digit_not_sign a : is_digit a = true -> Ascii.eqb a "+"%char = false /\ Ascii.eqb a "-"%char = false.
Proof.
  intros H. split; apply Ascii.eqb_neq; intros ->; discriminate H.
Qed.

Lemma py_int_string_of_Z z : RunActualization.py_int (PStr (string_of_Z z)) = Ok z.
Proof.
  unfold string_of_Z. destruct (Z.ltb_spec z 0) as [Hz|Hz].
  - destruct (string_of_N_props (Z.to_N (- z))) as (a & r & E & Hd & Hv). rewrite E.
    unfold RunActualization.py_int. rewrite strip_nospace.
    + cbv beta iota. cbn [Ascii.eqb]. change (isdigit (String a r)) with (all_digits (String a r)).
      rewrite Hd. f_equal. rewrite Hv. lia.
    + constructor; [reflexivity|]. apply all_digits_forall in Hd.
      eapply Forall_impl; [exact Hd|]. apply is_digit_not_space.
  - destruct (string_of_N_props (Z.to_N z)) as (a & r & E & Hd & Hv). rewrite E.
    unfold RunActualization.py_int. rewrite strip_nospace.
    + cbv beta iota. pose proof Hd as Hd'. cbn [all_digits] in Hd'. apply andb_true_iff in Hd' as [Ha _].
      destruct (digit_not_sign a Ha) as [-> ->].
      change (isdigit (String a r)) with (all_digits (String a r)). rewrite Hd. f_equal. rewrite Hv. lia.
    + apply all_digits_forall in Hd.
      eapply Forall_impl; [exact Hd|]. apply is_digit_not_space.
Qed.

End StringFacts.

Module ExtraActualization.
Import Py Mongo StringFacts RunActualization.

Lemma sorted_le_nodup_lt (l : list Z) :
  StronglySorted Z.le l -> NoDup l -> StronglySorted Z.lt l.
Proof.
  induction l as [|x l IH]; intros Hs Hn; constructor.
  - apply StronglySorted_inv in Hs as [Hs _]. apply NoDup_cons in Hn as [_ Hn]. auto.
  - apply StronglySorted_inv in Hs as [_ Hf]. apply NoDup_cons in Hn as [Hx _].
    rewrite Forall_forall in *. intros y Hy. specialize (Hf y Hy).
    assert (x <> y) by (intros ->; apply Hx; now apply list_elem_of_In). lia.
Qed.

(** Extra: step 3.1 launches a single full-scan [get_routes] job exactly
    when the date has an open route without a usable page or no tracked
    page; otherwise it launches one [--page p] job per tracked page, each
    page once and in strictly increasing order, and [int] reads each
    written page [str(page)] back as [page]. *)
Lemma get_routes_jobs_spec d i :
  (get_routes_jobs d i = [job "orchestrator.jobs.get_routes" (Some d) []]
   <-> has_missing_page i = true \/ pages i = ∅) /\
  (has_missing_page i = false -> pages i <> ∅ ->
   exists ps, get_routes_jobs d i
              = map (fun p => job "orchestrator.jobs.get_routes" (Some d) ["--page"; string_of_Z p]) ps
     /\ StronglySorted Z.lt ps /\ (forall p, In p ps <-> p ∈ pages i)
     /\ Forall (fun p => py_int (PStr (string_of_Z p)) = Ok p) ps).
Proof.
  pose proof (merge_sort_Permutation Z.le (elements (pages i))) as HP.
  assert (Hin : forall p, In p (merge_sort Z.le (elements (pages i))) <-> p ∈ pages i).
  { intros p. rewrite <- list_elem_of_In, HP. apply elem_of_elements. }
  unfold get_routes_jobs. split.
  - destruct (has_missing_page i); cbn [orb]; [split; auto|].
    destruct (bool_decide_reflect (pages i = ∅)) as [He|He]; [split; auto|].
    split; [|intros [H|H]; [discriminate | contradiction]].
    destruct (merge_sort Z.le (elements (pages i))) as [|p [|q l]] eqn:E; cbn [map].
    + exfalso. apply He. apply set_eq. intros p. rewrite <- Hin. set_solver.
    + intros [=].
    + intros [=].
  - intros Hm He. rewrite Hm. cbn [orb]. rewrite bool_decide_false by exact He.
    eexists. split; [reflexivity|]. split; [|split].
    + apply sorted_le_nodup_lt.
      * apply (@StronglySorted_merge_sort _ Z.le _); [intros ???; lia | intros ??; lia].
      * rewrite HP. apply NoDup_elements.
    + exact Hin.
    + apply Forall_forall. intros p _. apply py_int_string_of_Z.
Qed.

Lemma py_int_err v e :
  py_int v = Err e -> e = TypeError \/ e = ValueError \/ (e = OverflowError /\ (v = PFloat FInf \/ v = PFloat FNegInf)).
Proof.
  intros H. destruct v as [| | |f|s| | | |]; try destruct f; unfold py_int in H;
    try discriminate H; try (injection H as <-; auto; fail).
  destruct (strip s) as [|a r]; [injection H as <-; auto|].
  repeat (match type of H with context [if ?b then _ else _] => destruct b end);
    first [discriminate H | injection H as <-; auto].
Qed.

(** When [track] raises. *)
Lemma track_err r doc e :
  track r doc = Err e <->
  e = OverflowError /\ open_route_date doc <> None /\
  (dict_get doc "page" = PFloat FInf \/ dict_get doc "page" = PFloat FNegInf).
Proof.
  unfold track. destruct (open_route_date doc) as [d|]; [|split; [discriminate | tauto]].
  cbv zeta. destruct (dict_get doc "page") as [| | | | | | | |] eqn:Ep;
    [split; [discriminate| intros (_ & _ & [H|H]); discriminate]|..];
  (destruct (py_int _) as [p|e'] eqn:E;
    [split; [discriminate| intros (_ & _ & [H|H]); [rewrite H in E | rewrite H in E]; discriminate]|]);
  (destruct (py_int_err _ _ E) as [->|[->|[-> [H|H]]]];
    [split; [discriminate| intros (_ & _ & [H|H]); rewrite H in E; discriminate]
    |split; [discriminate| intros (_ & _ & [H|H]); rewrite H in E; discriminate]
    |split; [intros [= <-]; split; [reflexivity| split; [discriminate | auto]] | intros [-> _]; reflexivity]
    |split; [intros [= <-]; split; [reflexivity| split; [discriminate | auto]] | intros [-> _]; reflexivity]]).
Qed.

Local Abbreviation bad_page doc :=
  (open_route_date doc <> None /\
   (dict_get doc "page" = PFloat FInf \/ dict_get doc "page" = PFloat FNegInf)).

Lemma track_all_err docs r e :
  track_all docs r = Err e <-> e = OverflowError /\ exists doc, In doc docs /\ bad_page doc.
Proof.
  revert r. induction docs as [|doc docs IH]; intros r; cbn [track_all].
  - split; [discriminate | intros [_ [x [[] _]]]].
  - destruct (track r doc) as [r'|e'] eqn:E; cbn [bind].
    + rewrite IH. assert (Hb : ~ bad_page doc).
      { intros Hb. assert (track r doc = Err OverflowError) by (apply track_err; split; auto).
        congruence. }
      split.
      * intros [-> [x [Hx Hp]]]. split; [reflexivity|]. exists x. split; [now right | exact Hp].
      * intros [-> [x [[<-|Hx] Hp]]]; [contradiction|]. split; [reflexivity|]. eauto.
    + apply track_err in E as [-> Hb]. split.
      * intros [= <-]. split; [reflexivity|]. exists doc. split; [now left | exact Hb].
      * intros [-> _]. reflexivity.
Qed.

Lemma run_jobs_err exit_code cs trace e : run_jobs exit_code cs trace = Err e -> e = SystemExit 1.
Proof.
  revert trace. induction cs as [|c cs IH]; intros trace; cbn [run_jobs]; [discriminate|].
  unfold _run_job at 1. destruct (Z.eqb _ 0); cbn [bind]; [apply IH | congruence].
Qed.

Lemma process_routes_err exit_code routes rks now_ms trace e :
  process_routes exit_code routes rks now_ms trace = Err e -> e = SystemExit 1.
Proof.
  revert routes trace. induction rks as [|rk rks IH]; intros routes trace; cbn [process_routes];
    [discriminate|].
  destruct (run_jobs _ _ _) as [t|e'] eqn:E; cbn [bind]; [apply IH|].
  intros [= <-]. exact (run_jobs_err _ _ _ _ E).
Qed.

Lemma threshold_err h now_ms e : step33_threshold h now_ms = Err e -> e = OverflowError.
Proof.
  unfold step33_threshold, threshold. destruct (0 <? h); [|discriminate].
  destruct (negb _); cbn [bind]; [congruence|]. cbv zeta.
  destruct (_ && _); cbn [bind]; congruence.
Qed.

Lemma logical_today_err t dd e :
  logical_today t dd = Err e <->
  e = OverflowError /\ (999999999 < Z.abs dd \/ t - dd < date_min \/ date_max < t - dd).
Proof.
  unfold logical_today, timedelta_days_ok, date_min, date_max.
  destruct (Z.leb_spec (Z.abs dd) 999999999) as [H1|H1]; cbn [negb].
  - destruct (Z.leb_spec (-719162) (t - dd)) as [H2|H2];
      destruct (Z.leb_spec (t - dd) 2932896) as [H3|H3]; cbn [andb];
      (split; [intros [= <-]; split; [reflexivity | lia] | intros [-> H]; try reflexivity; lia])
      || (split; [discriminate | intros [_ H]; lia]).
  - split; [intros [= <-]; split; [reflexivity | lia] | intros [-> _]; reflexivity].
Qed.

Lemma process_dates_err exit_code dpi dates routes h now_ms trace e :
  process_dates exit_code dpi dates routes h now_ms trace = Err e ->
  e = SystemExit 1 \/ (e = OverflowError /\ step33_threshold h now_ms = Err OverflowError).
Proof.
  revert routes trace. induction dates as [|d dates IH]; intros routes trace; cbn [process_dates];
    [discriminate|].
  cbv zeta. destruct (run_jobs _ _ _) as [t|e'] eqn:E; cbn [bind].
  - destruct (step33_threshold h now_ms) as [thr|e'] eqn:Et; cbn [bind].
    + destruct (process_routes _ _ _ _ _) as [rt|e'] eqn:E'; cbn [bind]; [apply IH|].
      intros [= <-]. left. exact (process_routes_err _ _ _ _ _ _ E').
    + intros [= <-]. right. pose proof (threshold_err _ _ _ Et) as ->. auto.
  - intros [= <-]. left. exact (run_jobs_err _ _ _ _ E).
Qed.

(** When all the jobs succeed, [process_dates] over a non-empty list of
    dates fails exactly when the staleness bound does. *)
Lemma process_dates_ok_err exit_code dpi d dates routes h now_ms trace :
  (forall c, exit_code c = 0) ->
  step33_threshold h now_ms = Err OverflowError ->
  process_dates exit_code dpi (d :: dates) routes h now_ms trace = Err OverflowError.
Proof.
  intros Hok Ht. cbn [process_dates]. cbv zeta.
  rewrite ActualizationFacts.run_jobs_ok by exact Hok. cbn [bind]. rewrite Ht. reflexivity.
Qed.

(** Extra: [run] can only fail with the [SystemExit] of a failed job
    (exit status 1) or with an [OverflowError], raised by a
    [logical_today] out of the range of [date], by an infinite page, or
    by a staleness bound out of the range of [datetime]. *)
Lemma run_err exit_code routes h dd today now_ms e :
  run exit_code routes h dd today now_ms = Err e ->
  e = SystemExit 1 \/
  (e = OverflowError /\
   (logical_today today dd = Err OverflowError
    \/ (exists doc, In doc routes /\ is_open doc = true /\ open_route_date doc <> None /\
          (dict_get doc "page" = PFloat FInf \/ dict_get doc "page" = PFloat FNegInf))
    \/ step33_threshold h now_ms = Err OverflowError)).
Proof.
  unfold run. destruct (logical_today today dd) as [lt|e'] eqn:El; cbn [bind].
  2: { intros [= <-]. pose proof El as El'. apply logical_today_err in El' as [-> _].
       right. split; [reflexivity|]. left. reflexivity. }
  destruct (_get_dates_and_pages_for_open_routes routes) as [dpi|e'] eqn:E; cbn [bind].
  - intros H. destruct (process_dates_err _ _ _ _ _ _ _ _ H) as [H1|[H1 H2]]; [now left|].
    right. split; [exact H1|]. right; right. exact H2.
  - intros [= <-]. unfold _get_dates_and_pages_for_open_routes in E.
    apply track_all_err in E as [-> [doc [Hin Hb]]]. right. split; [reflexivity|].
    right; left. apply filter_In in Hin as [Hin Ho]. exists doc. auto.
Qed.

(** Extra: when every job succeeds and [now_utc] is a datetime, [run]
    fails with [OverflowError] exactly when [delta_day] is beyond the
    bounds of [timedelta] or [logical_today] is not a date, when some open
    route with a usable date has an infinite float as its page
    ([int(page)] raises it and the loop catches only [TypeError] and
    [ValueError]), or when [delta_time_update] > 0 and
    [now_utc - delta_time_update] hours is before [datetime.min]. *)
Theorem run_overflow exit_code routes h dd today now_ms
    (Hok : forall c, exit_code c = 0)
    (Hnow : datetime_min_ms <= now_ms <= datetime_max_ms) :
  run exit_code routes h dd today now_ms = Err OverflowError <->
  (999999999 < Z.abs dd \/ today - dd < date_min \/ date_max < today - dd)
  \/ (exists doc, In doc routes /\ is_open doc = true /\ open_route_date doc <> None /\
        (dict_get doc "page" = PFloat FInf \/ dict_get doc "page" = PFloat FNegInf))
  \/ (0 < h /\ now_ms - h * 3600000 < datetime_min_ms).
Proof.
  assert (Ht : step33_threshold h now_ms = Err OverflowError <->
               0 < h /\ now_ms - h * 3600000 < datetime_min_ms).
  { rewrite (ActualizationFacts.step33_threshold_spec h now_ms Hnow).
    destruct (Z.ltb_spec 0 h); [|split; [discriminate | lia]].
    destruct (Z.leb_spec datetime_min_ms (now_ms - h * 3600000));
      split; first [discriminate | lia | intros _; reflexivity | intros; split; lia]. }
  unfold run. destruct (logical_today today dd) as [lt|e'] eqn:El; cbn [bind].
  2: { pose proof El as El'. apply logical_today_err in El' as [-> Hr].
       split; [intros _; now left | reflexivity]. }
  assert (Hl : ~ (999999999 < Z.abs dd \/ today - dd < date_min \/ date_max < today - dd)).
  { intros Hr. assert (logical_today today dd = Err OverflowError)
      by (apply logical_today_err; auto). congruence. }
  destruct (_get_dates_and_pages_for_open_routes routes) as [dpi|e'] eqn:E; cbn [bind].
  - assert (Hb : ~ exists doc, In doc routes /\ is_open doc = true /\ open_route_date doc <> None /\
                   (dict_get doc "page" = PFloat FInf \/ dict_get doc "page" = PFloat FNegInf)).
    { intros [doc [Hin [Ho Hbd]]].
      assert (Hc : _get_dates_and_pages_for_open_routes routes = Err OverflowError).
      { apply track_all_err. split; [reflexivity|]. exists doc. split; [|exact Hbd].
        apply filter_In. auto. }
      congruence. }
    rewrite <- Ht. split.
    + intros H. destruct (process_dates_err _ _ _ _ _ _ _ _ H) as [H1|[_ H2]]; [discriminate|].
      right; right. exact H2.
    + intros [H|[H|H]]; [contradiction | contradiction |].
      set (dpi' := filter_dates dpi (date_isoformat lt)).
      assert (Hne : In (date_isoformat lt) (sorted_dates dpi')).
      { apply (proj1 (ActualizationFacts.sorted_dates_spec dpi')).
        apply ActualizationFacts.filter_dates_dom. now right. }
      destruct (sorted_dates dpi') as [|d0 ds] eqn:Es; [destruct Hne|].
      apply process_dates_ok_err; assumption.
  - unfold _get_dates_and_pages_for_open_routes in E. apply track_all_err in E as [-> [doc [Hin Hb]]].
    split; [intros _ | reflexivity]. apply filter_In in Hin as [Hin Ho]. right; left. exists doc. auto.
Qed.

Local Abbreviation touched now_ms :=
  (fun d d' : dict => d' = d \/ d' = set_fields d [("last_processed_at", PDatetime now_ms)]).

Lemma dict_set_idem (d : dict) k v : dict_set (dict_set d k v) k v = dict_set d k v.
Proof.
  induction d as [|[k' v'] d IH]; cbn [dict_set].
  - rewrite String.eqb_refl. reflexivity.
  - destruct (String.eqb k k') eqn:E; cbn [dict_set]; rewrite E; [reflexivity|]. now rewrite IH.
Qed.

Lemma touched_trans now_ms a b c : touched now_ms a b -> touched now_ms b c -> touched now_ms a c.
Proof.
  intros [-> | ->] [-> | ->]; cbv beta; auto.
  right. cbn [set_fields fold_left fst snd]. apply dict_set_idem.
Qed.

Lemma touched_update now_ms c c' p :
  Forall2 (touched now_ms) c c' ->
  Forall2 (touched now_ms) c (update_one c' p [("last_processed_at", PDatetime now_ms)]).
Proof.
  intros H. induction H as [|x x' c c' Hx H IH]; cbn [update_one]; [constructor|].
  destruct (p x'); constructor; auto.
  eapply touched_trans; [exact Hx | right; reflexivity].
Qed.

Lemma process_routes_touched exit_code routes rks now_ms trace routes' trace' c0 :
  Forall2 (touched now_ms) c0 routes ->
  process_routes exit_code routes rks now_ms trace = Ok (routes', trace') ->
  Forall2 (touched now_ms) c0 routes'.
Proof.
  revert routes trace. induction rks as [|rk rks IH]; intros routes trace H0; cbn [process_routes].
  - intros [= <- _]. exact H0.
  - destruct (run_jobs _ _ _); cbn [bind]; [|discriminate]. apply IH. now apply touched_update.
Qed.

Lemma process_dates_touched exit_code dpi dates routes h now_ms trace routes' trace' c0 :
  Forall2 (touched now_ms) c0 routes ->
  process_dates exit_code dpi dates routes h now_ms trace = Ok (routes', trace') ->
  Forall2 (touched now_ms) c0 routes'.
Proof.
  revert routes trace. induction dates as [|d dates IH]; intros routes trace H0; cbn [process_dates].
  - intros [= <- _]. exact H0.
  - cbv zeta. destruct (run_jobs _ _ _); cbn [bind]; [|discriminate].
    destruct (step33_threshold h now_ms); cbn [bind]; [|discriminate].
    destruct (process_routes _ _ _ _ _) as [[r t]|] eqn:E; cbn [bind]; [|discriminate].
    apply IH. eapply process_routes_touched; eauto.
Qed.

(** Extra: the only write [run] itself makes to the routes collection is
    setting [last_processed_at] to [now_utc]: after a successful run each
    route document is either unchanged or the same document with that
    field set, in the same order. *)
Lemma run_touched exit_code routes h dd today now_ms routes' trace :
  run exit_code routes h dd today now_ms = Ok (routes', trace) ->
  Forall2 (fun d d' => d' = d \/ d' = set_fields d [("last_processed_at", PDatetime now_ms)])
    routes routes'.
Proof.
  unfold run. destruct (logical_today today dd); cbn [bind]; [|discriminate].
  destruct (_get_dates_and_pages_for_open_routes routes); cbn [bind]; [|discriminate].
  apply process_dates_touched. clear. induction routes; constructor; [left; reflexivity | auto].
Qed.

(** Extra: after steps 1 and 2 a date is kept exactly when it is at most
    [logical_today_str], with its own page info; [logical_today_str] is
    always present, with its info when an open route has it and otherwise
    a full-scan entry with no pages. *)
Lemma filter_dates_lookup (dpi : date_map) t x :
  filter_dates dpi t !! x =
  if String.eqb x t then Some (match dpi !! t with Some i => i
                                | None => {| pages := ∅; has_missing_page := true |} end)
  else if String.leb x t then dpi !! x else None.
Proof.
  unfold filter_dates. match goal with |- context [filter ?P dpi] => set (F := filter P dpi) end.
  assert (Hf : forall y, F !! y = if String.leb y t then dpi !! y else None).
  { intros y. subst F. destruct (String.leb y t) eqn:L.
    - destruct (dpi !! y) eqn:E.
      + apply map_lookup_filter_Some. auto.
      + apply map_lookup_filter_None. now left.
    - apply map_lookup_filter_None. right. intros i _. cbn. congruence. }
  assert (Hr : String.leb t t = true) by (destruct (String.leb_total t t); auto).
  rewrite (Hf t), Hr.
  destruct (String.eqb_spec x t) as [->|Hne].
  - destruct (dpi !! t) as [i|] eqn:E; [now rewrite Hf, Hr, E|]. apply lookup_insert_eq.
  - destruct (dpi !! t); [apply Hf|]. rewrite lookup_insert_ne by congruence. apply Hf.
Qed.

Lemma get_routes_jobs_spec_witness :
  let i := {| pages := {[2; 1]}; has_missing_page := false |} in
  get_routes_jobs "2025-11-25" i
  = [job "orchestrator.jobs.get_routes" (Some "2025-11-25") ["--page"; "1"];
     job "orchestrator.jobs.get_routes" (Some "2025-11-25") ["--page"; "2"]] /\
  exists ps, get_routes_jobs "2025-11-25" i
             = map (fun p => job "orchestrator.jobs.get_routes" (Some "2025-11-25")
                               ["--page"; string_of_Z p]) ps
    /\ StronglySorted Z.lt ps /\ (forall p, In p ps <-> p ∈ pages i).
Proof.
  intros i. split; [vm_compute; reflexivity|].
  destruct (proj2 (get_routes_jobs_spec "2025-11-25" i) eq_refl) as (ps & E & Hs & Hin & _).
  - intros He. assert (H1 : (1 : Z) ∈ pages i) by (subst i; cbn [pages]; set_solver).
    rewrite He in H1. set_solver.
  - exists ps. auto.
Defined.

Lemma run_err_witness :
  let routes := [[("date", PStr "2025-11-25"); ("page", PFloat FInf)]] in
  run (fun _ => 0) routes 0 0 20417 5 = Err OverflowError /\
  (OverflowError = SystemExit 1 \/
   (OverflowError = OverflowError /\
    (logical_today 20417 0 = Err OverflowError
     \/ (exists doc, In doc routes /\ is_open doc = true /\ open_route_date doc <> None /\
           (dict_get doc "page" = PFloat FInf \/ dict_get doc "page" = PFloat FNegInf))
     \/ step33_threshold 0 5 = Err OverflowError))).
Proof.
  intros routes.
  assert (E : run (fun _ => 0) routes 0 0 20417 5 = Err OverflowError) by (vm_compute; reflexivity).
  split; [exact E | exact (run_err _ _ _ _ _ _ _ E)].
Defined.

Lemma run_overflow_witness :
  run (fun _ => 0) [] 100000000 0 20417 1764158400000 = Err OverflowError.
Proof.
  apply (proj2 (run_overflow (fun _ => 0) [] 100000000 0 20417 1764158400000 (fun _ => eq_refl)
                  ltac:(unfold datetime_min_ms, datetime_max_ms; lia))).
  right; right. unfold datetime_min_ms. lia.
Defined.

Lemma run_touched_witness :
  let routes := [[("_id", PInt 1); ("date", PStr "2025-11-25"); ("route_key", PStr "R1")];
                 [("_id", PInt 2); ("date", PStr "2025-11-24"); ("is_closed", PBool true);
                  ("route_key", PStr "R2")]] in
  match run (fun _ => 0) routes 0 0 20417 5 with
  | Ok (routes', _) =>
      routes' = [[("_id", PInt 1); ("date", PStr "2025-11-25"); ("route_key", PStr "R1");
                  ("last_processed_at", PDatetime 5)];
                 [("_id", PInt 2); ("date", PStr "2025-11-24"); ("is_closed", PBool true);
                  ("route_key", PStr "R2")]] /\
      Forall2 (fun d d' => d' = d \/ d' = set_fields d [("last_processed_at", PDatetime 5)])
        routes routes'
  | Err _ => False
  end.
Proof.
  intros routes.
  assert (E0 : match run (fun _ => 0) routes 0 0 20417 5 with
               | Ok (routes', _) => Some routes' | Err _ => None end
               = Some [[("_id", PInt 1); ("date", PStr "2025-11-25"); ("route_key", PStr "R1");
                        ("last_processed_at", PDatetime 5)];
                       [("_id", PInt 2); ("date", PStr "2025-11-24"); ("is_closed", PBool true);
                        ("route_key", PStr "R2")]]) by (vm_compute; reflexivity).
  destruct (run (fun _ => 0) routes 0 0 20417 5) as [[routes' trace]|e] eqn:E; [|discriminate E0].
  injection E0 as E0. split; [exact E0|]. exact (run_touched _ _ _ _ _ _ _ _ E).
Defined.

End ExtraActualization.

Module ExtraJobs.
Import Py.

Lemma run_all_ok exit_code cs trace :
  Forall (fun c => exit_code c = 0) cs -> RunJobs.run_all exit_code cs trace = Ok (app trace cs).
Proof.
  intros H. revert trace. induction H as [|c cs Hc H IH]; intros trace; cbn [RunJobs.run_all].
  - now rewrite app_nil_r.
  - unfold RunJobs.run_command at 1. rewrite Hc. cbn [Z.eqb bind]. rewrite IH, <- app_assoc. reflexivity.
Qed.

Lemma run_all_fail exit_code pre c post trace :
  Forall (fun c => exit_code c = 0) pre -> exit_code c <> 0 ->
  RunJobs.run_all exit_code (app pre (c :: post)) trace = Err (CalledProcessError (exit_code c)).
Proof.
  intros H Hc. revert trace. induction H as [|c' cs Hc' H IH]; intros trace; cbn [app RunJobs.run_all].
  - unfold RunJobs.run_command at 1. destruct (Z.eqb_spec (exit_code c) 0); [contradiction|]. reflexivity.
  - unfold RunJobs.run_command at 1. rewrite Hc'. cbn [Z.eqb bind]. apply IH.
Qed.

(** Extra: [run_jobs.main] runs its five commands in order and succeeds
    when all exit 0; the first command with a nonzero exit status stops
    the sequence with a [CalledProcessError] carrying that status. *)
Theorem run_jobs_main exit_code :
  (Forall (fun c => exit_code c = 0) RunJobs.commands -> RunJobs.main exit_code = Ok RunJobs.commands) /\
  (forall pre c post, RunJobs.commands = app pre (c :: post) ->
     Forall (fun c => exit_code c = 0) pre -> exit_code c <> 0 ->
     RunJobs.main exit_code = Err (CalledProcessError (exit_code c))).
Proof.
  split.
  - intros H. unfold RunJobs.main. now rewrite run_all_ok.
  - intros pre c post E H Hc. unfold RunJobs.main. rewrite E. now apply run_all_fail.
Qed.

Import RunActualization RunDailyPipeline.

Local Abbreviation pipeline d :=
  (app (map (fun m => job m (Some d) []) JOBS_WITH_DATE) (map (fun m => job m None []) JOBS_NO_DATE)).

Lemma run_modules_spec exit_code ms ds trace :
  run_modules exit_code ms ds trace =
  if forallb (fun c => Z.eqb (exit_code c) 0) (map (fun m => job m ds []) ms)
  then Ok (app trace (map (fun m => job m ds []) ms)) else Err (SystemExit 1).
Proof.
  revert trace. induction ms as [|m ms IH]; intros trace; cbn [run_modules map forallb].
  - now rewrite app_nil_r.
  - unfold run_job at 1, _run_job at 1. destruct (Z.eqb (exit_code (job m ds [])) 0); cbn [andb bind];
      [|reflexivity].
    rewrite IH. destruct (forallb _ _); [|reflexivity]. now rewrite <- app_assoc.
Qed.

(** Extra: the daily pipeline launches every dated job with [--date d],
    then every undated job, and succeeds with exactly these launches when
    all exit 0; otherwise it exits with status 1. *)
Theorem daily_pipeline_main exit_code d :
  main exit_code d =
  if forallb (fun c => Z.eqb (exit_code c) 0) (pipeline d) then Ok (pipeline d) else Err (SystemExit 1).
Proof.
  unfold main. rewrite run_modules_spec, forallb_app.
  destruct (forallb _ (map _ JOBS_WITH_DATE)); cbn [bind andb]; [|reflexivity].
  rewrite run_modules_spec. reflexivity.
Qed.

Lemma run_jobs_main_witness :
  let exit_code := fun c => if String.eqb c "python -m backfill_ct" then 2 else 0 in
  RunJobs.main exit_code = Err (CalledProcessError 2).
Proof.
  intros exit_code.
  apply (proj2 (run_jobs_main exit_code)
           ["python fetch_dispatches.py"; "python -m backfill_compromise_date_from_tags";
            "python -m backfill_tipo_orden_from_tags"]%string
           "python -m backfill_ct"%string ["python -m backfill_substatus"]%string).
  - reflexivity.
  - repeat constructor.
  - intros H. vm_compute in H. discriminate H.
Defined.

End ExtraJobs.

Module ExtraDetails.
Import Py Mongo UpdateFacts LoopFacts DispatchtrackClient GetDetailsFromRoute.

Lemma gd_ind token http clock d n n' :
  decision (body token http clock) n d = decision (body token http clock) n' d.
Proof.
  unfold decision, body. destruct (negb _); [reflexivity|].
  destruct (fetch_route_details _ _ _) as [raw|[]]; reflexivity.
Qed.

Lemma gd_written token http clock n d :
  written (body token http clock) n d =
  if truthy (dict_get d "route_key") then
    match fetch_route_details token http (dict_get d "route_key") with
    | Ok raw => Some (detail_fields raw (clock d))
    | Err _ => None
    end
  else None.
Proof.
  unfold written, decision, body. destruct (truthy _); cbn [negb]; [|reflexivity].
  destruct (fetch_route_details _ _ _) as [raw|[]]; reflexivity.
Qed.

Lemma gd_keys token http clock n d s :
  written (body token http clock) n d = Some s -> ~ In "_id"%string (map fst s).
Proof.
  rewrite gd_written. destruct (truthy _); [|discriminate].
  destruct (fetch_route_details _ _ _); [|discriminate]. intros [= <-]. cbn. intuition discriminate.
Qed.

Lemma fetch_err token http rn e :
  fetch_route_details token http rn = Err e ->
  e = DispatchTrackAPIError \/ exists p ps, http p ps = Err e.
Proof.
  unfold fetch_route_details, _get, _auth_headers.
  destruct token as [t|]; [destruct (String.eqb t "")|]; cbn [bind]; try (intros [= <-]; now left).
  destruct (http _ _) as [r|e'] eqn:E; cbn [bind]; [|intros [= <-]; right; eauto].
  destruct (resp_ok r); [destruct (http_json r)|]; intros [= <-]; now left.
Qed.

Lemma gd_total token http clock d m :
  (forall p ps, exists r, http p ps = Ok r) -> exists r, body token http clock d m = Ok r.
Proof.
  intros Hh. unfold body. destruct (negb _); [eauto|].
  destruct (fetch_route_details _ _ _) as [raw|e] eqn:E; [eauto|].
  destruct (fetch_err _ _ _ _ E) as [->|(p & ps & Hp)]; [eauto|].
  destruct (Hh p ps) as [r Hr]. congruence.
Qed.

Lemma gd_count token http clock docs c n :
  (forall p ps, exists r, http p ps = Ok r) ->
  snd (fst (for_each_update "_id" (body token http clock) docs c n))
  = (n + length (List.filter (fun x =>
        if truthy (dict_get x "route_key") then
          match fetch_route_details token http (dict_get x "route_key") with
          | Ok _ => true | Err _ => false end
        else false) docs))%nat.
Proof.
  intros Hh. revert c n. induction docs as [|d docs IH]; intros c n; cbn [for_each_update List.filter length].
  - cbn [fst snd]. lia.
  - unfold body at 1. destruct (truthy (dict_get d "route_key")) eqn:Et; cbn [negb].
    + destruct (fetch_route_details _ _ _) as [raw|e] eqn:E.
      * rewrite IH. cbn [length]. lia.
      * destruct (fetch_err _ _ _ _ E) as [->|(p & ps & Hp)].
        -- rewrite IH. lia.
        -- destruct (Hh p ps) as [r Hr]. congruence.
    + rewrite IH. lia.
Qed.

Lemma filter_filter_andb {A} (f g : A -> bool) (l : list A) :
  List.filter f (List.filter g l) = List.filter (fun x => g x && f x) l.
Proof.
  induction l as [|a l IH]; cbn [List.filter]; [reflexivity|].
  destruct (g a); cbn [andb List.filter]; [destruct (f a); [f_equal|]|]; exact IH.
Qed.

(** Extra: when every HTTP request gets a response, [run] writes, on each
    route of the date without full details whose [route_key] is truthy and
    whose details fetch succeeds, the unwrapped payload, [has_full_details]
    and the refresh time; every other route is unchanged, the returned
    total counts the written routes, and no exception escapes. *)
Theorem get_details_run token http clock date_str routes :
  ids_ok "_id" routes -> (forall p ps, exists r, http p ps = Ok r) ->
  run token http clock date_str routes =
  (map (fun x => if selected date_str x && truthy (dict_get x "route_key") then
                   match fetch_route_details token http (dict_get x "route_key") with
                   | Ok raw => set_fields x (detail_fields raw (clock x))
                   | Err _ => x
                   end
                 else x) routes,
   length (List.filter (fun x => selected date_str x && truthy (dict_get x "route_key")
                                 && match fetch_route_details token http (dict_get x "route_key") with
                                    | Ok _ => true | Err _ => false end) routes), None).
Proof.
  intros Hc Hh. unfold run.
  assert (Hn : snd (for_each_update "_id" (body token http clock)
                     (find routes (selected date_str)) routes 0%nat) = None).
  { apply loop_total. intros d _ m. now apply gd_total. }
  pose proof (loop_complete "_id" (body token http clock) (selected date_str) 0%nat
                (gd_ind token http clock) (gd_keys token http clock 0%nat) routes Hc Hn) as Hr.
  pose proof (gd_count token http clock (find routes (selected date_str)) routes 0%nat Hh) as Hk.
  unfold find in *.
  destruct (for_each_update _ _ _ _ _) as [[c' n'] o]. cbn [fst snd] in Hn, Hr, Hk. subst.
  f_equal. f_equal.
  - apply map_ext. intros x. destruct (selected date_str x); [|reflexivity].
    rewrite gd_written. cbn [andb]. destruct (truthy _); [|reflexivity].
    destruct (fetch_route_details token http (dict_get x "route_key")); reflexivity.
  - cbn [Nat.add]. rewrite filter_filter_andb. f_equal. apply filter_ext. intros x.
    destruct (selected date_str x), (truthy _); reflexivity.
Qed.

(** Extra: without a token, or with an empty one, [run] changes no
    route, counts 0 and raises nothing: each fetch raises the caught
    [DispatchTrackAPIError] before any request. *)
Theorem get_details_no_token tok http clock date_str routes :
  (tok = None \/ tok = Some ""%string) ->
  run tok http clock date_str routes = (routes, 0%nat, None).
Proof.
  intros Ht. unfold run.
  destruct (loop_noop "_id" (body tok http clock) (fun m => m = 0%nat)
              (find routes (selected date_str)) routes 0%nat eq_refl) as [m [E ->]].
  - intros d _ m ->. exists 0%nat. split; [|reflexivity]. unfold body.
    destruct (negb _); [reflexivity|].
    unfold fetch_route_details, _get, _auth_headers. destruct Ht as [-> | ->]; reflexivity.
  - exact E.
Qed.

Lemma get_details_run_witness :
  let http := fun (_ : string) (_ : list (string * pyval)) =>
                Ok {| http_status := 200; http_json := Some (PDict [("route", PDict [("id", PInt 7)])]) |} in
  let r1 := [("_id", PInt 1); ("date", PStr "2025-11-25"); ("has_full_details", PBool false);
             ("route_key", PStr "R1")] in
  let r2 := [("_id", PInt 2); ("date", PStr "2025-11-25"); ("has_full_details", PBool false)] in
  run (Some "tok"%string) http (fun _ => 9) "2025-11-25" [r1; r2]
  = ([set_fields r1 [("full_raw", PDict [("id", PInt 7)]); ("has_full_details", PBool true);
                     ("last_refreshed_at", PDatetime 9)]; r2], 1%nat, None).
Proof.
  intros http r1 r2.
  refine (eq_trans (get_details_run (Some "tok"%string) http (fun _ => 9) "2025-11-25" [r1; r2] _ _) _).
  - solve_ids_ok.
  - intros p ps. eexists. reflexivity.
  - vm_compute. reflexivity.
Defined.

Lemma get_details_no_token_witness :
  let http := fun (_ : string) (_ : list (string * pyval)) =>
                Ok {| http_status := 200; http_json := Some (PDict []) |} in
  let routes := [[("_id", PInt 1); ("date", PStr "2025-11-25"); ("has_full_details", PBool false);
                  ("route_key", PStr "R1")]] in
  run (Some ""%string) http (fun _ => 9) "2025-11-25" routes = (routes, 0%nat, None).
Proof.
  intros http routes. apply get_details_no_token. now right.
Defined.

End ExtraDetails.

Module ExtraDispatches.
Import Py Mongo UpdateFacts FetchDispatches.

Lemma set_fields_lookup_nodup (d : dict) s k v :
  NoDup (map fst s) -> In (k, v) s -> dict_lookup (set_fields d s) k = Some v.
Proof.
  revert d. induction s as [|[k1 v1] s IH]; intros d Hn Hin; [destruct Hin|].
  cbn [map fst] in Hn. apply NoDup_cons in Hn as [Hk1 Hn].
  unfold set_fields. cbn [fold_left fst snd]. fold (set_fields (dict_set d k1 v1) s).
  destruct Hin as [[= -> ->]|Hin].
  - rewrite set_fields_lookup_notin by (intros H; apply Hk1; now apply list_elem_of_In).
    apply dict_lookup_set_eq.
  - now apply IH.
Qed.

Lemma set_fields_same (d : dict) s :
  (forall k v, In (k, v) s -> dict_lookup d k = Some v) -> set_fields d s = d.
Proof.
  revert d. induction s as [|[k v] s IH]; intros d H; [reflexivity|].
  unfold set_fields. cbn [fold_left fst snd]. rewrite dict_set_same by (apply H; now left).
  apply IH. intros k' v' Hin. apply H. now right.
Qed.

Lemma set_fields_idem (d : dict) s : NoDup (map fst s) -> set_fields (set_fields d s) s = set_fields d s.
Proof. intros Hn. apply set_fields_same. intros k v Hin. now apply set_fields_lookup_nodup. Qed.

Lemma dispatch_doc_nodup dispatch t : NoDup (map fst (dispatch_doc dispatch t)).
Proof.
  unfold dispatch_doc. rewrite map_app, map_map. cbn [map fst].
  apply (bool_decide_unpack _). vm_compute. reflexivity.
Qed.

Lemma doc_key dispatch t a :
  key_of "identifier" dispatch = Some a ->
  forall x, dict_lookup (set_fields x (dispatch_doc dispatch t)) "identifier" = Some (key_val a).
Proof.
  intros Ha x. apply set_fields_lookup_nodup; [apply dispatch_doc_nodup|].
  rewrite <- (get_id (k := "identifier") _ _ Ha). apply in_or_app. left.
  apply (in_map (fun k => (k, dict_get dispatch k)) dispatch_fields "identifier"). cbn. auto.
Qed.

Lemma field_eq_key_val (x : dict) k a : dict_lookup x k = Some (key_val a) -> field_eq x k (key_val a) = true.
Proof.
  intros H. unfold field_eq. rewrite H. destruct a; cbn [key_val bson_eq];
    [rewrite Z.eqb_refl | rewrite String.eqb_refl]; reflexivity.
Qed.

Lemma find_one_update (c : collection) p s :
  (forall x, p (set_fields x s) = true) -> existsb p c = true ->
  exists d, find_one c p = Some d /\ find_one (update_one c p s) p = Some (set_fields d s).
Proof.
  intros Hs. induction c as [|x c IH]; cbn [existsb find_one update_one]; [discriminate|].
  destruct (p x) eqn:E; cbn [orb].
  - intros _. exists x. split; [reflexivity|]. cbn [find_one]. now rewrite Hs.
  - intros H. destruct (IH H) as [d [E1 E2]]. exists d. split; [exact E1|]. cbn [find_one]. now rewrite E.
Qed.

Lemma find_one_app_last (c : collection) p y :
  existsb p c = false -> p y = true -> find_one (c ++ [y]) p = Some y.
Proof.
  induction c as [|x c IH]; cbn [existsb find_one app]; [intros _ ->; reflexivity|].
  destruct (p x); cbn [orb]; [discriminate|]. exact IH.
Qed.

(** Extra: after [save_dispatch_to_mongo] of a dispatch with an int or
    text identifier, the first document with that identifier holds every
    copied field of the dispatch and the sync timestamp. *)
Theorem save_dispatch_find col dispatch t new_id a :
  key_of "identifier" dispatch = Some a ->
  exists r, find_one (save_dispatch_to_mongo col dispatch t new_id)
              (fun x => field_eq x "identifier" (dict_get dispatch "identifier")) = Some r
    /\ (forall f, In f dispatch_fields -> dict_lookup r f = Some (dict_get dispatch f))
    /\ dict_lookup r "sync_timestamp" = Some (PStr t).
Proof.
  intros Ha. rewrite (get_id (k := "identifier") _ _ Ha).
  set (p := fun x => field_eq x "identifier" (key_val a)).
  assert (Hs : forall x, p (set_fields x (dispatch_doc dispatch t)) = true).
  { intros x. apply field_eq_key_val. now apply doc_key. }
  assert (Hf : forall x, (forall f, In f dispatch_fields ->
                 dict_lookup (set_fields x (dispatch_doc dispatch t)) f = Some (dict_get dispatch f))
               /\ dict_lookup (set_fields x (dispatch_doc dispatch t)) "sync_timestamp" = Some (PStr t)).
  { intros x. split.
    - intros f Hin. apply set_fields_lookup_nodup; [apply dispatch_doc_nodup|].
      apply in_or_app. left. now apply (in_map (fun k => (k, dict_get dispatch k))).
    - apply set_fields_lookup_nodup; [apply dispatch_doc_nodup|]. apply in_or_app. right. now left. }
  unfold save_dispatch_to_mongo, upsert_one. rewrite (get_id (k := "identifier") _ _ Ha). fold p.
  destruct (existsb p col) eqn:E.
  - destruct (find_one_update col p _ Hs E) as [d [_ E2]]. exists (set_fields d (dispatch_doc dispatch t)).
    split; [exact E2 | apply Hf].
  - eexists. split; [apply find_one_app_last; [exact E | apply Hs]| apply Hf].
Qed.

Lemma update_one_length (c : collection) p s : length (update_one c p s) = length c.
Proof. induction c as [|x c IH]; cbn [update_one]; [reflexivity|]. destruct (p x); cbn; lia. Qed.

Lemma update_one_count (c : collection) p s :
  (forall x, p (set_fields x s) = true) ->
  length (List.filter p (update_one c p s)) = length (List.filter p c).
Proof.
  intros Hs. induction c as [|x c IH]; cbn [update_one]; [reflexivity|].
  destruct (p x) eqn:E; cbn [List.filter]; rewrite ?Hs, ?E; cbn [length]; lia.
Qed.

Lemma existsb_filter_length {A} (p : A -> bool) l :
  existsb p l = false <-> length (List.filter p l) = 0%nat.
Proof.
  induction l as [|x l IH]; cbn [existsb List.filter]; [split; reflexivity|].
  destruct (p x); cbn [orb length]; [split; discriminate | exact IH].
Qed.

(** Extra: [save_dispatch_to_mongo] inserts one document when none has
    the dispatch's identifier and otherwise updates in place: the number
    of documents with the identifier becomes at least 1 and otherwise
    stays, and the collection grows by one only in the insert case. *)
Theorem save_dispatch_counts col dispatch t new_id a :
  key_of "identifier" dispatch = Some a ->
  let p := fun x => field_eq x "identifier" (dict_get dispatch "identifier") in
  let col' := save_dispatch_to_mongo col dispatch t new_id in
  length (List.filter p col') = Nat.max 1 (length (List.filter p col)) /\
  length col' = (length col + if existsb p col then 0 else 1)%nat.
Proof.
  intros Ha p col'. subst col'. unfold p. rewrite (get_id (k := "identifier") _ _ Ha).
  unfold save_dispatch_to_mongo, upsert_one. rewrite (get_id (k := "identifier") _ _ Ha).
  set (q := fun x => field_eq x "identifier" (key_val a)).
  assert (Hs : forall x, q (set_fields x (dispatch_doc dispatch t)) = true).
  { intros x. apply field_eq_key_val. now apply doc_key. }
  destruct (existsb q col) eqn:E.
  - rewrite update_one_count, update_one_length by exact Hs. split; [|lia].
    assert (length (List.filter q col) <> 0%nat) by (rewrite <- existsb_filter_length; congruence). lia.
  - rewrite List.filter_app, length_app, length_app. cbn [List.filter]. rewrite Hs.
    apply existsb_filter_length in E. rewrite E. cbn. lia.
Qed.

Lemma update_one_again (c : collection) p s :
  NoDup (map fst s) -> (forall x, p (set_fields x s) = true) ->
  update_one (update_one c p s) p s = update_one c p s.
Proof.
  intros Hn Hs. induction c as [|x c IH]; cbn [update_one]; [reflexivity|].
  destruct (p x) eqn:E; cbn [update_one].
  - rewrite Hs, set_fields_idem by exact Hn. reflexivity.
  - rewrite E, IH. reflexivity.
Qed.

Lemma update_one_app_last (c : collection) p s y :
  existsb p c = false -> p y = true -> update_one (c ++ [y]) p s = c ++ [set_fields y s].
Proof.
  induction c as [|x c IH]; cbn [existsb update_one app]; [intros _ ->; reflexivity|].
  destruct (p x); cbn [orb]; [discriminate|]. intros H Hy. now rewrite IH.
Qed.

Lemma existsb_update (c : collection) p s :
  (forall x, p (set_fields x s) = true) -> existsb p c = true -> existsb p (update_one c p s) = true.
Proof.
  intros Hs. induction c as [|x c IH]; cbn [existsb update_one]; [discriminate|].
  destruct (p x) eqn:E; cbn [existsb orb]; [now rewrite Hs | rewrite E; exact IH].
Qed.

(** Extra: saving the same dispatch a second time with the same sync
    timestamp leaves the collection as the first save left it. *)
Theorem save_dispatch_idempotent col dispatch t id1 id2 a :
  key_of "identifier" dispatch = Some a ->
  save_dispatch_to_mongo (save_dispatch_to_mongo col dispatch t id1) dispatch t id2
  = save_dispatch_to_mongo col dispatch t id1.
Proof.
  intros Ha. unfold save_dispatch_to_mongo. rewrite (get_id (k := "identifier") _ _ Ha).
  set (q := fun x => field_eq x "identifier" (key_val a)).
  assert (Hs : forall x, q (set_fields x (dispatch_doc dispatch t)) = true).
  { intros x. apply field_eq_key_val. now apply doc_key. }
  pose proof (dispatch_doc_nodup dispatch t) as Hn.
  unfold upsert_one at 2. destruct (existsb q col) eqn:E.
  - unfold upsert_one. rewrite E, (existsb_update _ _ _ Hs E). now apply update_one_again.
  - unfold upsert_one. rewrite E, existsb_app. cbn [existsb]. rewrite Hs, orb_true_r.
    rewrite update_one_app_last by (exact E || apply Hs). now rewrite set_fields_idem.
Qed.


Lemma fetch_unroll api (Ls : list (list dict)) fuel p saved :
  Forall (fun l => l <> []) Ls ->
  (forall j, (j < length Ls)%nat ->
     api (p + Z.of_nat j) = Ok {| status_code := 200; response_dispatches := nth j Ls [] |}) ->
  fetch_dispatches_by_dates api (length Ls + fuel) p saved
  = fetch_dispatches_by_dates api fuel (p + Z.of_nat (length Ls)) (app saved (concat Ls)).
Proof.
  revert p saved. induction Ls as [|l Ls IH]; intros p saved Hne Hapi.
  - cbn. rewrite Z.add_0_r, app_nil_r. reflexivity.
  - apply Forall_cons in Hne as [Hl Hne]. cbn [length Nat.add fetch_dispatches_by_dates].
    pose proof (Hapi 0%nat ltac:(cbn; lia)) as H0. rewrite Z.add_0_r in H0. rewrite H0.
    cbn [status_code response_dispatches nth Z.eqb].
    destruct l as [|x l']; [contradiction|]. rewrite IH.
    + cbn [concat]. rewrite app_assoc. f_equal. lia.
    + exact Hne.
    + intros j Hj. pose proof (Hapi (S j) ltac:(cbn; lia)) as HS. cbn [nth] in HS.
      rewrite <- HS. f_equal. lia.
Qed.

(** Extra: when pages [1..n] answer 200 with non-empty dispatch lists and
    page [n+1] answers with another status or an empty list, the loop
    ends after page [n+1] with the dispatches of the pages saved in page
    order; a request exception at page [n+1] is raised instead. *)
Theorem fetch_dispatches_pages api (Ls : list (list dict)) fuel :
  Forall (fun l => l <> []) Ls ->
  (forall j, (j < length Ls)%nat ->
     api (1 + Z.of_nat j) = Ok {| status_code := 200; response_dispatches := nth j Ls [] |}) ->
  (forall r, api (1 + Z.of_nat (length Ls)) = Ok r -> status_code r <> 200 \/ response_dispatches r = []) ->
  fetch_dispatches_by_dates api (length Ls + S fuel) 1 []
  = Some (match api (1 + Z.of_nat (length Ls)) with Ok _ => Ok (concat Ls) | Err e => Err e end).
Proof.
  intros Hne Hapi Hend. rewrite fetch_unroll by assumption. cbn [fetch_dispatches_by_dates app].
  destruct (api (1 + Z.of_nat (length Ls))) as [r|e]; [|reflexivity].
  destruct (Hend r eq_refl) as [H|H].
  - destruct (Z.eqb_spec (status_code r) 200); [contradiction|reflexivity].
  - rewrite H. destruct (_ =? 200); reflexivity.
Qed.
Lemma save_dispatch_find_witness :
  let col := [[("_id", PInt 5); ("identifier", PStr "A1"); ("status", PInt 1)];
              [("_id", PInt 6); ("identifier", PStr "B2")]] in
  let dispatch := [("identifier", PStr "A1"); ("status", PInt 2)] in
  exists r, find_one (save_dispatch_to_mongo col dispatch "2025-11-26" (PInt 7))
              (fun x => field_eq x "identifier" (PStr "A1")) = Some r
    /\ dict_lookup r "status" = Some (PInt 2)
    /\ dict_lookup r "sync_timestamp" = Some (PStr "2025-11-26").
Proof.
  intros col dispatch.
  destruct (save_dispatch_find col dispatch "2025-11-26" (PInt 7) (KStr "A1") eq_refl)
    as (r & E & Hf & Ht).
  exists r. split; [exact E|]. split; [|exact Ht].
  apply (Hf "status"). cbn. tauto.
Defined.

Lemma save_dispatch_counts_witness :
  let col := [[("_id", PInt 5); ("identifier", PStr "A1"); ("status", PInt 1)];
              [("_id", PInt 6); ("identifier", PStr "B2")]] in
  let dispatch := [("identifier", PStr "C3"); ("status", PInt 2)] in
  let col' := save_dispatch_to_mongo col dispatch "2025-11-26" (PInt 7) in
  length (List.filter (fun x => field_eq x "identifier" (PStr "C3")) col') = 1%nat /\
  length col' = 3%nat.
Proof.
  intros col dispatch col'.
  destruct (save_dispatch_counts col dispatch "2025-11-26" (PInt 7) (KStr "C3") eq_refl) as [H1 H2].
  split; [exact H1 | exact H2].
Defined.

Lemma save_dispatch_idempotent_witness :
  let col := [[("_id", PInt 5); ("identifier", PStr "A1"); ("status", PInt 1)]] in
  let dispatch := [("identifier", PStr "A1"); ("status", PInt 2)] in
  save_dispatch_to_mongo (save_dispatch_to_mongo col dispatch "2025-11-26" (PInt 7))
    dispatch "2025-11-26" (PInt 8)
  = save_dispatch_to_mongo col dispatch "2025-11-26" (PInt 7).
Proof.
  intros col dispatch. exact (save_dispatch_idempotent col dispatch _ _ _ (KStr "A1") eq_refl).
Defined.

Lemma fetch_dispatches_pages_witness :
  let api := fun p => if p =? 1
                      then Ok {| status_code := 200; response_dispatches := [[("identifier", PStr "A1")]] |}
                      else Ok {| status_code := 200; response_dispatches := [] |} in
  fetch_dispatches_by_dates api 2 1 [] = Some (Ok [[("identifier", PStr "A1")]]).
Proof.
  intros api.
  refine (eq_trans (fetch_dispatches_pages api [[[("identifier", PStr "A1")]]] 0 _ _ _) _).
  - repeat constructor. discriminate.
  - intros j Hj. destruct j; [reflexivity | cbn in Hj; lia].
  - intros r E. right. cbn in E. injection E as <-. reflexivity.
  - reflexivity.
Defined.

End ExtraDispatches.

Module ExtraBackfill.
Import Py Mongo UpdateFacts LoopFacts TagFacts ExtraDetails.

(** Extra: [normalize_compromise_date] returns a value exactly when the
    raw value is truthy and its stripped text is eight decimal digits
    [YYYYMMDD]; the value is then [YYYY-MM-DD]. *)
Theorem normalize_compromise_date_spec raw r :
  BackfillCompromiseDate.normalize_compromise_date raw = Some r <->
  truthy raw = true /\
  exists y1 y2 y3 y4 m1 m2 d1 d2,
    strip (str raw) = String y1 (String y2 (String y3 (String y4 (String m1 (String m2
                        (String d1 (String d2 EmptyString))))))) /\
    Forall (fun a => is_digit a = true) [y1; y2; y3; y4; m1; m2; d1; d2] /\
    r = String y1 (String y2 (String y3 (String y4 (String "-" (String m1 (String m2
          (String "-" (String d1 (String d2 EmptyString))))))))).
Proof.
  unfold BackfillCompromiseDate.normalize_compromise_date.
  destruct (truthy raw); cbn [negb]; [|split; [discriminate | intros [[=] _]]].
  generalize (strip (str raw)) as s. intros s.
  destruct s as [|y1 [|y2 [|y3 [|y4 [|m1 [|m2 [|d1 [|d2 [|z s]]]]]]]]];
    cbn [String.length Nat.eqb negb orb];
    try (split; [discriminate | intros [_ (? & ? & ? & ? & ? & ? & ? & ? & [=] & _)]]).
  unfold isdigit. cbn [all_digits].
  split.
  - destruct (is_digit y1) eqn:E1, (is_digit y2) eqn:E2, (is_digit y3) eqn:E3, (is_digit y4) eqn:E4,
      (is_digit m1) eqn:E5, (is_digit m2) eqn:E6, (is_digit d1) eqn:E7, (is_digit d2) eqn:E8;
      cbn; try discriminate.
    intros [= <-]. split; [reflexivity|]. do 8 eexists. split; [reflexivity|].
    split; [repeat constructor; assumption | reflexivity].
  - intros [_ (a1 & a2 & a3 & a4 & a5 & a6 & a7 & a8 & [= <- <- <- <- <- <- <- <-] & Hd & ->)].
    repeat match goal with H : Forall _ (_ :: _) |- _ => apply Forall_cons in H as [? H] end.
    repeat match goal with H : is_digit _ = true |- _ => rewrite H end. reflexivity.
Qed.


Lemma existsb_ext_eq {A} (f g : A -> bool) l : (forall x, f x = g x) -> existsb f l = existsb g l.
Proof. intros H. induction l as [|x l IH]; cbn; [reflexivity|]. now rewrite H, IH. Qed.

Lemma loop_exc {S : Type} k (body : dict -> S -> res (option (list (string * pyval)) * S)) E docs c n :
  (forall d m m', decision body m d = decision body m' d) ->
  (forall d m e, body d m = Err e -> e = E) ->
  snd (for_each_update k body docs c n)
  = if existsb (fun d => match decision body n d with Err _ => true | Ok _ => false end) docs
    then Some E else None.
Proof.
  intros Hind HE. revert c n. induction docs as [|d docs IH]; intros c n; cbn [for_each_update existsb];
    [reflexivity|].
  unfold decision at 1. destruct (body d n) as [[o n']|e] eqn:Eb; cbn [orb].
  - destruct o; rewrite IH; rewrite (existsb_ext_eq _ (fun d => match decision body n d with
                                    Err _ => true | Ok _ => false end)) by (intros x; now rewrite (Hind x n' n));
      reflexivity.
  - cbn. f_equal. eapply HE; eauto.
Qed.

Lemma project_dispatch_raw_lookup doc :
  dict_lookup (JobsBackfillTipoOrden.project_dispatch_raw_tags doc) "dispatch_raw" =
  match dict_lookup doc "dispatch_raw" with
  | Some (PDict kvs) => Some (PDict (project ["tags"] kvs))
  | Some (PList l) => Some (PList (flat_map (fun v => match v with
                                       | PDict kvs => [PDict (project ["tags"] kvs)]
                                       | _ => [] end) l))
  | _ => None
  end.
Proof.
  unfold JobsBackfillTipoOrden.project_dispatch_raw_tags.
  destruct (dict_lookup doc "_id"); cbn [app dict_lookup String.eqb]; [cbn - [project flat_map]|];
    destruct (dict_lookup doc "dispatch_raw") as [[]|]; reflexivity.
Qed.

(** Extra: the pipeline's [tipo_orden] backfill ends with an
    [AttributeError] exactly when a selected dispatch has a list as its
    [dispatch_raw] (the projection keeps a list, and [.get] is called on
    it); otherwise it raises nothing. *)
Theorem jobs_tipo_orden_exception c :
  snd (JobsBackfillTipoOrden.run c)
  = if existsb (fun x => JobsBackfillTipoOrden.selected x
                         && match dict_lookup x "dispatch_raw" with Some (PList _) => true | _ => false end) c
    then Some AttributeError else None.
Proof.
  unfold JobsBackfillTipoOrden.run, find.
  rewrite (loop_exc "_id" _ AttributeError).
  - match goal with |- (if ?e then _ else _) = (if ?e' then _ else _) =>
      replace e with e'; [reflexivity|] end.
    generalize (0, 0, 0)%nat. intros n.
    assert (Hx : forall x, match decision (fun doc => JobsBackfillTipoOrden.body
                                   (JobsBackfillTipoOrden.project_dispatch_raw_tags doc)) n x with
                 | Err _ => true | Ok _ => false end
                 = match dict_lookup x "dispatch_raw" with Some (PList _) => true | _ => false end).
    { intros x. destruct n as [[a b] m]. unfold decision, JobsBackfillTipoOrden.body,
        JobsBackfillTipoOrden._get_tag_value_from_dispatch.
      rewrite project_dispatch_raw_lookup.
      destruct (dict_lookup x "dispatch_raw") as [[]|]; cbn [get_or bind]; try reflexivity.
      all: match goal with |- context [match ?t with PList l => JobsBackfillTipoOrden.tag_scan _ l | _ => _ end] =>
             destruct t; try reflexivity end.
      all: destruct (tag_scan_total "TIPO_ORDEN" l) as [v Hv]; rewrite Hv; cbn [bind];
             destruct (negb (truthy v)); reflexivity. }
    induction c as [|x c IH]; [reflexivity|].
    cbn [List.filter existsb]. destruct (JobsBackfillTipoOrden.selected x); cbn [andb orb existsb];
      [rewrite Hx, IH; reflexivity | exact IH].
  - apply job_ind.
  - intros d [[a b] m] e. unfold JobsBackfillTipoOrden.body, JobsBackfillTipoOrden._get_tag_value_from_dispatch.
    rewrite project_dispatch_raw_lookup.
    destruct (dict_lookup d "dispatch_raw") as [[]|]; cbn [get_or bind]; try (intros [= <-]; reflexivity).
    all: match goal with |- context [match ?t with PList l => JobsBackfillTipoOrden.tag_scan _ l | _ => _ end] =>
           destruct t; try discriminate end.
    all: destruct (tag_scan_total "TIPO_ORDEN" l) as [v Hv]; rewrite Hv; cbn [bind];
           destruct (negb (truthy v)); discriminate.
Qed.

Lemma loop_count {S : Type} k (body : dict -> S -> res (option (list (string * pyval)) * S))
    (f : S -> nat) (w : dict -> bool) docs c n :
  (forall d m, exists r, body d m = Ok r) ->
  (forall d m o m', body d m = Ok (o, m') -> f m' = (f m + if w d then 1 else 0)%nat) ->
  f (snd (fst (for_each_update k body docs c n))) = (f n + length (List.filter w docs))%nat.
Proof.
  intros Ht Hf. revert c n. induction docs as [|d docs IH]; intros c n; cbn [for_each_update List.filter].
  - cbn. lia.
  - destruct (Ht d n) as [[o m'] E]. rewrite E. pose proof (Hf d n o m' E) as Hm.
    destruct o; rewrite IH, Hm; destruct (w d); cbn [length]; lia.
Qed.

Lemma filter_true {A} (l : list A) : List.filter (fun _ => true) l = l.
Proof. induction l as [|x l IH]; cbn; [reflexivity|]. now rewrite IH. Qed.

(** Extra: with distinct identifiers, the compromise-date backfill sets
    [compromise_date_raw] and [compromise_date] on exactly the selected
    dispatches whose [FECSOLDES] tag normalizes, leaves every other
    dispatch unchanged, returns the number of updated dispatches and
    raises nothing. *)
Theorem compromise_date_run c thr :
  ids_ok "identifier" c ->
  let out x := match BackfillCompromiseDate.extract_fecsoldes
                       (match dict_lookup x "tags" with Some t => t | None => PList [] end) with
               | Ok raw => match BackfillCompromiseDate.normalize_compromise_date raw with
                           | Some cd => Some [("compromise_date_raw", raw); ("compromise_date", PStr cd)]
                           | None => None end
               | Err _ => None end in
  BackfillCompromiseDate.run c thr =
  (map (fun x => if BackfillCompromiseDate.selected thr x then
                   match out x with Some s => set_fields x s | None => x end else x) c,
   length (List.filter (fun x => BackfillCompromiseDate.selected thr x
                                 && match out x with Some _ => true | None => false end) c),
   None).
Proof.
  intros Hc out.
  unfold BackfillCompromiseDate.run, BackfillCompromiseDate.process_batch, find.
  set (body := BackfillCompromiseDate.body).
  assert (Hw : forall m x, written body m x = out x).
  { intros m x. unfold written, decision, body, BackfillCompromiseDate.body, out.
    destruct (fecsoldes_total (match dict_lookup x "tags" with Some t => t | None => PList [] end))
      as [v E]. rewrite E. cbn [bind].
    destruct v; try reflexivity; destruct (BackfillCompromiseDate.normalize_compromise_date _); reflexivity. }
  assert (Hind : forall d n n', decision body n d = decision body n' d).
  { intros d n n'. unfold decision.
    destruct (date_body_cases d) as [H|[raw [cd H]]]; unfold body; rewrite !H; reflexivity. }
  assert (Hkeys : forall d s, written body 0%nat d = Some s -> ~ In "identifier"%string (map fst s)).
  { intros d s. unfold written, decision, body.
    destruct (date_body_cases d) as [H|[raw [cd H]]]; rewrite H; [discriminate|].
    intros [= <-]. simpl. intuition discriminate. }
  assert (Htot : forall d m, exists r, body d m = Ok r).
  { intros d m. unfold body. destruct (date_body_cases d) as [H|[raw [cd H]]]; rewrite H; eauto. }
  assert (Hn : snd (for_each_update "identifier" body (List.filter (BackfillCompromiseDate.selected thr) c) c 0%nat) = None).
  { apply loop_total. intros d _ m. apply Htot. }
  pose proof (loop_complete "identifier" body (BackfillCompromiseDate.selected thr) 0%nat Hind Hkeys c Hc Hn) as Hr.
  pose proof (loop_count "identifier" body (fun m => m) (fun x => match out x with Some _ => true | None => false end)
                (List.filter (BackfillCompromiseDate.selected thr) c) c 0%nat Htot) as Hk.
  destruct (for_each_update _ _ _ _ _) as [[c' n'] o]. cbn [fst snd] in Hn, Hr, Hk. subst.
  rewrite Hk.
  - f_equal. f_equal.
    + apply map_ext. intros x. now rewrite Hw.
    + cbn [Nat.add]. now rewrite filter_filter_andb.
  - intros d m o' m' E. rewrite <- (Hw m d). unfold written, decision. rewrite E.
    unfold body in E. destruct (date_body_cases d) as [H|[raw [cd H]]]; rewrite H in E;
      injection E as <- <-; lia.
Qed.

(** Extra: with distinct ids, the [tipo_orden] backfill script sets
    [tipo_orden] to the [TIPO_ORDEN] tag value on exactly the selected
    dispatches where that value is not [None], leaves every other
    dispatch unchanged, scans all selected ones, counts the updated ones
    and raises nothing. *)
Theorem tipo_orden_run c thr :
  ids_ok "_id" c ->
  let out x := match BackfillTipoOrden.extract_tipo_orden
                       (match dict_lookup x "tags" with Some t => t | None => PList [] end) with
               | Ok PNone | Err _ => None
               | Ok v => Some v end in
  BackfillTipoOrden.run c thr =
  (map (fun x => if BackfillTipoOrden.selected thr x then
                   match out x with Some v => set_fields x [("tipo_orden", v)] | None => x end else x) c,
   (length (List.filter (BackfillTipoOrden.selected thr) c),
    length (List.filter (fun x => BackfillTipoOrden.selected thr x
                                  && match out x with Some _ => true | None => false end) c)),
   None).
Proof.
  intros Hc out.
  unfold BackfillTipoOrden.run, find.
  set (body := BackfillTipoOrden.body).
  assert (Hw : forall m x, written body m x = match out x with Some v => Some [("tipo_orden", v)] | None => None end).
  { intros [a b] x. unfold written, decision, body, BackfillTipoOrden.body, out.
    destruct (tipo_orden_total (match dict_lookup x "tags" with Some t => t | None => PList [] end))
      as [v E]. rewrite E. cbn [bind]. destruct v; reflexivity. }
  assert (Htot : forall d m, exists r, body d m = Ok r).
  { intros d [a b]. unfold body. destruct (tipo_body_cases d) as [H|[v H]]; rewrite H; eauto. }
  assert (Hn : snd (for_each_update "_id" body (List.filter (BackfillTipoOrden.selected thr) c) c (0, 0)%nat) = None).
  { apply loop_total. intros d _ m. apply Htot. }
  pose proof (loop_complete "_id" body (BackfillTipoOrden.selected thr) (0, 0)%nat tipo_ind (tipo_keys (0, 0)%nat) c Hc Hn) as Hr.
  pose proof (loop_count "_id" body fst (fun _ => true)
                (List.filter (BackfillTipoOrden.selected thr) c) c (0, 0)%nat Htot) as Hk1.
  pose proof (loop_count "_id" body snd (fun x => match out x with Some _ => true | None => false end)
                (List.filter (BackfillTipoOrden.selected thr) c) c (0, 0)%nat Htot) as Hk2.
  destruct (for_each_update _ _ _ _ _) as [[c' [n1 n2]] o]. cbn [fst snd] in Hn, Hr, Hk1, Hk2. subst.
  rewrite Hk1, Hk2.
  - f_equal. f_equal; [|f_equal].
    + apply map_ext. intros x. rewrite Hw. destruct (BackfillTipoOrden.selected thr x); [|reflexivity].
      now destruct (out x).
    + cbn [fst Nat.add]. now rewrite filter_true.
    + cbn [snd Nat.add]. now rewrite filter_filter_andb.
  - intros d [a b] o' [a' b'] E. cbn [snd].
    assert (Hd := Hw (a, b) d). unfold written, decision in Hd. rewrite E in Hd.
    unfold body in E. destruct (tipo_body_cases d) as [H|[v H]]; rewrite H in E;
      injection E as <- <- <-; destruct (out d); try discriminate; lia.
  - intros d [a b] o' [a' b'] E. cbn [fst].
    unfold body in E. destruct (tipo_body_cases d) as [H|[v H]]; rewrite H in E;
      injection E as <- <- <-; lia.
Qed.

Lemma ct_step_tally extract ct_col d n o m :
  BackfillCT.step_with extract ct_col d n = Ok (o, m) ->
  BackfillCT.total m = S (BackfillCT.total n) /\
  (BackfillCT.updated m + BackfillCT.no_codcomu m + BackfillCT.not_found m
   = S (BackfillCT.updated n + BackfillCT.no_codcomu n + BackfillCT.not_found n))%nat.
Proof.
  unfold BackfillCT.step_with. destruct (extract d) as [[e|]|e]; cbn [bind]; [| |discriminate].
  - destruct (String.eqb e ""); [intros [= <- <-]; cbn; lia|].
    destruct (find_one _ _) as [r|]; [|intros [= <- <-]; cbn; lia].
    destruct (negb (truthy (PDict r))); [intros [= <- <-]; cbn; lia|].
    destruct (negb (truthy _)); intros [= <- <-]; cbn; lia.
  - intros [= <- <-]. cbn. lia.
Qed.

Lemma ct_loop_tally extract ct_col docs c n :
  BackfillCT.total n = (BackfillCT.updated n + BackfillCT.no_codcomu n + BackfillCT.not_found n)%nat ->
  let r := for_each_update "_id" (BackfillCT.step_with extract ct_col) docs c n in
  BackfillCT.total (snd (fst r))
  = (BackfillCT.updated (snd (fst r)) + BackfillCT.no_codcomu (snd (fst r)) + BackfillCT.not_found (snd (fst r)))%nat /\
  (snd r = None -> BackfillCT.total (snd (fst r)) = (BackfillCT.total n + length docs)%nat).
Proof.
  revert c n. induction docs as [|d docs IH]; intros c n Hn r; subst r; cbn [for_each_update].
  - cbn [fst snd length]. split; [exact Hn | lia].
  - destruct (BackfillCT.step_with extract ct_col d n) as [[o m]|e] eqn:E.
    + destruct (ct_step_tally _ _ _ _ _ _ E) as [H1 H2].
      assert (Hm : BackfillCT.total m
                   = (BackfillCT.updated m + BackfillCT.no_codcomu m + BackfillCT.not_found m)%nat) by lia.
      destruct o as [s|];
        [destruct (IH (update_one c (fun x => field_eq x "_id" (dict_get d "_id")) s) m Hm) as [I1 I2]
        |destruct (IH c m Hm) as [I1 I2]];
        (split; [exact I1 | intros Hnone; rewrite (I2 Hnone); cbn [length]; lia]).
    + cbn [fst snd]. split; [exact Hn | discriminate].
Qed.

(** Extra: in both CT backfills every processed dispatch is counted in
    exactly one of [updated], [no_CODCOMU] and [not_found_in_CT]; when no
    exception ends the loop, [Processed] is the number of selected
    dispatches. *)
Theorem ct_counters ct_col c thr :
  (let r := BackfillCT.run ct_col c thr in
   BackfillCT.total (snd (fst r))
   = (BackfillCT.updated (snd (fst r)) + BackfillCT.no_codcomu (snd (fst r)) + BackfillCT.not_found (snd (fst r)))%nat
   /\ (snd r = None -> BackfillCT.total (snd (fst r)) = length (find c (BackfillCT.selected thr)))) /\
  (let r := GetCT.run ct_col c in
   BackfillCT.total (snd (fst r))
   = (BackfillCT.updated (snd (fst r)) + BackfillCT.no_codcomu (snd (fst r)) + BackfillCT.not_found (snd (fst r)))%nat
   /\ (snd r = None -> BackfillCT.total (snd (fst r)) = length (find c GetCT.selected))).
Proof.
  split; cbv zeta; unfold BackfillCT.run, GetCT.run, BackfillCT.step, GetCT.step;
    match goal with |- context [for_each_update _ (BackfillCT.step_with ?ex ?ct) ?docs ?c0 _] =>
      destruct (ct_loop_tally ex ct docs c0 BackfillCT.counts0 eq_refl) as [I1 I2] end;
    (split; [exact I1 | intros Hn; rewrite (I2 Hn); reflexivity]).
Qed.



Lemma compromise_date_run_witness :
  let x1 := [("_id", PInt 1); ("identifier", PStr "D1"); ("sync_timestamp", PStr "2025-11-26");
             ("tags", PList [PDict [("name", PStr "FECSOLDES"); ("value", PStr "20251201")]])] in
  let x2 := [("_id", PInt 2); ("identifier", PStr "D2"); ("sync_timestamp", PStr "2025-11-26");
             ("tags", PList [PDict [("name", PStr "FECSOLDES"); ("value", PStr "1/12/2025")]])] in
  BackfillCompromiseDate.run [x1; x2] "2025-11-25"
  = ([set_fields x1 [("compromise_date_raw", PStr "20251201"); ("compromise_date", PStr "2025-12-01")]; x2],
     1%nat, None).
Proof.
  intros x1 x2.
  refine (eq_trans (compromise_date_run [x1; x2] "2025-11-25" _) _).
  - solve_ids_ok.
  - vm_compute. reflexivity.
Defined.

Lemma tipo_orden_run_witness :
  let x1 := [("_id", PInt 1); ("sync_timestamp", PStr "2025-11-26");
             ("tags", PList [PDict [("name", PStr "TIPO_ORDEN"); ("value", PStr "B2C")]])] in
  let x2 := [("_id", PInt 2); ("sync_timestamp", PStr "2025-11-26"); ("tags", PList [])] in
  BackfillTipoOrden.run [x1; x2] "2025-11-25"
  = ([set_fields x1 [("tipo_orden", PStr "B2C")]; x2], (2%nat, 1%nat), None).
Proof.
  intros x1 x2.
  refine (eq_trans (tipo_orden_run [x1; x2] "2025-11-25" _) _).
  - solve_ids_ok.
  - vm_compute. reflexivity.
Defined.

End ExtraBackfill.

Module ExtraSubstatus.
Import Py Mongo StringFacts.

Lemma string_of_Z_shape z :
  exists a r, string_of_Z z = String a r /\
    (if z <? 0 then a = "-"%char /\ all_digits r = true
     else all_digits (String a r) = true /\ digits_value (String a r) = z).
Proof.
  unfold string_of_Z. destruct (Z.ltb_spec z 0) as [Hz|Hz].
  - destruct (string_of_N_props (Z.to_N (- z))) as (a & r & E & Hd & _). rewrite E.
    exists "-"%char, (String a r). auto.
  - destruct (string_of_N_props (Z.to_N z)) as (a & r & E & Hd & Hv). rewrite E.
    exists a, r. split; [reflexivity|]. split; [exact Hd | rewrite Hv; lia].
Qed.

Lemma string_of_Z_strip z : strip (string_of_Z z) = string_of_Z z.
Proof.
  destruct (string_of_Z_shape z) as (a & r & E & H). rewrite E. apply strip_nospace.
  destruct (z <? 0).
  - destruct H as [-> Hd]. constructor; [reflexivity|]. apply all_digits_forall in Hd.
    eapply Forall_impl; [exact Hd|]. apply is_digit_not_space.
  - destruct H as [Hd _]. apply all_digits_forall in Hd.
    eapply Forall_impl; [exact Hd|]. apply is_digit_not_space.
Qed.

Lemma lower_ascii_digit a : is_digit a = true -> lower_ascii a = a.
Proof.
  unfold is_digit, lower_ascii. remember (a_code a) as n.
  rewrite andb_true_iff, !Nat.leb_le. intros [H1 H2].
  destruct (Nat.leb_spec 65 n); [lia|]. reflexivity.
Qed.

Lemma string_of_Z_not_nan z :
  (String.eqb (string_of_Z z) "" || String.eqb (lower (string_of_Z z)) "nan") = false.
Proof.
  destruct (string_of_Z_shape z) as (a & r & E & H). rewrite E.
  assert (Ha : lower_ascii a = a /\ a <> "n"%char).
  { destruct (z <? 0).
    - destruct H as [-> _]. split; [reflexivity | discriminate].
    - destruct H as [Hd _]. cbn [all_digits] in Hd. apply andb_true_iff in Hd as [Ha _].
      split; [now apply lower_ascii_digit|]. intros ->. discriminate Ha. }
  destruct Ha as [Hl Hn]. cbn [lower map_ascii]. rewrite Hl. cbn [String.eqb orb].
  destruct (Ascii.eqb_spec a "n"%char); [contradiction|]. destruct a; reflexivity.
Qed.

Lemma isdigit_string_of_Z z : isdigit (string_of_Z z) = (0 <=? z).
Proof.
  destruct (string_of_Z_shape z) as (a & r & E & H). rewrite E. unfold isdigit.
  destruct (Z.ltb_spec z 0) as [Hz|Hz].
  - destruct H as [-> _]. cbn. symmetry. apply Z.leb_gt. exact Hz.
  - destruct H as [Hd _]. rewrite Hd. symmetry. apply Z.leb_le. exact Hz.
Qed.

Lemma digits_value_string_of_Z z : 0 <= z -> digits_value (string_of_Z z) = z.
Proof.
  intros Hz. destruct (string_of_Z_shape z) as (a & r & E & H). rewrite E.
  destruct (Z.ltb_spec z 0); [lia|]. apply H.
Qed.

(** Extra: an int substatus code [n] is looked up as its text [str(n)]
    and, when [n >= 0], also as the int [int(str(n)) = n]; a negative code
    only as its text. The pipeline's [get_substatus] also tries the raw
    int itself (the lists are the members of the Python sets). *)
Theorem int_code_variants n :
  BackfillSubstatus._code_variants (PInt n)
  = Some (PStr (string_of_Z n) :: (if 0 <=? n then [PInt n] else [])) /\
  GetSubstatus._code_variants (PInt n)
  = Ok (Some ([PInt n; PStr (string_of_Z n)] ++ (if 0 <=? n then [PInt n] else []))).
Proof.
  unfold BackfillSubstatus._code_variants, BackfillSubstatus._normalize_code, GetSubstatus._code_variants, GetSubstatus.code_variants_of.
  cbn [is_bad_number str repr]. rewrite string_of_Z_strip, string_of_Z_not_nan, isdigit_string_of_Z.
  split; destruct (Z.leb_spec 0 n); try reflexivity; rewrite digits_value_string_of_Z by lia; reflexivity.
Qed.

End ExtraSubstatus.

Module ExtraTipoOrdenJob.
Import Py Mongo UpdateFacts LoopFacts TagFacts.

Lemma loop_tally {S : Type} k (body : dict -> S -> res (option (list (string * pyval)) * S))
    (f g : S -> nat) docs c n :
  (forall d m o m', body d m = Ok (o, m') -> f m' = Datatypes.S (f m) /\ g m' = Datatypes.S (g m)) ->
  f n = g n ->
  let r := for_each_update k body docs c n in
  f (snd (fst r)) = g (snd (fst r)) /\ (snd r = None -> f (snd (fst r)) = (f n + length docs)%nat).
Proof.
  intros Hb. revert c n. induction docs as [|d docs IH]; intros c n Hn r; subst r; cbn [for_each_update].
  - cbn [fst snd length]. split; [exact Hn | lia].
  - destruct (body d n) as [[o m]|e] eqn:E.
    + destruct (Hb d n o m E) as [H1 H2]. assert (Hm : f m = g m) by lia.
      destruct o as [s|];
        [destruct (IH (update_one c (fun x => field_eq x k (dict_get d k)) s) m Hm) as [I1 I2]
        |destruct (IH c m Hm) as [I1 I2]];
        (split; [exact I1 | intros Hnone; rewrite (I2 Hnone); cbn [length]; lia]).
    + cbn [fst snd]. split; [exact Hn | discriminate].
Qed.

(** Extra: in the pipeline's [tipo_orden] backfill every scanned dispatch
    is counted as updated or as missing its tag; when no exception ends the
    loop, every selected dispatch is scanned. *)
Theorem jobs_tipo_orden_counters c :
  let r := JobsBackfillTipoOrden.run c in
  let '(total, updated, missing) := snd (fst r) in
  total = (updated + missing)%nat /\
  (snd r = None -> total = length (find c JobsBackfillTipoOrden.selected)).
Proof.
  cbv zeta. unfold JobsBackfillTipoOrden.run.
  destruct (loop_tally "_id" (fun doc => JobsBackfillTipoOrden.body (JobsBackfillTipoOrden.project_dispatch_raw_tags doc))
              (fun n => fst (fst n)) (fun n => (snd (fst n) + snd n)%nat)
              (find c JobsBackfillTipoOrden.selected) c (0, 0, 0)%nat) as [H1 H2].
  - intros d [[a b] m] o [[a' b'] m'] E. cbn [fst snd].
    destruct (job_body_cases (JobsBackfillTipoOrden.project_dispatch_raw_tags d))
      as [[e H]|[H|[v [_ [_ H]]]]]; rewrite H in E; [discriminate| |]; injection E as <- <- <- <-; lia.
  - reflexivity.
  - destruct (for_each_update _ _ _ _ _) as [[c' [[a b] m]] o]. cbn [fst snd] in H1, H2 |- *.
    split; [exact H1 | exact H2].
Qed.

End ExtraTipoOrdenJob.

Module ExtraCodcomu.
Import Py Mongo.

Local Abbreviation codcomu_tag :=
  (fun t : pyval => match t with
           | PDict kvs =>
               let name := if truthy (dict_get kvs "name") then dict_get kvs "name"
                           else dict_get kvs "Name" in
               truthy name && String.eqb (upper (strip (str name))) "CODCOMU"
           | _ => false
           end).

Lemma codcomu_scan_cons kvs l :
  BackfillCT.codcomu_scan (PDict kvs :: l)
  = if codcomu_tag (PDict kvs) then BackfillCT.codcomu_scan [PDict kvs] else BackfillCT.codcomu_scan l.
Proof.
  cbn [BackfillCT.codcomu_scan get bind].
  destruct (truthy (dict_get kvs "name")); cbn [bind];
    (destruct (truthy _); cbn [negb andb]; [|reflexivity]);
    (destruct (String.eqb _ "CODCOMU"); reflexivity).
Qed.

Lemma codcomu_scan_dicts l :
  Forall (fun t => is_dict t = true) l ->
  BackfillCT.codcomu_scan l
  = match List.find codcomu_tag l with Some t => BackfillCT.codcomu_scan [t] | None => Ok None end.
Proof.
  induction 1 as [|t l Ht Hl IH]; [reflexivity|].
  destruct t as [| | | | | | | |kvs]; try discriminate Ht.
  rewrite codcomu_scan_cons. cbn [List.find]. destruct (codcomu_tag (PDict kvs)); [reflexivity | exact IH].
Qed.

Lemma find_filter_hd {A} (f : A -> bool) l : List.find f l = hd_error (List.filter f l).
Proof. induction l as [|x l IH]; cbn; [reflexivity|]. destruct (f x); [reflexivity | exact IH]. Qed.

Lemma permutation_filter {A} (f : A -> bool) l l' :
  Permutation l l' -> Permutation (List.filter f l) (List.filter f l').
Proof.
  induction 1 as [|x l l' _ IH|x y l|l l' l'' _ IH1 _ IH2]; cbn [List.filter].
  - constructor.
  - destruct (f x); [constructor|]; exact IH.
  - destruct (f x), (f y); try constructor; reflexivity.
  - etransitivity; eassumption.
Qed.

(** Extra: when every tag is a dict and exactly one has a [name] (or
    [Name]) that is [CODCOMU] up to case and spaces, the extracted CODCOMU
    value does not depend on the order of the tags. *)
Theorem codcomu_order_free l l' :
  Permutation l l' -> Forall (fun t => is_dict t = true) l ->
  length (List.filter codcomu_tag l) = 1%nat ->
  BackfillCT.codcomu_scan l = BackfillCT.codcomu_scan l'.
Proof.
  intros Hp Hd H1.
  rewrite (codcomu_scan_dicts l Hd), (codcomu_scan_dicts l' (Permutation_Forall Hp Hd)),
    !find_filter_hd.
  destruct (List.filter codcomu_tag l) as [|t [|]] eqn:E; cbn in H1; try discriminate.
  assert (Hp' : Permutation [t] (List.filter codcomu_tag l')).
  { rewrite <- E. apply permutation_filter. exact Hp. }
  apply Permutation_length_1_inv in Hp'. rewrite <- Hp'. reflexivity.
Qed.

Lemma codcomu_order_free_witness :
  let l := [PDict [("name", PStr "OTHER"); ("value", PStr "x")];
            PDict [("Name", PStr " codcomu "); ("value", PStr " 13101 ")]] in
  let l' := [PDict [("Name", PStr " codcomu "); ("value", PStr " 13101 ")];
             PDict [("name", PStr "OTHER"); ("value", PStr "x")]] in
  BackfillCT.codcomu_scan l = BackfillCT.codcomu_scan l' /\
  BackfillCT.codcomu_scan l' = Ok (Some "13101"%string).
Proof.
  intros l l'. split.
  - apply codcomu_order_free.
    + apply perm_swap.
    + repeat constructor.
    + vm_compute. reflexivity.
  - vm_compute. reflexivity.
Defined.

End ExtraCodcomu.
